(** * JARVIS: the tool-calling chat loop of the Express server and the
      integration registry of the tool service

    The development embeds these programs of the repository:

    - [Server]: [server/index.ts], the single-file Express server
      ([MistralService], the Google services, [handleToolCalls] and the
      [/api/chat] route);
    - [Tools]: the [ToolService] class (catalog of integration functions,
      [searchIntegrationFunction] and [callIntegrationFunction]);
    - [Assistant]: [server/services/mistral.ts], the chat service that
      drives the tool service;
    - [Calendar]: [server/services/calendar.ts], one of the tool
      service's two collaborators, with the token refresh of
      [server/services/google-auth.ts];
    - [Auth]: the token middleware and the OAuth callback of
      [server/index.ts].

    All run on a small model of the JavaScript values they handle
    ([JS]) and of code that may throw and talks to the outside world
    ([Eff]). *)

From Stdlib Require Import String Ascii List ZArith Bool Lia Arith DecimalString.
Import ListNotations.
Open Scope string_scope.
Set Warnings "-register-all".

(* ================================================================== *)
(** * JavaScript values *)
(* ================================================================== *)

Module JS.

(** The values that flow through the program: what [JSON.parse] yields,
    plus [undefined].  Numbers are the integer-valued ones; object fields
    are kept in insertion order, as [JSON.stringify] prints them. *)
Inductive value : Type :=
| VUndef
| VNull
| VBool (b : bool)
| VNum (n : Z)
| VStr (s : string)
| VArr (elems : list value)
| VObj (fields : list (string * value)).

(** Thrown values.  Everything the program throws or catches is an
    instance of [Error], so [error instanceof Error] holds and
    [error.message] is defined. *)
Inductive exn : Type :=
| TypeError (msg : string)
| SyntaxError (msg : string)
| FetchError (msg : string)
| Error (msg : string).

Definition exn_message (e : exn) : string :=
  match e with
  | TypeError m | SyntaxError m | FetchError m | Error m => m
  end.

(** [if (v)], [!v], [v || w], [v && w]. *)
Definition truthy (v : value) : bool :=
  match v with
  | VUndef | VNull => false
  | VBool b => b
  | VNum n => negb (n =? 0)%Z
  | VStr s => negb (s =? "")
  | VArr _ | VObj _ => true
  end.

Definition js_or (v w : value) : value := if truthy v then v else w.

Definition nullish (v : value) : bool :=
  match v with VUndef | VNull => true | _ => false end.

Definition string_of_Z (n : Z) : string := NilZero.string_of_int (Z.to_int n).

(** [String(v)], the conversion a template literal applies. *)
Fixpoint to_js_string (v : value) : string :=
  match v with
  | VUndef => "undefined"
  | VNull => "null"
  | VBool true => "true"
  | VBool false => "false"
  | VNum n => string_of_Z n
  | VStr s => s
  | VArr l =>
      (fix join (l : list value) : string :=
         match l with
         | [] => ""
         | x :: r =>
             (if nullish x then "" else to_js_string x)
             ++ match r with [] => "" | _ :: _ => "," ++ join r end
         end) l
  | VObj _ => "[object Object]"
  end.

Fixpoint assoc (k : string) (fields : list (string * value)) : option value :=
  match fields with
  | [] => None
  | (k', v) :: rest => if k' =? k then Some v else assoc k rest
  end.

Definition first_char (s : string) : value :=
  match s with
  | EmptyString => VUndef
  | String c _ => VStr (String c EmptyString)
  end.

(** Double quote and backslash, built from their codes. *)
Definition dquote : string := String (ascii_of_nat 34) EmptyString.
Definition backslash : string := String (ascii_of_nat 92) EmptyString.

Definition hex_digit (n : nat) : string :=
  String (ascii_of_nat (if (n <? 10)%nat then 48 + n else 87 + n)) EmptyString.

(** One character of a quoted JSON string. *)
Definition json_escape_char (c : ascii) : string :=
  let n := nat_of_ascii c in
  if (n =? 34)%nat then backslash ++ dquote
  else if (n =? 92)%nat then backslash ++ backslash
  else if (n =? 8)%nat then backslash ++ "b"
  else if (n =? 9)%nat then backslash ++ "t"
  else if (n =? 10)%nat then backslash ++ "n"
  else if (n =? 12)%nat then backslash ++ "f"
  else if (n =? 13)%nat then backslash ++ "r"
  else if (n <? 32)%nat
       then backslash ++ "u00" ++ hex_digit (n / 16) ++ hex_digit (n mod 16)
  else String c EmptyString.

Fixpoint json_escape (s : string) : string :=
  match s with
  | EmptyString => ""
  | String c r => json_escape_char c ++ json_escape r
  end.

Definition json_quote (s : string) : string := dquote ++ json_escape s ++ dquote.

(** [JSON.stringify] below the top level: [undefined] prints as [null]
    inside an array and its field is left out of an object. *)
Fixpoint stringify_inner (v : value) : string :=
  match v with
  | VUndef => "null"
  | VNull => "null"
  | VBool true => "true"
  | VBool false => "false"
  | VNum n => string_of_Z n
  | VStr s => json_quote s
  | VArr l =>
      "[" ++
      (fix elems (l : list value) : string :=
         match l with
         | [] => ""
         | x :: r =>
             stringify_inner x
             ++ match r with [] => "" | _ :: _ => "," ++ elems r end
         end) l
      ++ "]"
  | VObj fs =>
      "{" ++
      (fix members (fs : list (string * value)) (first : bool) : string :=
         match fs with
         | [] => ""
         | (k, x) :: r =>
             match x with
             | VUndef => members r first
             | _ =>
                 (if first then "" else ",")
                 ++ json_quote k ++ ":" ++ stringify_inner x
                 ++ members r false
             end
         end) fs true
      ++ "}"
  end.

(** [JSON.stringify(v)]: a string, or [undefined] for [undefined]. *)
Definition JSON_stringify (v : value) : value :=
  match v with
  | VUndef => VUndef
  | _ => VStr (stringify_inner v)
  end.

End JS.
Export JS.

(* ================================================================== *)
(** * Code that throws and talks to the world *)
(* ================================================================== *)

Module Eff.

Inductive res (A : Type) : Type :=
| Ok (a : A)
| Throw (e : exn).
Arguments Ok {A} a.
Arguments Throw {A} e.

(** A computation over a store [S]: it ends in a value or in a thrown
    error, and in both cases leaves a store behind. *)
Definition M (S A : Type) : Type := S -> res A * S.

Definition ret {S A} (a : A) : M S A := fun s => (Ok a, s).

Definition throw {S A} (e : exn) : M S A := fun s => (Throw e, s).

Definition bind {S A B} (c : M S A) (k : A -> M S B) : M S B :=
  fun s =>
    match c s with
    | (Ok a, s') => k a s'
    | (Throw e, s') => (Throw e, s')
    end.

(** [try { c } catch (e) { h e }]. *)
Definition try_catch {S A} (c : M S A) (h : exn -> M S A) : M S A :=
  fun s =>
    match c s with
    | (Ok a, s') => (Ok a, s')
    | (Throw e, s') => h e s'
    end.

Definition gets {S A} (f : S -> A) : M S A := fun s => (Ok (f s), s).
Definition modify {S} (f : S -> S) : M S unit := fun s => (Ok tt, f s).

(** [if (b) throw e;] *)
Definition throw_if {S} (b : bool) (e : exn) : M S unit :=
  if b then throw e else ret tt.

Fixpoint mapM {S A B} (f : A -> M S B) (l : list A) : M S (list B) :=
  match l with
  | [] => ret []
  | x :: r => bind (f x) (fun y => bind (mapM f r) (fun ys => ret (y :: ys)))
  end.

End Eff.
Export Eff.

Declare Scope eff_scope.
Delimit Scope eff_scope with eff.
Notation "x <- c ;; k" := (bind c (fun x => k))
  (at level 61, c at next level, right associativity) : eff_scope.
Notation "c ;;; k" := (bind c (fun _ => k))
  (at level 61, right associativity) : eff_scope.
Open Scope eff_scope.

(** Property reads, in the error monad: reading a property of
    [undefined] or [null] throws a [TypeError]. *)
Module Reads.

(** [v.k] where [v] is neither [undefined] nor [null], for a key [k]
    that no prototype defines. *)
Definition prop_of (v : value) (k : string) : value :=
  match v with
  | VObj fs => match assoc k fs with Some x => x | None => VUndef end
  | _ => VUndef
  end.

(** [v.k]. *)
Definition get_prop {S} (v : value) (k : string) : M S value :=
  match v with
  | VUndef =>
      throw (TypeError ("Cannot read properties of undefined (reading '" ++ k ++ "')"))
  | VNull =>
      throw (TypeError ("Cannot read properties of null (reading '" ++ k ++ "')"))
  | _ => ret (prop_of v k)
  end.

(** [v?.k]. *)
Definition opt_prop {S} (v : value) (k : string) : M S value :=
  if nullish v then ret VUndef else get_prop v k.

(** [v[0]]. *)
Definition get_index0 {S} (v : value) : M S value :=
  match v with
  | VUndef => throw (TypeError "Cannot read properties of undefined (reading '0')")
  | VNull => throw (TypeError "Cannot read properties of null (reading '0')")
  | VArr l => ret (match l with [] => VUndef | x :: _ => x end)
  | VStr s => ret (first_char s)
  | VObj fs => ret (match assoc "0" fs with Some x => x | None => VUndef end)
  | _ => ret VUndef
  end.

(** [v.map(f)]: only arrays have a [map]; on any other value that is
    not [undefined] or [null] the callee is not a function. *)
Definition js_map {S} (v : value) (k : string) (f : value -> M S value) : M S value :=
  match v with
  | VUndef =>
      throw (TypeError ("Cannot read properties of undefined (reading '" ++ k ++ "')"))
  | VNull =>
      throw (TypeError ("Cannot read properties of null (reading '" ++ k ++ "')"))
  | VArr l => l' <- mapM f l ;; ret (VArr l')
  | _ => throw (TypeError (k ++ " is not a function"))
  end.

End Reads.
Export Reads.

(* ================================================================== *)
(** * server/index.ts *)
(* ================================================================== *)

Module Server.

Inductive role : Type := system | user | assistant | tool.

Definition role_eqb (a b : role) : bool :=
  match a, b with
  | system, system | user, user | assistant, assistant | tool, tool => true
  | _, _ => false
  end.

Definition role_string (r : role) : string :=
  match r with
  | system => "system"
  | user => "user"
  | assistant => "assistant"
  | tool => "tool"
  end.

(** An entry of [req.session.messages]; an absent optional field is
    [VUndef]. *)
Record turn : Type := Turn {
  msg_role : role;
  content : value;
  name : value;
  tool_calls : value;
  tool_call_id : value
}.

Definition plain (r : role) (c : value) : turn :=
  Turn r c VUndef VUndef VUndef.

(** [req.session.user], reduced to the fields the chat route reads. *)
Record User : Type := { accessToken : value; refreshToken : value }.

(** What [getChatResponse] hands back. *)
Record tool_call : Type := ToolCall {
  id : value;
  tc_name : value;
  arguments : value
}.

Record chat_response : Type := {
  cr_content : value;
  toolCalls : option (list tool_call)
}.

(** An element of the array [handleToolCalls] returns: [result] on the
    normal path, [error] from the [catch]. *)
Record tool_result : Type := {
  toolCallId : value;
  tr_name : value;
  result : value;
  error : value
}.

(** ** The outside world

    Every [fetch] of the file, by what it asks for rather than by its
    URL text.  The answer is either a rejection (network failure) or a
    response; [json] is what [response.json()] resolves to, [None] when
    the body is not JSON and the call rejects. *)
Inductive request : Type :=
| MistralChat (messages : list value) (tools : option (list value))
| GmailListMessages (token maxResults query label : value)
| GmailGetMessage (token messageId : value)
| GmailSendMessage (token : value) (emailContent : string)
    (* the message text, before its base64url encoding *)
| CalendarListEvents (token timeMin timeMax query : value)
| CalendarInsertEvent (token event : value)
| CalendarPutEvent (token eventId event : value)
| CalendarDeleteEvent (token eventId : value).

Record response : Type := {
  ok : bool;
  status : Z;
  statusText : string;
  text : string;
  json : option value
}.

Inductive fetch_outcome : Type :=
| Rejected (msg : string)
| Responded (r : response).

(** Functions whose invocations are counted. *)
Inductive callee : Type :=
| fn_handleToolCalls
| gmail_getEmails | gmail_getEmail | gmail_sendEmail
| calendar_getEvents | calendar_createEvent | calendar_updateEvent
| calendar_deleteEvent.

Inductive event : Type :=
| Call (c : callee)
| Fetch (r : request) (o : fetch_outcome).

(** The store of one request: what happened so far, and the array that
    [messages] names (shared with [req.session.messages] when the
    session already had one). *)
Record store : Type := Store {
  trace : list event;
  messages : list turn
}.

Definition callee_eqb (a b : callee) : bool :=
  match a, b with
  | fn_handleToolCalls, fn_handleToolCalls
  | gmail_getEmails, gmail_getEmails
  | gmail_getEmail, gmail_getEmail
  | gmail_sendEmail, gmail_sendEmail
  | calendar_getEvents, calendar_getEvents
  | calendar_createEvent, calendar_createEvent
  | calendar_updateEvent, calendar_updateEvent
  | calendar_deleteEvent, calendar_deleteEvent => true
  | _, _ => false
  end.

Definition is_call (c : callee) (e : event) : bool :=
  match e with
  | Call c' => callee_eqb c c'
  | Fetch _ _ => false
  end.

(** Number of invocations of [c] recorded in a trace. *)
Definition calls (c : callee) (t : list event) : nat :=
  length (filter (is_call c) t).

Definition is_mistral (e : event) : bool :=
  match e with
  | Fetch (MistralChat _ _) _ => true
  | _ => false
  end.

(** The requests sent to the LLM provider, oldest first. *)
Fixpoint mistral_requests (t : list event) : list (list value * option (list value)) :=
  match t with
  | [] => []
  | Fetch (MistralChat ms ts) _ :: r => (ms, ts) :: mistral_requests r
  | _ :: r => mistral_requests r
  end.

Definition newline : string := String (ascii_of_nat 10) EmptyString.

(** ** MistralService: static data *)

Definition getSystemPrompt : string :=
  "You are Jarvis, an AI assistant specialized in Gmail and Google Calendar management. Follow these rules:" ++ newline ++
  "1. NEVER use placeholder data (like example@email.com or " ++ dquote ++ "Meeting with X" ++ dquote ++ ")" ++ newline ++
  "2. For actions requiring specific details (emails/events), ALWAYS ask for:" ++ newline ++
  "   - Recipient's REAL email address for emails" ++ newline ++
  "   - Specific date/time for calendar events" ++ newline ++
  "   - Complete details before taking action" ++ newline ++
  "3. Be concise but thorough in responses" ++ newline ++
  "4. Confirm actions with user before executing".

Definition p_string (d : string) : value :=
  VObj [("type", VStr "string"); ("description", VStr d)].

Definition p_datetime (d : string) : value :=
  VObj [("type", VStr "string"); ("format", VStr "date-time"); ("description", VStr d)].

Definition p_strings (d : string) : value :=
  VObj [("type", VStr "array");
        ("items", VObj [("type", VStr "string")]);
        ("description", VStr d)].

Definition p_emails (d : string) : value :=
  VObj [("type", VStr "array");
        ("items", VObj [("type", VStr "string"); ("format", VStr "email")]);
        ("description", VStr d)].

Definition tool_def (n d : string) (props : list (string * value))
    (required : list string) : value :=
  VObj [("type", VStr "function");
        ("function",
          VObj [("name", VStr n);
                ("description", VStr d);
                ("parameters",
                  VObj [("type", VStr "object");
                        ("properties", VObj props);
                        ("required", VArr (map VStr required))])])].

Definition getToolDefinitions : list value :=
  [ tool_def "get_emails" "Fetch emails from Gmail inbox"
      [("max_results",
         VObj [("type", VStr "integer");
               ("description", VStr "Maximum number of emails to return (default: 5)");
               ("default", VNum 5)]);
       ("query", p_string "Gmail search query to filter emails");
       ("label", p_string "Filter by label ID")]
      [];
    tool_def "send_email" "Send an email through Gmail"
      [("to", p_string "Recipient email address");
       ("subject", p_string "Email subject");
       ("body", p_string "Email content in HTML format");
       ("cc", p_strings "CC recipients");
       ("bcc", p_strings "BCC recipients")]
      ["to"; "subject"; "body"];
    tool_def "get_calendar_events" "Fetch calendar events within a time range"
      [("time_min", p_datetime "Start time in ISO 8601 format (default: current time)");
       ("time_max", p_datetime "End time in ISO 8601 format (default: end of current day)");
       ("query", p_string "Search query to filter events")]
      [];
    tool_def "create_calendar_event" "Create a new calendar event"
      [("summary", p_string "Event title");
       ("start", p_datetime "Start time in ISO 8601 format");
       ("end", p_datetime "End time in ISO 8601 format");
       ("location", p_string "Physical or virtual meeting location");
       ("description", p_string "Event description/details");
       ("attendees", p_emails "List of attendee email addresses")]
      ["summary"; "start"; "end"];
    tool_def "update_calendar_event" "Update an existing calendar event"
      [("event_id", p_string "ID of the event to update");
       ("summary", p_string "Updated event title");
       ("start", p_datetime "Updated start time in ISO 8601 format");
       ("end", p_datetime "Updated end time in ISO 8601 format");
       ("location", p_string "Updated location");
       ("description", p_string "Updated description");
       ("attendees", p_emails "Updated list of attendee email addresses")]
      ["event_id"];
    tool_def "delete_calendar_event" "Delete a calendar event"
      [("event_id", p_string "ID of the event to delete")]
      ["event_id"] ].

(** The names the tool schema offers to the model. *)
Definition def_name (d : value) : string :=
  to_js_string (prop_of (prop_of d "function") "name").

Definition registered_names : list string := map def_name getToolDefinitions.

Definition apology : string :=
  "I apologize, but I had trouble processing that request. Could you please try again?".

Definition sorry : string :=
  "Sorry, I encountered an error processing your request. Please try again later.".

(** ** MistralService: pure helpers *)

Definition formatToolCalls (tcs : list tool_call) : value :=
  VArr (map (fun call =>
               VObj [("id", id call);
                     ("type", VStr "function");
                     ("function",
                       VObj [("name", tc_name call);
                             ("arguments", JSON_stringify (arguments call))])])
            tcs).

(** [...(v && { k: v })]: the field is there when [v] is truthy. *)
Definition spread_if (k : string) (v : value) : list (string * value) :=
  if truthy v then [(k, v)] else [].

Definition format_one (msg : turn) : value :=
  VObj ([("role", VStr (role_string (msg_role msg)));
         ("content", content msg)]
        ++ spread_if "name" (name msg)
        ++ spread_if "tool_calls" (tool_calls msg)
        ++ spread_if "tool_call_id" (tool_call_id msg)).

(** The [for] loop of [formatMessages], with its two locals. *)
Fixpoint formatMessages_loop (msgs : list turn) (formattedMessages : list value)
    (lastRole : option role) : list value :=
  match msgs with
  | [] => formattedMessages
  | msg :: rest =>
      if role_eqb (msg_role msg) system then
        formatMessages_loop rest formattedMessages lastRole
      else if role_eqb (msg_role msg) tool
              && negb (match lastRole with
                       | Some r => role_eqb r assistant
                       | None => false
                       end) then
        formatMessages_loop rest formattedMessages lastRole
      else
        formatMessages_loop rest (formattedMessages ++ [format_one msg])
          (Some (msg_role msg))
  end.

Definition formatMessages (msgs : list turn) : list value :=
  formatMessages_loop msgs [] None.

(** [messages.slice(-n)]. *)
Definition slice_last {A} (n : nat) (l : list A) : list A :=
  skipn (length l - n) l.

(** [tools && tools.length > 0]. *)
Definition offered (tools : option (list value)) : option (list value) :=
  match tools with
  | Some ((_ :: _) as ts) => Some ts
  | _ => None
  end.

(** ** The effectful part

    The world is a function from what happened so far and the request
    made to the outcome of that request; [JSON.parse], the API key of the
    environment and the two clock readings [getEvents] takes are
    parameters as well. *)
Section World.

Variable env : list event -> request -> fetch_outcome.
Variable JSON_parse : string -> option value.
Variable MISTRAL_API_KEY : value.
Variables now_iso end_of_day_iso : string.

Definition log (e : event) : M store unit :=
  modify (fun s => Store (trace s ++ [e]) (messages s)).

(** [await fetch(...)]: rejects on a network failure. *)
Definition fetch (r : request) : M store response :=
  fun s =>
    let o := env (trace s) r in
    let s' := Store (trace s ++ [Fetch r o]) (messages s) in
    match o with
    | Rejected m => (Throw (FetchError m), s')
    | Responded resp => (Ok resp, s')
    end.

(** [await response.json()]. *)
Definition response_json (r : response) : M store value :=
  match json r with
  | Some v => ret v
  | None => throw (SyntaxError "Unexpected token in JSON")
  end.

(** [messages.push(m)]. *)
Definition push (m : turn) : M store unit :=
  modify (fun s => Store (trace s) (messages s ++ [m])).

(** Runs [c] and hands back how it ended: a promise that has settled. *)
Definition settle {A} (c : M store A) : M store (res A) :=
  fun s => let (r, s') := c s in (Ok r, s').

Definition unsettle {A} (r : res A) : M store A :=
  match r with
  | Ok a => ret a
  | Throw e => throw e
  end.

(** *** MistralService *)

Definition safeParseJson (jsonString : value) : M store value :=
  try_catch
    (if truthy jsonString then
       match JSON_parse (to_js_string jsonString) with
       | Some v => ret v
       | None => throw (SyntaxError "Unexpected token in JSON")
       end
     else ret (VObj []))
    (fun _ => ret (VObj [])).

(** The callback of [tool_calls.map]. *)
Definition parse_call (call : value) : M store tool_call :=
  i <- get_prop call "id" ;;
  f <- get_prop call "function" ;;
  n <- opt_prop f "name" ;;
  f' <- get_prop call "function" ;;
  a <- opt_prop f' "arguments" ;;
  args <- safeParseJson a ;;
  ret (ToolCall i n args).

(** [assistantMessage?.tool_calls?.map(...)]. *)
Definition parse_calls (assistantMessage : value) : M store (option (list tool_call)) :=
  tcs <- opt_prop assistantMessage "tool_calls" ;;
  match tcs with
  | VUndef | VNull => ret None
  | VArr l => r <- mapM parse_call l ;; ret (Some r)
  | _ => throw (TypeError "assistantMessage?.tool_calls?.map is not a function")
  end.

(** [result.choices[0]?.message] *)
Definition message_of {S} (result : value) : M S value :=
  choices <- get_prop result "choices" ;;
  first <- get_index0 choices ;;
  opt_prop first "message".

(** [getChatResponse] from the status check on: what it makes of the
    response. *)
Definition read_reply (response : response) : M store chat_response :=
  throw_if (negb (ok response))
    (Error ("Mistral API error: " ++ string_of_Z (status response) ++ " "
            ++ statusText response ++ " - " ++ text response)) ;;;
  result <- response_json response ;;
  assistantMessage <- message_of result ;;
  _unused <- parse_calls assistantMessage ;;
  c <- opt_prop assistantMessage "content" ;;
  tcs <- parse_calls assistantMessage ;;
  ret {| cr_content := js_or c (VStr apology); toolCalls := tcs |}.

(** The system turn [getChatResponse] puts before every history. *)
Definition system_turn : value :=
  VObj [("role", VStr "system"); ("content", VStr getSystemPrompt)].

(** The request [getChatResponse] sends for a history and a tool
    schema. *)
Definition chat_request (msgs : list turn) (tools : option (list value)) : request :=
  MistralChat (system_turn :: formatMessages msgs) (offered tools).

Definition getChatResponse (msgs : list turn) (tools : option (list value))
  : M store chat_response :=
  try_catch
    (throw_if (negb (truthy MISTRAL_API_KEY))
       (Error "Mistral API key not configured") ;;;
     response <- fetch (chat_request msgs tools) ;;
     read_reply response)
    (fun _ => ret {| cr_content := VStr sorry; toolCalls := None |}).

(** *** GmailService and GoogleCalendarService *)

(** What [join] makes of one element: [undefined] and [null] count as
    the empty string. *)
Definition join_item (x : value) : string :=
  if nullish x then "" else to_js_string x.

(** [a.join(sep)] on the elements of an array. *)
Fixpoint join_with (sep : string) (l : list value) : string :=
  match l with
  | [] => ""
  | x :: r =>
      join_item x
      ++ match r with [] => "" | _ :: _ => sep ++ join_with sep r end
  end.

(** [...(v ? [`${label}: ${v.join(', ')}`] : [])]. *)
Definition recipients_line (label : string) (v : value) : M store (list string) :=
  if truthy v then
    match v with
    | VArr l => ret [label ++ ": " ++ join_with ", " l]
    | _ => throw (TypeError "join is not a function")
    end
  else ret [].

Record EmailMessage : Type := {
  em_to : value; em_subject : value; em_body : value;
  em_cc : value; em_bcc : value
}.

Definition sendEmail (token : value) (email : EmailMessage) : M store value :=
  log (Call gmail_sendEmail) ;;;
  cc <- recipients_line "Cc" (em_cc email) ;;
  bcc <- recipients_line "Bcc" (em_bcc email) ;;
  let emailContent :=
    String.concat newline
      (["To: " ++ to_js_string (em_to email)] ++ cc ++ bcc ++
       ["Content-Type: text/html; charset=utf-8";
        "MIME-Version: 1.0";
        "Subject: " ++ to_js_string (em_subject email);
        "";
        join_item (em_body email)]) in
  response <- fetch (GmailSendMessage token emailContent) ;;
  response_json response.

Definition getEmails (token maxResults query label : value) : M store value :=
  log (Call gmail_getEmails) ;;;
  response <- fetch (GmailListMessages token maxResults query label) ;;
  data <- response_json response ;;
  ms <- get_prop data "messages" ;;
  ret (js_or ms (VArr [])).

Definition getEmail (token messageId : value) : M store value :=
  log (Call gmail_getEmail) ;;;
  response <- fetch (GmailGetMessage token messageId) ;;
  response_json response.

Definition getEvents (token timeMin timeMax query : value) : M store value :=
  log (Call calendar_getEvents) ;;;
  let defaultTimeMin := js_or timeMin (VStr now_iso) in
  let defaultTimeMax := js_or timeMax (VStr end_of_day_iso) in
  response <- fetch (CalendarListEvents token defaultTimeMin defaultTimeMax query) ;;
  data <- response_json response ;;
  items <- get_prop data "items" ;;
  ret (js_or items (VArr [])).

Definition createEvent (token event : value) : M store value :=
  log (Call calendar_createEvent) ;;;
  response <- fetch (CalendarInsertEvent token event) ;;
  response_json response.

Definition updateEvent (token eventId event : value) : M store value :=
  log (Call calendar_updateEvent) ;;;
  response <- fetch (CalendarPutEvent token eventId event) ;;
  response_json response.

(** The response of the [DELETE] is awaited and dropped. *)
Definition deleteEvent (token eventId : value) : M store unit :=
  log (Call calendar_deleteEvent) ;;;
  _response <- fetch (CalendarDeleteEvent token eventId) ;;
  ret tt.

(** *** handleToolCalls *)

(** [name === s], as the [switch] compares. *)
Definition name_is (n : value) (s : string) : bool :=
  match n with
  | VStr x => x =? s
  | _ => false
  end.

Fixpoint find_loop (l : list value) (n : string) : M store value :=
  match l with
  | [] => ret VUndef
  | h :: r =>
      nm <- get_prop h "name" ;;
      if name_is nm n then ret h else find_loop r n
  end.

(** [detail.payload.headers.find((h) => h.name === n)?.value]. *)
Definition header_value (detail : value) (n : string) : M store value :=
  payload <- get_prop detail "payload" ;;
  headers <- get_prop payload "headers" ;;
  h <- match headers with
       | VUndef =>
           throw (TypeError "Cannot read properties of undefined (reading 'find')")
       | VNull =>
           throw (TypeError "Cannot read properties of null (reading 'find')")
       | VArr l => find_loop l n
       | _ => throw (TypeError "detail.payload.headers.find is not a function")
       end ;;
  opt_prop h "value".

(** The object the callback of [emails.map] returns once [detail] is
    there. *)
Definition email_summary (email detail : value) : M store value :=
  i <- get_prop email "id" ;;
  subject <- header_value detail "Subject" ;;
  from <- header_value detail "From" ;;
  date <- header_value detail "Date" ;;
  snippet <- get_prop detail "snippet" ;;
  ret (VObj [("id", i);
             ("subject", js_or subject (VStr "No Subject"));
             ("from", js_or from (VStr "Unknown Sender"));
             ("date", date);
             ("snippet", snippet)]).

(** [await Promise.all(emails.map(async (email) => ...))]: every
    callback runs up to its [await] when [map] calls it, so all the
    detail requests go out, in order, whatever their outcomes; the
    first failure in array order is the one reported. *)
Definition email_details (token : value) (emails : value) : M store value :=
  match emails with
  | VArr es =>
      started <- mapM (fun email =>
                         settle (i <- get_prop email "id" ;; getEmail token i)) es ;;
      out <- mapM (fun p => detail <- unsettle (snd p) ;;
                            email_summary (fst p) detail)
                  (combine es started) ;;
      ret (VArr out)
  | _ => throw (TypeError "emails.map is not a function")
  end.

(** [if (v) updateData.k = w]. *)
Definition set_if (v : value) (k : string) (w : value)
    (updateData : list (string * value)) : list (string * value) :=
  if truthy v then updateData ++ [(k, w)] else updateData.

Definition as_attendee (email : value) : M store value :=
  ret (VObj [("email", email)]).

(** What [delete_calendar_event] reports. *)
Definition deleted : value :=
  VObj [("success", VBool true); ("message", VStr "Event deleted successfully")].

(** The body of the [switch]. *)
Definition dispatch (nm args : value) (u : User) : M store value :=
  if name_is nm "get_emails" then
    max_results <- get_prop args "max_results" ;;
    query <- get_prop args "query" ;;
    label <- get_prop args "label" ;;
    emails <- getEmails (accessToken u) (js_or max_results (VNum 5)) query label ;;
    email_details (accessToken u) emails
  else if name_is nm "send_email" then
    to <- get_prop args "to" ;;
    subject <- get_prop args "subject" ;;
    body <- get_prop args "body" ;;
    cc <- get_prop args "cc" ;;
    bcc <- get_prop args "bcc" ;;
    sendEmail (accessToken u)
      {| em_to := to; em_subject := subject; em_body := body;
         em_cc := cc; em_bcc := bcc |}
  else if name_is nm "get_calendar_events" then
    time_min <- get_prop args "time_min" ;;
    time_max <- get_prop args "time_max" ;;
    query <- get_prop args "query" ;;
    getEvents (accessToken u) time_min time_max query
  else if name_is nm "create_calendar_event" then
    summary <- get_prop args "summary" ;;
    start <- get_prop args "start" ;;
    end_ <- get_prop args "end" ;;
    location <- get_prop args "location" ;;
    description <- get_prop args "description" ;;
    attendees <- get_prop args "attendees" ;;
    mapped <- (if nullish attendees then ret VUndef
               else js_map attendees "args.attendees?.map" as_attendee) ;;
    createEvent (accessToken u)
      (VObj [("summary", summary);
             ("start", VObj [("dateTime", start)]);
             ("end", VObj [("dateTime", end_)]);
             ("location", location);
             ("description", description);
             ("attendees", mapped)])
  else if name_is nm "update_calendar_event" then
    summary <- get_prop args "summary" ;;
    let d1 := set_if summary "summary" summary [] in
    start <- get_prop args "start" ;;
    let d2 := set_if start "start" (VObj [("dateTime", start)]) d1 in
    end_ <- get_prop args "end" ;;
    let d3 := set_if end_ "end" (VObj [("dateTime", end_)]) d2 in
    location <- get_prop args "location" ;;
    let d4 := set_if location "location" location d3 in
    description <- get_prop args "description" ;;
    let d5 := set_if description "description" description d4 in
    attendees <- get_prop args "attendees" ;;
    d6 <- (if truthy attendees then
             mapped <- js_map attendees "args.attendees.map" as_attendee ;;
             ret (d5 ++ [("attendees", mapped)])%list
           else ret d5) ;;
    event_id <- get_prop args "event_id" ;;
    updateEvent (accessToken u) event_id (VObj d6)
  else if name_is nm "delete_calendar_event" then
    event_id <- get_prop args "event_id" ;;
    deleteEvent (accessToken u) event_id ;;;
    ret deleted
  else
    ret (VObj [("error", VStr ("Unknown tool call: " ++ to_js_string nm))]).

(** One turn of the [for] loop: the [try] and its [catch]. *)
Definition handleToolCall (u : User) (toolCall : tool_call) : M store tool_result :=
  try_catch
    (r <- dispatch (tc_name toolCall) (arguments toolCall) u ;;
     ret {| toolCallId := id toolCall; tr_name := tc_name toolCall;
            result := r; error := VUndef |})
    (fun e =>
       ret {| toolCallId := id toolCall; tr_name := tc_name toolCall;
              result := VUndef; error := VStr (exn_message e) |}).

Fixpoint handleToolCalls_loop (u : User) (toolCalls : list tool_call)
    (results : list tool_result) : M store (list tool_result) :=
  match toolCalls with
  | [] => ret results
  | toolCall :: rest =>
      r <- handleToolCall u toolCall ;;
      handleToolCalls_loop u rest (results ++ [r])
  end.

Definition handleToolCalls (toolCalls : list tool_call) (u : User)
  : M store (list tool_result) :=
  log (Call fn_handleToolCalls) ;;;
  handleToolCalls_loop u toolCalls [].

(** *** POST /api/chat *)

(** The assistant turn that carries the tool calls. *)
Definition calls_turn (c : value) (tcs : list tool_call) : turn :=
  {| msg_role := assistant;
     content := js_or c (VStr "");
     name := VUndef;
     tool_calls := formatToolCalls tcs;
     tool_call_id := VUndef |}.

(** The turn [toolResults.forEach] pushes for one result. *)
Definition tool_turn (r : tool_result) : turn :=
  {| msg_role := tool;
     content := JSON_stringify (js_or (result r) (error r));
     name := VUndef;
     tool_calls := VUndef;
     tool_call_id := toolCallId r |}.

Fixpoint push_all (ms : list turn) : M store unit :=
  match ms with
  | [] => ret tt
  | m :: r => push m ;;; push_all r
  end.

(** [req.session.user?.accessToken ? getToolDefinitions() : undefined] *)
Definition tools_for (u : User) : option (list value) :=
  if truthy (accessToken u) then Some getToolDefinitions else None.

(** The [try] block: what is stored as [req.session.messages] and what
    [res.json] sends. *)
Definition chat_try (u : User)
  : M store (list turn * option turn) :=
  let tools := tools_for u in
  before <- gets messages ;;
  first <- getChatResponse before tools ;;
  match toolCalls first with
  | Some ((_ :: _) as tcs) =>
      push (calls_turn (cr_content first) tcs) ;;;
      toolResults <- handleToolCalls tcs u ;;
      push_all (map tool_turn toolResults) ;;;
      history <- gets messages ;;
      finalResponse <- getChatResponse history None ;;
      push (plain assistant (cr_content finalResponse))
  | _ => push (plain assistant (cr_content first))
  end ;;;
  ms <- gets messages ;;
  ret (slice_last 10 ms, nth_error ms (length ms - 1)).

End World.

Record Session : Type := {
  session_user : option User;
  session_messages : option (list turn)
}.

Inductive reply : Type :=
| Status401
| Json200 (body : option turn)
| Status500.

(** [req.session.messages || []] *)
Definition stored (session : Session) : list turn :=
  match session_messages session with
  | Some l => l
  | None => []
  end.

(** The route handler: the reply, the session it leaves and the trace. *)
Definition chat env JSON_parse MISTRAL_API_KEY now_iso end_of_day_iso
    (session : Session) (message : value) (t : list event)
  : reply * Session * list event :=
  match session_user session with
  | None => (Status401, session, t)
  | Some u =>
      match (push (plain user message) ;;;
             chat_try env JSON_parse MISTRAL_API_KEY now_iso end_of_day_iso u)
              (Store t (stored session)) with
      | (Ok (kept, last), s) =>
          (Json200 last,
           {| session_user := Some u; session_messages := Some kept |},
           trace s)
      | (Throw _, s) =>
          (Status500,
           {| session_user := Some u;
              session_messages :=
                match session_messages session with
                | Some _ => Some (messages s)
                | None => None
                end |},
           trace s)
      end
  end.

(** ** Vocabulary of the statements *)

(** What one turn of the loop yields, by how the tool ended. *)
Definition turn_result (tc : tool_call) (r : res value) : tool_result :=
  match r with
  | Ok v => {| toolCallId := id tc; tr_name := tc_name tc;
               result := v; error := VUndef |}
  | Throw e => {| toolCallId := id tc; tr_name := tc_name tc;
                  result := VUndef; error := VStr (exn_message e) |}
  end.


(** What a tool may do: anything but a request to the LLM provider or
    an entry into [handleToolCalls]. *)
Definition tool_event (e : event) : bool :=
  negb (is_mistral e) && negb (is_call fn_handleToolCalls e).

(** [s'] is [s] with more events, all of them in [P], and the same
    [messages]. *)
Definition extends (P : event -> bool) (s s' : store) : Prop :=
  messages s' = messages s
  /\ exists new, trace s' = (trace s ++ new)%list /\ forallb P new = true.

(** [c] only adds events of [P] and leaves [messages] alone. *)
Definition keeps {A} (P : event -> bool) (c : M store A) : Prop :=
  forall s, extends P s (snd (c s)).

(** The body of a reply yields no assistant message: reading
    [choices[0]?.message] throws, or gives [undefined] or [null]. *)
Definition no_message (v : value) : bool :=
  match fst (message_of v tt) with
  | Ok m => nullish m
  | Throw _ => true
  end.

(** A failed call of the LLM provider: the transport fails, the status
    is not a success, the body is not JSON, or it has no message. *)
Definition llm_failed (o : fetch_outcome) : bool :=
  match o with
  | Rejected _ => true
  | Responded r =>
      negb (ok r)
      || match json r with
         | None => true
         | Some v => no_message v
         end
  end.

(** The store [getChatResponse] leaves: one request more when the key is
    configured, the same store otherwise. *)
Definition after_call (env : list event -> request -> fetch_outcome)
    (MISTRAL_API_KEY : value) (msgs : list turn) (tools : option (list value))
    (s : store) : store :=
  if truthy MISTRAL_API_KEY
  then Store (trace s ++ [Fetch (chat_request msgs tools)
                                (env (trace s) (chat_request msgs tools))])
             (messages s)
  else s.

(** The reply [getChatResponse] falls back to when the call throws. *)
Definition fallback : chat_response :=
  {| cr_content := VStr sorry; toolCalls := None |}.

(** The text of [deleted] in the tool turn. *)
Definition deleted_text : string :=
  "{" ++ dquote ++ "success" ++ dquote ++ ":true,"
      ++ dquote ++ "message" ++ dquote ++ ":"
      ++ dquote ++ "Event deleted successfully" ++ dquote ++ "}".

(** The whole log of an exchange, as [messages] holds it when the
    route cuts it. *)
Definition exchange_log env JSON_parse MISTRAL_API_KEY now_iso end_of_day_iso
    (u : User) (session : Session) (message : value) (t : list event)
  : list turn :=
  messages
    (snd ((push (plain user message) ;;;
           chat_try env JSON_parse MISTRAL_API_KEY now_iso end_of_day_iso u)
            (Store t (stored session)))).

Definition is_tool (m : turn) : bool := role_eqb (msg_role m) tool.

Definition is_assistant (m : turn) : bool := role_eqb (msg_role m) assistant.

(** An assistant turn bearing tool calls. *)
Definition bears_calls (m : turn) : bool :=
  is_assistant m && truthy (tool_calls m).

(** Going back from index [k], over tool turns, to the turn that issued
    them: the first turn met that is not a tool turn, when it bears tool
    calls.  [before] holds the turns up to index [k], last first. *)
Fixpoint issuer_back (before : list turn) (k : nat) : option nat :=
  match before with
  | [] => None
  | m :: r =>
      if is_tool m then issuer_back r (k - 1)
      else if bears_calls m then Some k
      else None
  end.

(** The index of the assistant turn that issued the tool turn at index
    [i] of a log. *)
Definition issuer (log : list turn) (i : nat) : option nat :=
  match nth_error log i with
  | Some m => if is_tool m then issuer_back (rev (firstn i log)) (i - 1) else None
  | None => None
  end.

(** Cutting a log to its last [n] turns keeps, with every tool turn it
    keeps, the assistant turn that issued it. *)
Definition pairing_kept (n : nat) (log : list turn) : Prop :=
  forall i j,
    (length log - n <= i)%nat -> issuer log i = Some j -> (length log - n <= j)%nat.

(** A tool turn is paired when the log holds the assistant turn that
    issued it: going back over the tool turns of the same reply, the
    first turn met bears tool calls. *)
Definition paired (log : list turn) (i : nat) : bool :=
  match issuer log i with
  | Some _ => true
  | None => false
  end.

(** The turns forwarded upstream, in the words of the specification: a
    tool turn without an assistant turn bearing tool calls before it,
    that is an unpaired one, is dropped; every other turn is forwarded,
    in the original order. *)
Definition forwarded (log : list turn) : list turn :=
  map snd
    (filter (fun im => negb (is_tool (snd im)) || paired log (fst im))
       (combine (seq 0 (length log)) log)).

(** [v.role === s], for an entry of a formatted request. *)
Definition has_role (v : value) (s : string) : bool :=
  match prop_of v "role" with
  | VStr x => x =? s
  | _ => false
  end.

(** The order the provider expects of a request's turns: no system
    turn, and every tool turn right after an assistant turn.
    [after_assistant] tells whether the turn before the list is an
    assistant turn. *)
Fixpoint well_ordered (after_assistant : bool) (l : list value) : bool :=
  match l with
  | [] => true
  | v :: r =>
      negb (has_role v "system")
      && (negb (has_role v "tool") || after_assistant)
      && well_ordered (has_role v "assistant") r
  end.

(** A user or an assistant turn. *)
Definition is_dialogue (m : turn) : bool :=
  role_eqb (msg_role m) user || role_eqb (msg_role m) assistant.

(** [c] first records the event [e], and then only events of tools. *)
Definition starts_with {A} (e : event) (c : M store A) : Prop :=
  forall s, exists rest,
    trace (snd (c s)) = (trace s ++ e :: rest)%list
    /\ forallb tool_event rest = true.

(** ** Sample worlds

    Concrete users, replies and worlds, for running the route. *)

Definition sample_user : User :=
  {| accessToken := VStr "ya29.sample"; refreshToken := VUndef |}.

Definition response_of (st : Z) (body : option value) : response :=
  {| ok := (200 <=? st)%Z && (st <? 300)%Z;
     status := st; statusText := ""; text := ""; json := body |}.

(** A chat completion whose first choice carries the message [m]. *)
Definition completion (m : value) : value :=
  VObj [("choices", VArr [VObj [("message", m)]])].

(** A tool call as the provider writes it: the arguments are JSON
    text. *)
Definition call_of (i n : string) (args : value) : value :=
  VObj [("id", VStr i);
        ("type", VStr "function");
        ("function", VObj [("name", VStr n);
                           ("arguments", JSON_stringify args)])].

Definition sample_values : list value :=
  [VObj []; VObj [("event_id", VStr "evt123")]].

(** [JSON.parse] on the texts of [sample_values]; any other text is
    refused. *)
Definition sample_parse (s : string) : option value :=
  find (fun v => stringify_inner v =? s) sample_values.

(** The three calls [sample_world] asks for, as [getChatResponse]
    hands them to the loop. *)
Definition unknown_call : tool_call :=
  ToolCall (VStr "call_1") (VStr "foo_bar") (VObj []).

Definition delete_call : tool_call :=
  ToolCall (VStr "call_2") (VStr "delete_calendar_event")
    (VObj [("event_id", VStr "evt123")]).

Definition bare_send_call : tool_call :=
  ToolCall (VStr "call_3") (VStr "send_email") (VObj []).

(** A call whose tool fails in [sample_world], where Gmail's message
    list is down. *)
Definition failing_call : tool_call :=
  ToolCall (VStr "call_0") (VStr "get_emails") (VObj []).

(** The model asks for three tools when it is offered the schema, and
    answers in plain text when it is not; the calendar answers the
    [DELETE] with 404, Gmail accepts the message, the rest is down. *)
Definition sample_world (_ : list event) (r : request) : fetch_outcome :=
  match r with
  | MistralChat _ (Some _) =>
      Responded (response_of 200 (Some (completion
        (VObj [("content", VStr "");
               ("tool_calls",
                 VArr [call_of "call_1" "foo_bar" (VObj []);
                       call_of "call_2" "delete_calendar_event"
                         (VObj [("event_id", VStr "evt123")]);
                       call_of "call_3" "send_email" (VObj [])])]))))
  | MistralChat _ None =>
      Responded (response_of 200 (Some (completion
        (VObj [("content", VStr "Done.")]))))
  | CalendarDeleteEvent _ _ => Responded (response_of 404 None)
  | GmailSendMessage _ _ =>
      Responded (response_of 200 (Some (VObj [("id", VStr "m1")])))
  | _ => Rejected "ECONNRESET"
  end.

(** The model always answers in plain text. *)
Definition plain_world (_ : list event) (r : request) : fetch_outcome :=
  match r with
  | MistralChat _ _ =>
      Responded (response_of 200 (Some (completion
        (VObj [("content", VStr "Hello!")]))))
  | _ => Rejected "ECONNRESET"
  end.

(** [sample_world] for the first exchange, [plain_world] from the
    third request to the model on. *)
Definition scripted_world (h : list event) (r : request) : fetch_outcome :=
  if (2 <=? length (mistral_requests h))%nat then plain_world h r
  else sample_world h r.

(** Nothing answers. *)
Definition down_world (_ : list event) (_ : request) : fetch_outcome :=
  Rejected "ECONNRESET".

Definition signed_in (ms : option (list turn)) : Session :=
  {| session_user := Some sample_user; session_messages := ms |}.

(** What [getChatResponse] makes of the first reply of
    [sample_world]: the empty content is replaced by the apology, and
    the three calls are parsed. *)
Definition sample_first : chat_response :=
  {| cr_content := VStr apology;
     toolCalls := Some [unknown_call; delete_call; bare_send_call] |}.

(** One exchange in a world, from a session and a trace to the session
    and the trace it leaves. *)
Definition exchange_with (world : list event -> request -> fetch_outcome)
    (st : Session * list event) (m : string) : Session * list event :=
  let '(_, session, t) :=
    chat world sample_parse (VStr "sk-sample") "" "" (fst st) (VStr m) (snd st) in
  (session, t).

(** A signed-in user's first three exchanges in [scripted_world]: the
    first runs three tools, the next two are plain. *)
Definition three_exchanges : Session * list event :=
  fold_left (exchange_with scripted_world)
    ["Delete my 3pm and tell Bob"; "Thanks"; "What else is on today?"]
    (signed_in None, []).

(** The history of the second request of the first exchange in
    [sample_world]: the user turn, the assistant turn with three tool
    calls, and the three tool turns. *)
Definition sample_history : list turn :=
  removelast
    (exchange_log sample_world sample_parse (VStr "sk-sample") "" ""
       sample_user (signed_in None) (VStr "Delete my 3pm and tell Bob") []).

(** What is sent upstream of [sample_history], after the system turn:
    the user turn, the assistant turn with its three calls, and the
    tool turn of the first call only. *)
Definition sent_history : list value :=
  [ VObj [("role", VStr "user");
          ("content", VStr "Delete my 3pm and tell Bob")];
    VObj [("role", VStr "assistant");
          ("content", VStr apology);
          ("tool_calls",
            VArr [call_of "call_1" "foo_bar" (VObj []);
                  call_of "call_2" "delete_calendar_event"
                    (VObj [("event_id", VStr "evt123")]);
                  call_of "call_3" "send_email" (VObj [])])];
    VObj [("role", VStr "tool");
          ("content",
            JSON_stringify (VObj [("error", VStr "Unknown tool call: foo_bar")]));
          ("tool_call_id", VStr "call_1")] ].

(** [plain_world] for the first two exchanges, [sample_world] for the
    third, which runs the three tools, and [plain_world] again from the
    fifth request to the model on. *)
Definition late_tools_world (h : list event) (r : request) : fetch_outcome :=
  let n := length (mistral_requests h) in
  if ((n <? 2) || (4 <=? n))%nat then plain_world h r else sample_world h r.

(** A signed-in user's first three exchanges in [late_tools_world]. *)
Definition late_exchanges : Session * list event :=
  fold_left (exchange_with late_tools_world)
    ["Hello"; "Thanks"; "Delete my 3pm and tell Bob"]
    (signed_in None, []).

(** The arguments of a [send_email] call that names its copy
    recipient as one address instead of an array. *)
Definition cc_as_text : value :=
  VObj [("to", VStr "bob@example.org");
        ("subject", VStr "Minutes");
        ("body", VStr "See attached.");
        ("cc", VStr "ann@example.org")].

End Server.

(* ================================================================== *)
(** * The tool service: catalog, search and dispatch *)
(* ================================================================== *)

Module Tools.

Record IntegrationFunction : Type := {
  name : string;
  description : string;
  parameters : list (string * string);
  category : string
}.

Definition functions : list IntegrationFunction :=
  [ {| name := "getEmails";
       description := "Get emails from Gmail inbox";
       parameters := [("query", "string?"); ("maxResults", "number?")];
       category := "gmail" |};
    {| name := "sendEmail";
       description := "Send an email via Gmail";
       parameters := [("to", "string"); ("subject", "string"); ("body", "string")];
       category := "gmail" |};
    {| name := "searchEmails";
       description := "Search emails in Gmail";
       parameters := [("query", "string")];
       category := "gmail" |};
    {| name := "getCalendarEvents";
       description := "Get calendar events";
       parameters := [("timeMin", "string?"); ("timeMax", "string?")];
       category := "calendar" |};
    {| name := "getTodayEvents";
       description := "Get today's calendar events";
       parameters := [];
       category := "calendar" |};
    {| name := "createCalendarEvent";
       description := "Create a new calendar event";
       parameters := [("summary", "string"); ("start", "string"); ("end", "string");
                      ("description", "string?"); ("location", "string?")];
       category := "calendar" |};
    {| name := "updateCalendarEvent";
       description := "Update an existing calendar event";
       parameters := [("eventId", "string"); ("updates", "object")];
       category := "calendar" |};
    {| name := "deleteCalendarEvent";
       description := "Delete a calendar event";
       parameters := [("eventId", "string")];
       category := "calendar" |} ].

(** ** Strings

    Strings are byte strings; [toLowerCase] folds the letters A to Z,
    which is what it does on the ASCII text of the catalog. *)
Definition lower_char (c : ascii) : ascii :=
  let n := nat_of_ascii c in
  if ((65 <=? n) && (n <=? 90))%nat then ascii_of_nat (n + 32) else c.

Fixpoint toLowerCase (s : string) : string :=
  match s with
  | EmptyString => EmptyString
  | String c r => String (lower_char c) (toLowerCase r)
  end.

(** [s.startsWith(sub)] *)
Fixpoint startsWith (s sub : string) {struct sub} : bool :=
  match sub, s with
  | EmptyString, _ => true
  | String _ _, EmptyString => false
  | String a sub', String b s' => Ascii.eqb a b && startsWith s' sub'
  end.

(** [s.includes(sub)] *)
Fixpoint includes (s sub : string) : bool :=
  startsWith s sub
  || match s with
     | EmptyString => false
     | String _ s' => includes s' sub
     end.

(** ** searchIntegrationFunction *)

Definition searchIntegrationFunction (query : string) : list IntegrationFunction :=
  let queryLower := toLowerCase query in
  filter (fun fn =>
            includes (toLowerCase (name fn)) queryLower
            || includes (toLowerCase (description fn)) queryLower
            || includes (toLowerCase (category fn)) queryLower)
         functions.

(** The registry's search, in the words of the specification: [sub]
    occurs in [s] when [s] is some text, then [sub], then some text;
    a descriptor matches when the query occurs, letter case apart, in
    its name, its description or its category. *)
Definition occurs_in (sub s : string) : Prop :=
  exists before after, s = before ++ sub ++ after.

Definition matches (query : string) (fn : IntegrationFunction) : Prop :=
  occurs_in (toLowerCase query) (toLowerCase (name fn))
  \/ occurs_in (toLowerCase query) (toLowerCase (description fn))
  \/ occurs_in (toLowerCase query) (toLowerCase (category fn)).

(** ** callIntegrationFunction

    [gmailService] and [calendarService] are this class's two
    collaborators: each call of one of their methods is recorded with
    its arguments and answered by the world, with a value or with a
    thrown error. *)
Inductive method : Type :=
| gmail_getEmails | gmail_sendEmail | gmail_searchEmails
| calendar_getEvents | calendar_getTodayEvents | calendar_createEvent
| calendar_updateEvent | calendar_deleteEvent.

Definition method_eqb (a b : method) : bool :=
  match a, b with
  | gmail_getEmails, gmail_getEmails
  | gmail_sendEmail, gmail_sendEmail
  | gmail_searchEmails, gmail_searchEmails
  | calendar_getEvents, calendar_getEvents
  | calendar_getTodayEvents, calendar_getTodayEvents
  | calendar_createEvent, calendar_createEvent
  | calendar_updateEvent, calendar_updateEvent
  | calendar_deleteEvent, calendar_deleteEvent => true
  | _, _ => false
  end.

Record invocation : Type := Invocation {
  inv_method : method;
  inv_args : list value;
  inv_outcome : res value
}.

(** Number of invocations of [m] recorded. *)
Definition invoked (m : method) (t : list invocation) : nat :=
  length (filter (fun i => method_eqb m (inv_method i)) t).

Section Collaborators.

Variable User : Type.
Variable world : list invocation -> User -> method -> list value -> res value.

Definition invoke (m : method) (u : User) (args : list value)
  : M (list invocation) value :=
  fun t =>
    let o := world t u m args in
    (o, (t ++ [Invocation m args o])%list).

Definition name_is (n : value) (s : string) : bool :=
  match n with
  | VStr x => x =? s
  | _ => false
  end.

(** [this.functions.find(f => f.name === name)] *)
Definition find_function (n : value) : option IntegrationFunction :=
  find (fun f => name_is n (name f)) functions.

(** [!ps.a || !ps.b || ...], the properties read from left to right
    up to the first falsy one. *)
Fixpoint any_missing (ps : value) (keys : list string)
  : M (list invocation) bool :=
  match keys with
  | [] => ret false
  | k :: rest =>
      v <- get_prop ps k ;;
      if negb (truthy v) then ret true else any_missing ps rest
  end.

(** [if (!ps.a || !ps.b || ...) throw new Error(msg)] *)
Definition require_all (ps : value) (keys : list string) (msg : string)
  : M (list invocation) unit :=
  missing <- any_missing ps keys ;;
  throw_if missing (Error msg).

Definition callIntegrationFunction (nm : value) (ps : value) (u : User)
  : M (list invocation) value :=
  match find_function nm with
  | None => throw (Error ("Function " ++ to_js_string nm ++ " not found"))
  | Some fn =>
      if name_is nm "getEmails" then
        query <- get_prop ps "query" ;;
        maxResults <- get_prop ps "maxResults" ;;
        invoke gmail_getEmails u [query; maxResults]
      else if name_is nm "sendEmail" then
        require_all ps ["to"; "subject"; "body"]
          "Missing required parameters: to, subject, body" ;;;
        to <- get_prop ps "to" ;;
        subject <- get_prop ps "subject" ;;
        body <- get_prop ps "body" ;;
        invoke gmail_sendEmail u [to; subject; body]
      else if name_is nm "searchEmails" then
        require_all ps ["query"] "Missing required parameter: query" ;;;
        query <- get_prop ps "query" ;;
        invoke gmail_searchEmails u [query]
      else if name_is nm "getCalendarEvents" then
        timeMin <- get_prop ps "timeMin" ;;
        timeMax <- get_prop ps "timeMax" ;;
        invoke calendar_getEvents u [timeMin; timeMax]
      else if name_is nm "getTodayEvents" then
        invoke calendar_getTodayEvents u []
      else if name_is nm "createCalendarEvent" then
        require_all ps ["summary"; "start"; "end"]
          "Missing required parameters: summary, start, end" ;;;
        summary <- get_prop ps "summary" ;;
        start <- get_prop ps "start" ;;
        end_ <- get_prop ps "end" ;;
        description <- get_prop ps "description" ;;
        location <- get_prop ps "location" ;;
        invoke calendar_createEvent u [summary; start; end_; description; location]
      else if name_is nm "updateCalendarEvent" then
        require_all ps ["eventId"; "updates"]
          "Missing required parameters: eventId, updates" ;;;
        eventId <- get_prop ps "eventId" ;;
        updates <- get_prop ps "updates" ;;
        invoke calendar_updateEvent u [eventId; updates]
      else if name_is nm "deleteCalendarEvent" then
        require_all ps ["eventId"] "Missing required parameter: eventId" ;;;
        eventId <- get_prop ps "eventId" ;;
        invoke calendar_deleteEvent u [eventId] ;;;
        ret (VObj [("success", VBool true)])
      else
        throw (Error ("Function " ++ to_js_string nm ++ " not implemented"))
  end.

End Collaborators.

(** ** Vocabulary of the statements *)

(** A parameter is optional when its type text in the catalog carries a
    question mark. *)
Definition optional (ty : string) : bool := includes ty "?".

(** The parameters a descriptor marks required. *)
Definition required_of (fn : IntegrationFunction) : list string :=
  map fst (filter (fun p => negb (optional (snd p))) (parameters fn)).

(** The text of the error thrown for missing parameters. *)
Definition missing_message (keys : list string) : string :=
  match keys with
  | [_] => "Missing required parameter: "
  | _ => "Missing required parameters: "
  end ++ String.concat ", " keys.

(** [c] leaves the record of invocations as it is. *)
Definition quiet {A} (c : M (list invocation) A) : Prop :=
  forall t, snd (c t) = t.

(** [c] adds at most one invocation to the record. *)
Definition at_most_once {A} (c : M (list invocation) A) : Prop :=
  forall t, exists new, snd (c t) = (t ++ new)%list /\ (length new <= 1)%nat.

(** ** Sample world

    Gmail accepts every message; the parameters of a complete
    [sendEmail] call. *)
Definition accepting_world (_ : list invocation) (_ : unit) (_ : method)
    (_ : list value) : res value :=
  Ok (VObj [("id", VStr "m1")]).

Definition mail_parameters : value :=
  VObj [("to", VStr "bob@example.org");
        ("subject", VStr "Minutes");
        ("body", VStr "See attached.")].

(** The catalog's descriptor of [sendEmail] and the parameters of a
    [deleteCalendarEvent] call. *)
Definition sendEmail_descriptor : IntegrationFunction :=
  {| name := "sendEmail";
     description := "Send an email via Gmail";
     parameters := [("to", "string"); ("subject", "string"); ("body", "string")];
     category := "gmail" |}.

Definition delete_parameters : value := VObj [("eventId", VStr "evt123")].

End Tools.

(* ================================================================== *)
(** * server/services/mistral.ts: the assistant over the tool service *)
(* ================================================================== *)

Module Assistant.
Import Tools.

(** [Message] of the shared schema, with the two fields the service
    reads; both are text. *)
Record Message : Type := { role : string; content : string }.

Record ToolCall : Type := { tc_name : value; tc_parameters : value }.

Record ChatResponse : Type := {
  cr_content : value;
  cr_toolCalls : option (list ToolCall)
}.

(** What one call of [getChatResponse] works on: the histories sent to
    the provider, the invocations of the tool service's collaborators,
    and the two locals of the tool loop. *)
Record store : Type := Store {
  asked : list (list Message);
  invoked : list invocation;
  toolCalls : list ToolCall;
  finalResponse : string
}.

(** ** getFallbackResponse

    The keywords are lower-case ASCII; no letter outside A to Z lowers
    to text that completes one of them, so folding A to Z finds them
    exactly where [toLowerCase] does. *)
Definition calendar_help : string :=
  "I can help you with calendar operations like viewing events, creating meetings, and managing your schedule. However, I need a valid Mistral API key to provide intelligent responses. Please configure MISTRAL_API_KEY in your environment.".

Definition email_help : string :=
  "I can assist with Gmail operations including reading, sending, and organizing emails. However, I need a valid Mistral API key to provide intelligent responses. Please configure MISTRAL_API_KEY in your environment.".

Definition hello : string :=
  "Hello! I'm Jarvis, your AI assistant. I can help you manage Gmail and Google Calendar, but I need a valid Mistral API key to provide intelligent responses. Please configure MISTRAL_API_KEY in your environment.".

Definition getFallbackResponse (userMessage : string) : ChatResponse :=
  let message := toLowerCase userMessage in
  if includes message "calendar" || includes message "event" then
    {| cr_content := VStr calendar_help; cr_toolCalls := None |}
  else if includes message "email" || includes message "gmail" then
    {| cr_content := VStr email_help; cr_toolCalls := None |}
  else
    {| cr_content := VStr hello; cr_toolCalls := None |}.

(** [messages[messages.length - 1]?.content || ""] *)
Definition last_content (messages : list Message) : string :=
  last (map content messages) "".

(** ** formatToolResult and its two listings *)

(** [v.length] *)
Definition length_of (v : value) : value :=
  match v with
  | VArr l => VNum (Z.of_nat (length l))
  | VStr s => VNum (Z.of_nat (String.length s))
  | VObj _ => prop_of v "length"
  | _ => VUndef
  end.

(** [v === 0] *)
Definition is_zero (v : value) : bool :=
  match v with
  | VNum n => (n =? 0)%Z
  | _ => false
  end.

(** [v.includes(s)]: text inclusion on a string, membership in an
    array; no other value has the method. *)
Definition js_includes {St} (v : value) (s : string) : M St bool :=
  match v with
  | VUndef =>
      throw (TypeError "Cannot read properties of undefined (reading 'includes')")
  | VNull =>
      throw (TypeError "Cannot read properties of null (reading 'includes')")
  | VStr x => ret (includes x s)
  | VArr l => ret (existsb (fun e => name_is e s) l)
  | _ => throw (TypeError "toolName.includes is not a function")
  end.

(** [l.forEach((x, index) => { response += f(index, x) })] *)
Fixpoint each_from {St} (f : nat -> value -> M St string) (index : nat)
    (l : list value) : M St string :=
  match l with
  | [] => ret ""
  | x :: r =>
      a <- f index x ;;
      b <- each_from f (S index) r ;;
      ret (a ++ b)
  end.

Definition numbered (index : nat) : string :=
  string_of_Z (Z.of_nat index + 1) ++ ". **".

Section Listings.

Variable St : Type.
(** [new Date(v).toLocaleString()] *)
Variable toLocaleString : value -> string.

Definition event_lines (index : nat) (event : value) : M St string :=
  summary <- get_prop event "summary" ;;
  start <- get_prop event "start" ;;
  dateTime <- opt_prop start "dateTime" ;;
  location <- get_prop event "location" ;;
  ret (numbered index
       ++ to_js_string (js_or summary (VStr "Untitled Event")) ++ "**"
       ++ Server.newline
       ++ (if truthy dateTime
           then "   Time: " ++ toLocaleString dateTime ++ Server.newline
           else "")
       ++ (if truthy location
           then "   Location: " ++ to_js_string location ++ Server.newline
           else "")
       ++ Server.newline).

Definition formatCalendarEvents (events : list value) : M St string :=
  match events with
  | [] => ret "No calendar events found."
  | _ :: _ =>
      listed <- each_from event_lines 0 events ;;
      ret ("I found " ++ string_of_Z (Z.of_nat (length events))
           ++ " calendar event(s):" ++ Server.newline ++ Server.newline
           ++ listed)
  end.

Definition email_lines (index : nat) (email : value) : M St string :=
  subject <- get_prop email "subject" ;;
  from <- get_prop email "from" ;;
  snippet <- get_prop email "snippet" ;;
  ret (numbered index
       ++ to_js_string (js_or subject (VStr "No Subject")) ++ "**"
       ++ Server.newline
       ++ "   From: " ++ to_js_string (js_or from (VStr "Unknown"))
       ++ Server.newline
       ++ (if truthy snippet
           then "   Preview: " ++ to_js_string snippet ++ Server.newline
           else "")
       ++ Server.newline).

Definition formatEmails (emails : list value) : M St string :=
  match emails with
  | [] => ret "No emails found."
  | _ :: _ =>
      listed <- each_from email_lines 0 emails ;;
      ret ("I found " ++ string_of_Z (Z.of_nat (length emails))
           ++ " email(s):" ++ Server.newline ++ Server.newline
           ++ listed)
  end.

Definition formatToolResult (toolName result : value) : M St string :=
  if name_is toolName "searchIntegrationFunction" then
    if negb (truthy result) || is_zero (length_of result)
    then ret "I found no relevant functions for your request."
    else ret ("I found " ++ to_js_string (length_of result)
              ++ " relevant function(s) for your request.")
  else
    calendar <- js_includes toolName "calendar" ;;
    if calendar then
      match result with
      | VArr events => formatCalendarEvents events
      | _ => ret "Calendar operation completed successfully."
      end
    else
      email <- js_includes toolName "email" ;;
      mail <- (if email then ret true else js_includes toolName "gmail") ;;
      if mail then
        match result with
        | VArr emails => formatEmails emails
        | _ => ret "Email operation completed successfully."
        end
      else ret "Operation completed successfully.".

End Listings.

(** ** getChatResponse *)

(** A descriptor as a value, the way the search hands it back. *)
Definition descriptor_value (fn : IntegrationFunction) : value :=
  VObj [("name", VStr (name fn));
        ("description", VStr (description fn));
        ("parameters", VObj (map (fun p => (fst p, VStr (snd p))) (parameters fn)));
        ("category", VStr (category fn))].

(** [for (const x of l) { f x }] *)
Fixpoint for_each {St A} (f : A -> M St unit) (l : list A) : M St unit :=
  match l with
  | [] => ret tt
  | x :: r => f x ;;; for_each f r
  end.

(** What [for ... of] goes through: the elements of an array, the
    characters of a string; nothing else here is iterable. *)
Definition iterate {St} (v : value) : M St (list value) :=
  match v with
  | VArr l => ret l
  | VStr s => ret (map (fun c => VStr (String c EmptyString)) (list_ascii_of_string s))
  | _ => throw (TypeError "choice.message.tool_calls is not iterable")
  end.

(** [const { name, arguments: args } = f] *)
Definition name_and_arguments {St} (f : value) : M St (value * value) :=
  match f with
  | VUndef =>
      throw (TypeError "Cannot destructure property 'name' of 'toolCall.function' as it is undefined.")
  | VNull =>
      throw (TypeError "Cannot destructure property 'name' of 'toolCall.function' as it is null.")
  | _ => ret (prop_of f "name", prop_of f "arguments")
  end.

Definition error_text (name : value) (e : exn) : string :=
  "Error executing " ++ to_js_string name ++ ": " ++ exn_message e.

Section Service.

(** [process.env.MISTRAL_API_KEY || ""], read when the service is
    built. *)
Variable apiKey : string.
Variable JSON_parse : string -> option value.
Variable toLocaleString : value -> string.
(** The tool service: the catalog of [Tools] over its collaborators. *)
Variable User : Type.
Variable world : list invocation -> User -> method -> list value -> res value.
(** The provider's answer to a history. *)
Variable llm : list Message -> Server.fetch_outcome.

(** [fetch(baseUrl + "/chat/completions", ...)]: the system prompt, the
    two tool descriptions and [tool_choice] are the same in every
    request, the history is what varies. *)
Definition fetch_chat (messages : list Message) : M store Server.response :=
  fun s =>
    let s' := Store (asked s ++ [messages]) (invoked s) (toolCalls s)
                (finalResponse s) in
    match llm messages with
    | Server.Rejected m => (Throw (FetchError m), s')
    | Server.Responded r => (Ok r, s')
    end.

(** [await response.json()] *)
Definition response_json (r : Server.response) : M store value :=
  match Server.json r with
  | Some v => ret v
  | None => throw (SyntaxError "Unexpected token in JSON")
  end.

(** [JSON.parse(args)] *)
Definition parse (args : value) : M store value :=
  match JSON_parse (to_js_string args) with
  | Some v => ret v
  | None => throw (SyntaxError "Unexpected token in JSON")
  end.

(** A method of the tool service, run on the record of invocations. *)
Definition on_tools {A} (c : M (list invocation) A) : M store A :=
  fun s =>
    let (r, t) := c (invoked s) in
    (r, Store (asked s) t (toolCalls s) (finalResponse s)).

(** [toolService.searchIntegrationFunction(query)]: [query.toLowerCase]
    exists on strings only. *)
Definition toolService_search (query : value) : M store value :=
  match query with
  | VStr q => ret (VArr (map descriptor_value (searchIntegrationFunction q)))
  | VUndef =>
      throw (TypeError "Cannot read properties of undefined (reading 'toLowerCase')")
  | VNull =>
      throw (TypeError "Cannot read properties of null (reading 'toLowerCase')")
  | _ => throw (TypeError "query.toLowerCase is not a function")
  end.

(** [toolCalls.push(c)] and [finalResponse += text] *)
Definition push_call (c : ToolCall) : M store unit :=
  modify (fun s => Store (asked s) (invoked s) (toolCalls s ++ [c])
                     (finalResponse s)).

Definition add_text (text : string) : M store unit :=
  modify (fun s => Store (asked s) (invoked s) (toolCalls s)
                     (finalResponse s ++ text)).

(** The [try] statement of the loop's body. *)
Definition attempt (user : User) (name parameters : value) : M store unit :=
  try_catch
    (result <-
       (if name_is name "searchIntegrationFunction" then
          query <- get_prop parameters "query" ;;
          toolService_search query
        else if name_is name "callIntegrationFunction" then
          n <- get_prop parameters "name" ;;
          p <- get_prop parameters "parameters" ;;
          on_tools (callIntegrationFunction User world n p user)
        else ret VUndef) ;;
     push_call {| tc_name := name; tc_parameters := parameters |} ;;;
     text <- formatToolResult store toLocaleString name result ;;
     add_text text)
    (fun error => add_text (error_text name error)).

(** The body of the loop over the tool calls. *)
Definition run_tool_call (user : User) (toolCall : value) : M store unit :=
  f <- get_prop toolCall "function" ;;
  na <- name_and_arguments f ;;
  parameters <- parse (snd na) ;;
  attempt user (fst na) parameters.

(** [getChatResponse] once the response is there: the tool loop, or
    the model's text. *)
Definition read_reply (user : User) (response : Server.response)
  : M store ChatResponse :=
  throw_if (negb (Server.ok response))
    (Error ("Mistral API error: " ++ string_of_Z (Server.status response))) ;;;
  data <- response_json response ;;
  choices <- get_prop data "choices" ;;
  choice <- get_index0 choices ;;
  message <- get_prop choice "message" ;;
  tool_calls <- get_prop message "tool_calls" ;;
  if truthy tool_calls then
    modify (fun s => Store (asked s) (invoked s) [] "") ;;;
    items <- iterate tool_calls ;;
    for_each (run_tool_call user) items ;;;
    calls <- gets toolCalls ;;
    text <- gets finalResponse ;;
    ret {| cr_content :=
             js_or (VStr text) (VStr "I've executed the requested operations.");
           cr_toolCalls := Some calls |}
  else
    c <- get_prop message "content" ;;
    ret {| cr_content :=
             js_or c (VStr "I'm here to help with your Gmail and Calendar needs.");
           cr_toolCalls := None |}.

Definition getChatResponse (messages : list Message) (user : User)
  : M store ChatResponse :=
  if apiKey =? "" then ret (getFallbackResponse (last_content messages))
  else
    try_catch
      (response <- fetch_chat messages ;;
       read_reply user response)
      (fun _ => ret (getFallbackResponse (last_content messages))).

End Service.

(** ** Vocabulary of the statements *)

(** The word occurs in the text, letter case apart. *)
Definition mentions (word text : string) : Prop :=
  occurs_in word (toLowerCase text).

(** The response is a success whose first choice carries the tool
    calls [calls]. *)
Definition offers (r : Server.response) (calls : list value) : Prop :=
  Server.ok r = true
  /\ exists data choice rest,
       Server.json r = Some data
       /\ prop_of data "choices" = VArr (choice :: rest)
       /\ prop_of (prop_of choice "message") "tool_calls" = VArr calls.

(** The tool call names [name] and its arguments are the JSON text of
    [parameters]. *)
Definition asks_for (JSON_parse : string -> option value)
    (toolCall name parameters : value) : Prop :=
  nullish (prop_of toolCall "function") = false
  /\ prop_of (prop_of toolCall "function") "name" = name
  /\ JSON_parse (to_js_string (prop_of (prop_of toolCall "function") "arguments"))
     = Some parameters.

(** The sentence [formatToolResult] has for a name that is neither of
    the two tools. *)
Definition completed (n : string) : string :=
  if includes n "calendar" then "Calendar operation completed successfully."
  else if includes n "email" || includes n "gmail"
       then "Email operation completed successfully."
  else "Operation completed successfully.".

(** The sentence [formatToolResult] has for a search that found [l]. *)
Definition found (l : list IntegrationFunction) : string :=
  match l with
  | [] => "I found no relevant functions for your request."
  | _ :: _ =>
      "I found " ++ string_of_Z (Z.of_nat (length l))
      ++ " relevant function(s) for your request."
  end.

(** [c] leaves the store as it is. *)
Definition inert {St A} (c : M St A) : Prop := forall s, snd (c s) = s.

(** [c] sends nothing to the provider. *)
Definition keeps_asked {A} (c : M store A) : Prop :=
  forall s, asked (snd (c s)) = asked s.

(** ** Sample world

    The model asks to send a message and then for a call whose
    arguments are not JSON; Gmail accepts every message. *)
Definition send_request : value :=
  VObj [("name", VStr "sendEmail"); ("parameters", mail_parameters)].

Definition search_request : value := VObj [("query", VStr "zzz")].

Definition sample_parse (s : string) : option value :=
  find (fun v => stringify_inner v =? s) [send_request; search_request; VObj []].

Definition good_call : value :=
  Server.call_of "call_1" "callIntegrationFunction" send_request.

Definition bad_call : value :=
  VObj [("id", VStr "call_2");
        ("type", VStr "function");
        ("function", VObj [("name", VStr "callIntegrationFunction");
                           ("arguments", VStr "{name: sendEmail")])].

Definition search_call : value :=
  Server.call_of "call_3" "searchIntegrationFunction" search_request.

Definition stray_call : value :=
  Server.call_of "call_4" "get_calendar_events" (VObj []).

Definition reply_with (calls : list value) : Server.response :=
  Server.response_of 200
    (Some (Server.completion
             (VObj [("content", VNull); ("tool_calls", VArr calls)]))).

Definition sample_llm (_ : list Message) : Server.fetch_outcome :=
  Server.Responded (reply_with [good_call; bad_call]).

Definition obliging_llm (_ : list Message) : Server.fetch_outcome :=
  Server.Responded (reply_with [good_call; search_call; stray_call]).

Definition no_date (_ : value) : string := "Invalid Date".

Definition fresh : store := Store [] [] [] "".

Definition question : list Message :=
  [ {| role := "user"; content := "Send the minutes to Bob" |} ].

End Assistant.

(* ================================================================== *)
(** * server/services/calendar.ts, with the token refresh of
      server/services/google-auth.ts *)
(* ================================================================== *)

Module Calendar.

(** [User] of the shared schema, with the three fields the service
    reads; [tokenExpiry] is a date, in milliseconds, or [null]. *)
Record User : Type := {
  accessToken : value;
  refreshToken : value;
  tokenExpiry : option Z
}.

(** The requests of the two files, by what they ask for.  [bearer] is
    the text after [Bearer] in the [Authorization] header, [body] what
    [JSON.stringify] made of the payload. *)
Inductive request : Type :=
| TokenRefresh (refresh_token : string)
| ListEvents (bearer : string) (timeMin timeMax : option string)
| InsertEvent (bearer : string) (body : value)
| PutEvent (bearer : string) (eventId : string) (body : value)
| DeleteEvent (bearer : string) (eventId : string).

(** What happened so far: each request with its outcome. *)
Definition store : Type := list (request * Server.fetch_outcome).

Section World.

Variable env : store -> request -> Server.fetch_outcome.
(** [new Date()] in [getValidAccessToken], in milliseconds. *)
Variable now : Z.
(** The two midnights [getTodayEvents] computes from [new Date()]. *)
Variable midnight_iso : string.
Variable next_midnight_iso : string.

Definition fetch (r : request) : M store Server.response :=
  fun t =>
    let o := env t r in
    let t' := (t ++ [(r, o)])%list in
    match o with
    | Server.Rejected m => (Throw (FetchError m), t')
    | Server.Responded resp => (Ok resp, t')
    end.

(** [await response.json()] *)
Definition response_json (r : Server.response) : M store value :=
  match Server.json r with
  | Some v => ret v
  | None => throw (SyntaxError "Unexpected token in JSON")
  end.

(** [googleAuthService.refreshToken] *)
Definition googleAuth_refreshToken (refresh : value) : M store value :=
  response <- fetch (TokenRefresh (to_js_string refresh)) ;;
  throw_if (negb (Server.ok response)) (Error "Failed to refresh token") ;;;
  response_json response.

(** [user.tokenExpiry && new Date() > user.tokenExpiry] *)
Definition expired (user : User) : bool :=
  match tokenExpiry user with
  | Some expiry => (expiry <? now)%Z
  | None => false
  end.

Definition getValidAccessToken (user : User) : M store value :=
  if negb (truthy (accessToken user)) then
    throw (Error "No access token available")
  else if expired user then
    if negb (truthy (refreshToken user)) then
      throw (Error "Access token expired and no refresh token available")
    else
      tokens <- googleAuth_refreshToken (refreshToken user) ;;
      get_prop tokens "access_token"
  else ret (accessToken user).

(** [if (v) params.append(key, v)] *)
Definition appended (v : value) : option string :=
  if truthy v then Some (to_js_string v) else None.

Definition getEvents (user : User) (timeMin timeMax : value) : M store value :=
  accessToken <- getValidAccessToken user ;;
  response <- fetch (ListEvents (to_js_string accessToken)
                       (appended timeMin) (appended timeMax)) ;;
  throw_if (negb (Server.ok response)) (Error "Failed to fetch calendar events") ;;;
  data <- response_json response ;;
  items <- get_prop data "items" ;;
  ret (js_or items (VArr [])).

Definition createEvent (user : User) (summary start end_ description location : value)
  : M store value :=
  accessToken <- getValidAccessToken user ;;
  let event :=
    VObj [("summary", summary);
          ("description", description);
          ("location", location);
          ("start", VObj [("dateTime", start); ("timeZone", VStr "UTC")]);
          ("end", VObj [("dateTime", end_); ("timeZone", VStr "UTC")])] in
  response <- fetch (InsertEvent (to_js_string accessToken) (JSON_stringify event)) ;;
  throw_if (negb (Server.ok response)) (Error "Failed to create calendar event") ;;;
  response_json response.

Definition updateEvent (user : User) (eventId updates : value) : M store value :=
  accessToken <- getValidAccessToken user ;;
  response <- fetch (PutEvent (to_js_string accessToken) (to_js_string eventId)
                       (JSON_stringify updates)) ;;
  throw_if (negb (Server.ok response)) (Error "Failed to update calendar event") ;;;
  response_json response.

Definition deleteEvent (user : User) (eventId : value) : M store value :=
  accessToken <- getValidAccessToken user ;;
  response <- fetch (DeleteEvent (to_js_string accessToken) (to_js_string eventId)) ;;
  throw_if (negb (Server.ok response)) (Error "Failed to delete calendar event") ;;;
  ret VUndef.

Definition getTodayEvents (user : User) : M store value :=
  getEvents user (VStr midnight_iso) (VStr next_midnight_iso).

(** ** Vocabulary of the statements *)

(** A call of one of the five public methods, with its arguments. *)
Inductive operation : Type :=
| GetEvents (timeMin timeMax : value)
| CreateEvent (summary start end_ description location : value)
| UpdateEvent (eventId updates : value)
| DeleteCalendarEvent (eventId : value)
| GetTodayEvents.

Definition perform (op : operation) (user : User) : M store value :=
  match op with
  | GetEvents timeMin timeMax => getEvents user timeMin timeMax
  | CreateEvent summary start end_ description location =>
      createEvent user summary start end_ description location
  | UpdateEvent eventId updates => updateEvent user eventId updates
  | DeleteCalendarEvent eventId => deleteEvent user eventId
  | GetTodayEvents => getTodayEvents user
  end.

End World.

(** The token a request to the calendar bears; the refresh bears
    none. *)
Definition bearer_of (r : request) : option string :=
  match r with
  | TokenRefresh _ => None
  | ListEvents b _ _ | InsertEvent b _ | PutEvent b _ _ | DeleteEvent b _ => Some b
  end.

(** ** Sample world

    The token endpoint answers with an object that holds no access
    token; the calendar accepts everything. *)
Definition stale_user : User :=
  {| accessToken := VStr "ya29.old"; refreshToken := VStr "1//refresh";
     tokenExpiry := Some 1000%Z |}.

Definition fresh_user : User :=
  {| accessToken := VStr "ya29.new"; refreshToken := VNull;
     tokenExpiry := None |}.

Definition signed_out : User :=
  {| accessToken := VNull; refreshToken := VNull; tokenExpiry := None |}.

Definition refused : Server.response :=
  Server.response_of 400 (Some (VObj [("error", VStr "invalid_grant")])).

Definition sample_env (_ : store) (r : request) : Server.fetch_outcome :=
  match r with
  | TokenRefresh _ =>
      Server.Responded
        (Server.response_of 200 (Some (VObj [("expires_in", VNum 3599)])))
  | _ => Server.Responded (Server.response_of 200 (Some (VObj [])))
  end.

Definition refusing_env (_ : store) (_ : request) : Server.fetch_outcome :=
  Server.Responded refused.

End Calendar.

(* ================================================================== *)
(** * server/index.ts: the token middleware and the OAuth callback *)
(* ================================================================== *)

Module Auth.

(** The requests of [GoogleAuth] and of the middleware.  [bearer] is
    the text after [Bearer] in the [Authorization] header. *)
Inductive request : Type :=
| TokenInfo (bearer : string)
| ExchangeCode (code : string)
| UserInfo (bearer : string)
| RefreshToken (refresh_token : string).

(** What happened so far: each request with its outcome. *)
Definition store : Type := list (request * Server.fetch_outcome).

(** How the middleware ends: [next()], with the session as it then is,
    or the 401 [Authentication required]. *)
Inductive verdict : Type :=
| Next (session : Server.Session)
| AuthenticationRequired.

(** Where the callback redirects: [/chat] or [/?error=auth_failed]. *)
Inductive redirect : Type := to_chat | to_error.

Section World.

Variable env : store -> request -> Server.fetch_outcome.

Definition fetch (r : request) : M store Server.response :=
  fun t =>
    let o := env t r in
    let t' := (t ++ [(r, o)])%list in
    match o with
    | Server.Rejected m => (Throw (FetchError m), t')
    | Server.Responded resp => (Ok resp, t')
    end.

(** [response.json()] *)
Definition response_json (r : Server.response) : M store value :=
  match Server.json r with
  | Some v => ret v
  | None => throw (SyntaxError "Unexpected token in JSON")
  end.

(** *** GoogleAuth

    The three methods hand back [response.json()] whatever the
    status. *)
Definition exchangeCodeForTokens (code : string) : M store value :=
  response <- fetch (ExchangeCode code) ;;
  response_json response.

Definition getUserInfo (accessToken : value) : M store value :=
  response <- fetch (UserInfo (to_js_string accessToken)) ;;
  response_json response.

Definition refreshAccessToken (refreshToken : value) : M store value :=
  response <- fetch (RefreshToken (to_js_string refreshToken)) ;;
  response_json response.

(** *** The token refresh middleware *)
Definition middleware (session : Server.Session) : M store verdict :=
  match Server.session_user session with
  | Some user =>
      if truthy (Server.refreshToken user) && truthy (Server.accessToken user)
      then
        try_catch
          (fetch (TokenInfo (to_js_string (Server.accessToken user))) ;;;
           ret (Next session))
          (fun _ =>
             try_catch
               (tokens <- refreshAccessToken (Server.refreshToken user) ;;
                access_token <- get_prop tokens "access_token" ;;
                refresh_token <- get_prop tokens "refresh_token" ;;
                ret (Next
                       {| Server.session_user :=
                            Some {| Server.accessToken := access_token;
                                    Server.refreshToken :=
                                      if truthy refresh_token then refresh_token
                                      else Server.refreshToken user |};
                          Server.session_messages :=
                            Server.session_messages session |}))
               (fun _ => ret AuthenticationRequired))
      else ret (Next session)
  | None => ret (Next session)
  end.

(** *** GET /api/auth/callback

    [code] is [req.query.code]; of the user object stored in the
    session the two tokens are kept here, [id], [email] and [name] are
    read and left out. *)
Definition callback (code : value) (session : Server.Session)
  : M store (redirect * Server.Session) :=
  try_catch
    (c <- match code with
          | VStr c => ret c
          | _ => throw (Error "Invalid code")
          end ;;
     tokens <- exchangeCodeForTokens c ;;
     access_token <- get_prop tokens "access_token" ;;
     userInfo <- getUserInfo access_token ;;
     _id <- get_prop userInfo "id" ;;
     _email <- get_prop userInfo "email" ;;
     _name <- get_prop userInfo "name" ;;
     refresh_token <- get_prop tokens "refresh_token" ;;
     ret (to_chat,
          {| Server.session_user :=
               Some {| Server.accessToken := access_token;
                       Server.refreshToken := refresh_token |};
             Server.session_messages := Server.session_messages session |}))
    (fun _ => ret (to_error, session)).

End World.

(** ** Vocabulary of the statements *)

(** The session's user holds both tokens. *)
Definition has_both_tokens (session : Server.Session) : bool :=
  match Server.session_user session with
  | Some user =>
      truthy (Server.refreshToken user) && truthy (Server.accessToken user)
  | None => false
  end.

(** ** Sample world

    Google refuses everything with a 400 and an error object; the
    token check cannot be reached. *)
Definition invalid_grant : Server.response :=
  Server.response_of 400 (Some (VObj [("error", VStr "invalid_grant")])).

Definition refusing_env (_ : store) (r : request) : Server.fetch_outcome :=
  match r with
  | TokenInfo _ => Server.Rejected "ECONNRESET"
  | _ => Server.Responded invalid_grant
  end.

(** Google answers the token check with a 401. *)
Definition expired_env (_ : store) (_ : request) : Server.fetch_outcome :=
  Server.Responded
    (Server.response_of 401 (Some (VObj [("error", VStr "invalid_token")]))).

Definition both_tokens : Server.Session :=
  {| Server.session_user :=
       Some {| Server.accessToken := VStr "ya29.old";
               Server.refreshToken := VStr "1//refresh" |};
     Server.session_messages := None |}.

Definition nobody : Server.Session :=
  {| Server.session_user := None; Server.session_messages := None |}.

End Auth.

(* ================================================================== *)
(** * Facts about property reads *)
(* ================================================================== *)

Module EffFacts.

Lemma get_prop_ok {S} (v : value) (k : string) (s : S) :
  nullish v = false -> get_prop v k s = (Ok (prop_of v k), s).
Proof. destruct v; simpl; intros H; try discriminate; reflexivity. Qed.

Lemma get_prop_nullish {S} (v : value) (k : string) (s : S) :
  nullish v = true -> exists m, get_prop v k s = (Throw (TypeError m), s).
Proof. destruct v; simpl; intros H; try discriminate; eexists; reflexivity. Qed.

(** A property read leaves the store as it is. *)
Lemma get_prop_store {S} (v : value) (k : string) (s : S) :
  snd (get_prop v k s) = s.
Proof. destruct v; reflexivity. Qed.

Lemma opt_prop_ok {S} (v : value) (k : string) (s : S) :
  opt_prop v k s = (Ok (if nullish v then VUndef else prop_of v k), s).
Proof. destruct v; reflexivity. Qed.

Lemma bind_ok {S A B} (c : M S A) (k : A -> M S B) (s s' : S) (a : A) :
  c s = (Ok a, s') -> bind c k s = k a s'.
Proof. unfold bind. now intros ->. Qed.

Lemma bind_throw {S A B} (c : M S A) (k : A -> M S B) (s s' : S) (e : exn) :
  c s = (Throw e, s') -> bind c k s = (Throw e, s').
Proof. unfold bind. now intros ->. Qed.

End EffFacts.


(* ================================================================== *)
(** * Facts about the server *)
(* ================================================================== *)

Module ServerFacts.
Import Server.
Local Open Scope list_scope.

(** ** Which events a computation adds *)

Lemma extends_refl (P : event -> bool) (s : store) : extends P s s.
Proof. split; [reflexivity|]. exists []. now rewrite app_nil_r. Qed.

Lemma extends_trans (P : event -> bool) (s1 s2 s3 : store) :
  extends P s1 s2 -> extends P s2 s3 -> extends P s1 s3.
Proof.
  intros [Hm1 [n1 [Ht1 Hp1]]] [Hm2 [n2 [Ht2 Hp2]]]. split; [congruence|].
  exists (n1 ++ n2). split.
  - now rewrite Ht2, Ht1, app_assoc.
  - now rewrite forallb_app, Hp1, Hp2.
Qed.

Section Keeps.

Context {A B : Type} (P : event -> bool).

Lemma keeps_ret (a : A) : keeps P (ret a).
Proof. intros s. apply extends_refl. Qed.

Lemma keeps_throw (e : exn) : keeps P (@throw store A e).
Proof. intros s. apply extends_refl. Qed.

Lemma keeps_bind (c : M store A) (k : A -> M store B) :
  keeps P c -> (forall a, keeps P (k a)) -> keeps P (bind c k).
Proof.
  intros Hc Hk s. unfold bind. specialize (Hc s).
  destruct (c s) as [[a|e] s1]; simpl in *; [|exact Hc].
  eapply extends_trans; [exact Hc | apply Hk].
Qed.

Lemma keeps_try_catch (c : M store A) (h : exn -> M store A) :
  keeps P c -> (forall e, keeps P (h e)) -> keeps P (try_catch c h).
Proof.
  intros Hc Hh s. unfold try_catch. specialize (Hc s).
  destruct (c s) as [[a|e] s1]; simpl in *; [exact Hc|].
  eapply extends_trans; [exact Hc | apply Hh].
Qed.

Lemma keeps_settle (c : M store A) : keeps P c -> keeps P (settle c).
Proof.
  intros Hc s. unfold settle. specialize (Hc s). now destruct (c s).
Qed.

Lemma keeps_unsettle (r : res A) : keeps P (unsettle r).
Proof. destruct r; [apply keeps_ret | apply keeps_throw]. Qed.

Lemma keeps_mapM (f : A -> M store B) (l : list A) :
  (forall a, keeps P (f a)) -> keeps P (mapM f l).
Proof.
  intros Hf. induction l as [|x l IH]; simpl.
  - intros s. apply extends_refl.
  - intros s. unfold bind. pose proof (Hf x s) as Hx.
    destruct (f x s) as [[y|e] s1]; simpl in *; [|exact Hx].
    pose proof (IH s1) as Hl.
    destruct (mapM f l s1) as [[ys|e] s2]; simpl in *;
      eapply extends_trans; eauto.
Qed.

End Keeps.

Lemma keeps_throw_if (P : event -> bool) (b : bool) (e : exn) :
  keeps P (throw_if b e).
Proof. destruct b; [apply keeps_throw | apply keeps_ret]. Qed.

Lemma keeps_get_prop (P : event -> bool) (v : value) (k : string) :
  keeps P (get_prop v k).
Proof. intros s. rewrite EffFacts.get_prop_store. apply extends_refl. Qed.

Lemma keeps_opt_prop (P : event -> bool) (v : value) (k : string) :
  keeps P (opt_prop v k).
Proof. intros s. rewrite EffFacts.opt_prop_ok. apply extends_refl. Qed.

Lemma keeps_get_index0 (P : event -> bool) (v : value) :
  keeps P (get_index0 v).
Proof. intros s. destruct v; apply extends_refl. Qed.

Lemma keeps_js_map (P : event -> bool) (v : value) (k : string)
    (f : value -> M store value) :
  (forall x, keeps P (f x)) -> keeps P (js_map v k f).
Proof.
  intros Hf. destruct v; simpl; try apply keeps_throw.
  apply keeps_bind; [now apply keeps_mapM | intros; apply keeps_ret].
Qed.

Lemma keeps_log (P : event -> bool) (e : event) :
  P e = true -> keeps P (log e).
Proof.
  intros He s. split; [reflexivity|]. exists [e]. simpl. now rewrite He.
Qed.

Lemma keeps_response_json (P : event -> bool) (r : response) :
  keeps P (response_json r).
Proof.
  unfold response_json. destruct (json r); [apply keeps_ret | apply keeps_throw].
Qed.

Lemma keeps_fetch (P : event -> bool) env (r : request) :
  (forall o, P (Fetch r o) = true) -> keeps P (fetch env r).
Proof.
  intros Hr s. unfold fetch.
  assert (He : extends P s
                 (Store (trace s ++ [Fetch r (env (trace s) r)]) (messages s))).
  { split; [reflexivity|]. eexists. split; [reflexivity|]. simpl. now rewrite Hr. }
  now destruct (env (trace s) r).
Qed.

Ltac keeps_auto :=
  repeat first
    [ apply keeps_ret | apply keeps_throw | apply keeps_get_prop
    | apply keeps_opt_prop | apply keeps_get_index0
    | apply keeps_response_json | apply keeps_throw_if | apply keeps_unsettle
    | apply keeps_log; reflexivity
    | apply keeps_fetch; intros ?; reflexivity
    | apply keeps_settle
    | apply keeps_try_catch; [|intros ?]
    | apply keeps_mapM; intros ?
    | apply keeps_js_map; intros ?
    | apply keeps_bind; [|intros ?]
    | match goal with
      | |- keeps _ (if ?b then _ else _) => destruct b
      | |- keeps _ (match ?x with _ => _ end) => destruct x
      end ].

(** ** handleToolCalls *)

Section ToolLoop.

Variable env : list event -> request -> fetch_outcome.
Variables now_iso end_of_day_iso : string.

Local Abbreviation dispatch := (Server.dispatch env now_iso end_of_day_iso).
Local Abbreviation handleToolCall := (Server.handleToolCall env now_iso end_of_day_iso).
Local Abbreviation handleToolCalls_loop :=
  (Server.handleToolCalls_loop env now_iso end_of_day_iso).
Local Abbreviation handleToolCalls := (Server.handleToolCalls env now_iso end_of_day_iso).

Lemma keeps_find_loop (l : list value) (n : string) :
  keeps tool_event (find_loop l n).
Proof.
  induction l as [|h l IH]; simpl; [apply keeps_ret|].
  apply keeps_bind; [apply keeps_get_prop | intros nm].
  destruct (name_is nm n); [apply keeps_ret | exact IH].
Qed.

Lemma keeps_header_value (detail : value) (n : string) :
  keeps tool_event (header_value detail n).
Proof.
  unfold header_value.
  apply keeps_bind; [apply keeps_get_prop | intros payload].
  apply keeps_bind; [apply keeps_get_prop | intros headers].
  apply keeps_bind; [|intros; apply keeps_opt_prop].
  destruct headers; try apply keeps_throw. apply keeps_find_loop.
Qed.

Lemma keeps_email_summary (email detail : value) :
  keeps tool_event (email_summary email detail).
Proof.
  unfold email_summary.
  repeat first [ apply keeps_header_value | apply keeps_get_prop | apply keeps_ret
               | apply keeps_bind; [|intros ?] ].
Qed.

Lemma keeps_email_details (token emails : value) :
  keeps tool_event (email_details env token emails).
Proof.
  unfold email_details. destruct emails; try apply keeps_throw.
  apply keeps_bind; [|intros started].
  - apply keeps_mapM. intros email. unfold getEmail. keeps_auto.
  - apply keeps_bind; [|intros; apply keeps_ret].
    apply keeps_mapM. intros p.
    apply keeps_bind; [apply keeps_unsettle | intros; apply keeps_email_summary].
Qed.

(** A tool adds no request to the LLM provider and no entry into
    [handleToolCalls], and does not touch [messages]. *)
Lemma keeps_dispatch (nm args : value) (u : User) :
  keeps tool_event (dispatch nm args u).
Proof.
  unfold Server.dispatch.
  repeat match goal with
         | |- keeps _ (if name_is ?a ?b then _ else _) => destruct (name_is a b)
         end.
  - repeat (apply keeps_bind; [apply keeps_get_prop | intros ?]).
    apply keeps_bind; [|intros; apply keeps_email_details].
    unfold getEmails. keeps_auto.
  - unfold sendEmail, recipients_line. keeps_auto.
  - unfold getEvents. keeps_auto.
  - unfold createEvent, as_attendee. keeps_auto.
  - unfold updateEvent, as_attendee. keeps_auto.
  - unfold deleteEvent. keeps_auto.
  - apply keeps_ret.
Qed.

Lemma keeps_handleToolCall (u : User) (tc : tool_call) :
  keeps tool_event (handleToolCall u tc).
Proof.
  unfold Server.handleToolCall.
  apply keeps_try_catch; [|intros; apply keeps_ret].
  apply keeps_bind; [apply keeps_dispatch | intros; apply keeps_ret].
Qed.

Lemma handleToolCall_eq (u : User) (tc : tool_call) (s : store) :
  handleToolCall u tc s
  = (Ok (turn_result tc (fst (dispatch (tc_name tc) (arguments tc) u s))),
     snd (dispatch (tc_name tc) (arguments tc) u s)).
Proof.
  unfold Server.handleToolCall, try_catch, bind.
  destruct (Server.dispatch env now_iso end_of_day_iso (tc_name tc) (arguments tc) u s)
    as [[v|e] s1]; reflexivity.
Qed.

Lemma name_is_eq (v : value) (n : string) : name_is v n = true -> v = VStr n.
Proof.
  destruct v; simpl; try discriminate. intros H. apply String.eqb_eq in H. now subst.
Qed.

Lemma loop_cons (u : User) (c : tool_call) (rest : list tool_call)
    (acc : list tool_result) (s : store) :
  handleToolCalls_loop u (c :: rest) acc s
  = handleToolCalls_loop u rest
      (acc ++ [turn_result c (fst (dispatch (tc_name c) (arguments c) u s))])
      (snd (dispatch (tc_name c) (arguments c) u s)).
Proof.
  cbn [Server.handleToolCalls_loop]. unfold bind. now rewrite handleToolCall_eq.
Qed.

(** The loop returns; it yields the accumulator followed by one result
    per call, in order, each under the id of its call. *)
Lemma loop_returns (u : User) (l : list tool_call) :
  forall acc s, exists rs s',
    handleToolCalls_loop u l acc s = (Ok (acc ++ rs), s')
    /\ map toolCallId rs = map id l
    /\ extends tool_event s s'.
Proof.
  induction l as [|c l IH]; intros acc s.
  - exists [], s. simpl. rewrite app_nil_r. repeat split. apply extends_refl.
  - rewrite loop_cons.
    destruct (IH (acc ++ [turn_result c (fst (dispatch (tc_name c) (arguments c) u s))])
                 (snd (dispatch (tc_name c) (arguments c) u s)))
      as [rs [s' [Hrun [Hids Hext]]]].
    exists (turn_result c (fst (dispatch (tc_name c) (arguments c) u s)) :: rs), s'.
    split; [|split].
    + rewrite Hrun. now rewrite <- app_assoc.
    + simpl. rewrite Hids. f_equal.
      now destruct (fst (dispatch (tc_name c) (arguments c) u s)).
    + eapply extends_trans; [apply keeps_dispatch | exact Hext].
Qed.

(** The accumulator is only ever extended. *)
Lemma loop_acc (u : User) (l : list tool_call) :
  forall acc rs s s',
    handleToolCalls_loop u l [] s = (Ok rs, s') ->
    handleToolCalls_loop u l acc s = (Ok (acc ++ rs), s').
Proof.
  induction l as [|c l IH]; intros acc rs s s' H.
  - simpl in *. injection H as <- <-. unfold ret. now rewrite app_nil_r.
  - rewrite loop_cons in *.
    set (r := turn_result c (fst (dispatch (tc_name c) (arguments c) u s))) in *.
    set (s2 := snd (dispatch (tc_name c) (arguments c) u s)) in *.
    destruct (loop_returns u l [] s2) as [rs2 [s3 [H2 _]]]. simpl in H2.
    change ([] ++ [r]) with [r] in H.
    rewrite (IH [r] rs2 s2 s3 H2) in H. injection H as <- <-.
    rewrite (IH (acc ++ [r]) rs2 s2 s3 H2). now rewrite <- app_assoc.
Qed.

Lemma loop_app (u : User) (pre post : list tool_call) :
  forall acc s,
    handleToolCalls_loop u (pre ++ post) acc s
    = match handleToolCalls_loop u pre acc s with
      | (Ok r, s1) => handleToolCalls_loop u post r s1
      | (Throw e, s1) => (Throw e, s1)
      end.
Proof.
  induction pre as [|c pre IH]; intros acc s.
  - reflexivity.
  - simpl app. rewrite !loop_cons. apply IH.
Qed.


(** *** Particular tools *)

Lemma calls_app (c : callee) (t t' : list event) :
  calls c (t ++ t') = calls c t + calls c t'.
Proof. unfold calls. now rewrite filter_app, length_app. Qed.

Lemma not_registered (nm : value) (n : string) :
  (forall x, nm = VStr x -> ~ In x registered_names) ->
  In n registered_names -> name_is nm n = false.
Proof.
  intros Hout Hin. destruct (name_is nm n) eqn:E; [|reflexivity].
  apply name_is_eq in E. exfalso. exact (Hout n E Hin).
Qed.

(** The result of the [default] branch. *)
Lemma dispatch_unknown (nm args : value) (u : User) (s : store) :
  (forall x, nm = VStr x -> ~ In x registered_names) ->
  dispatch nm args u s
  = (Ok (VObj [("error", VStr ("Unknown tool call: " ++ to_js_string nm)%string)]), s).
Proof.
  intros Hout. unfold Server.dispatch.
  rewrite !(not_registered nm _ Hout) by (vm_compute; tauto).
  reflexivity.
Qed.

(** [send_email] calls [gmailService.sendEmail] once, whatever the
    arguments hold, provided they are an object to read from. *)
Lemma dispatch_send_email (args : value) (u : User) (s : store) :
  nullish args = false ->
  calls gmail_sendEmail (trace (snd (dispatch (VStr "send_email") args u s)))
  = calls gmail_sendEmail (trace s) + 1.
Proof.
  intros Hn. unfold Server.dispatch. cbn [name_is String.eqb Ascii.eqb Bool.eqb].
  cbn -[get_prop sendEmail]. unfold bind.
  rewrite !(EffFacts.get_prop_ok args _ _ Hn).
  unfold sendEmail, bind, log, modify, recipients_line.
  cbn [em_cc em_bcc em_to em_subject em_body trace messages].
  set (t1 := trace s ++ [Call gmail_sendEmail]).
  assert (H1 : calls gmail_sendEmail t1 = calls gmail_sendEmail (trace s) + 1)
    by (unfold t1; rewrite calls_app; reflexivity).
  assert (Hfetch : forall r,
    calls gmail_sendEmail
      (trace (snd ((response <- fetch env r ;; response_json response)
                     (Store t1 (messages s)))))
    = calls gmail_sendEmail (trace s) + 1).
  { intros r. unfold bind, fetch. cbn [trace messages].
    destruct (env t1 r) as [m|resp]; cbn [snd trace].
    - rewrite calls_app, H1. unfold calls at 2. simpl. lia.
    - unfold response_json. destruct (json resp); cbn [snd trace ret throw];
        rewrite calls_app, H1; unfold calls at 2; simpl; lia. }
  unfold bind in Hfetch.
  destruct (truthy (prop_of args "cc")).
  - destruct (prop_of args "cc"); cbn [throw ret snd trace]; try exact H1;
      (destruct (truthy (prop_of args "bcc"));
       [ destruct (prop_of args "bcc"); cbn [throw ret snd trace]; try exact H1;
         apply Hfetch
       | cbn [ret]; apply Hfetch ]).
  - cbn [ret].
    destruct (truthy (prop_of args "bcc"));
      [ destruct (prop_of args "bcc"); cbn [throw ret snd trace]; try exact H1;
        apply Hfetch
      | cbn [ret]; apply Hfetch ].
Qed.

(** [delete_calendar_event]: once the [DELETE] has an answer, whatever
    its status, the tool reports a success. *)
Lemma dispatch_delete (args : value) (u : User) (s : store) (resp : response) :
  nullish args = false ->
  env (trace s ++ [Call calendar_deleteEvent])
      (CalendarDeleteEvent (accessToken u) (prop_of args "event_id"))
  = Responded resp ->
  dispatch (VStr "delete_calendar_event") args u s
  = (Ok deleted,
     Store (trace s ++ [Call calendar_deleteEvent;
                        Fetch (CalendarDeleteEvent (accessToken u)
                                 (prop_of args "event_id"))
                              (Responded resp)])
           (messages s)).
Proof.
  intros Hn Henv. unfold Server.dispatch.
  cbn -[get_prop deleteEvent]. unfold bind.
  rewrite (EffFacts.get_prop_ok args _ _ Hn).
  unfold deleteEvent, bind, log, modify, fetch. cbn [trace messages].
  rewrite Henv. cbn [ret]. now rewrite <- app_assoc.
Qed.


(** *** The loop as a whole *)

(** For every list of tool calls, [handleToolCalls] returns one result
    per call, in the order of the calls, each under the id of its call,
    and [tool_turn] makes one [tool] turn of each under that id.  A call
    whose tool throws does not stop the loop: its result carries the
    error's message, which becomes the text of its turn, and the calls
    after it run from the store the failed call left. *)
Lemma handleToolCalls_results (u : User) (toolCalls : list tool_call)
    (s : store) :
  exists results s',
    handleToolCalls toolCalls u s = (Ok results, s')
    /\ length results = length toolCalls
    /\ map toolCallId results = map id toolCalls
    /\ map tool_call_id (map tool_turn results) = map id toolCalls
    /\ forall pre c post, toolCalls = pre ++ c :: post ->
         exists rpre s1 rpost,
           handleToolCalls pre u s = (Ok rpre, s1)
           /\ handleToolCalls_loop u post []
                (snd (dispatch (tc_name c) (arguments c) u s1))
              = (Ok rpost, s')
           /\ results
              = rpre ++ turn_result c (fst (dispatch (tc_name c) (arguments c) u s1))
                     :: rpost
           /\ forall e,
                tool_turn (turn_result c (Throw e))
                = {| msg_role := tool;
                     content := VStr (json_quote (exn_message e));
                     name := VUndef; tool_calls := VUndef;
                     tool_call_id := id c |}.
Proof.
  unfold Server.handleToolCalls, bind, log, modify.
  set (s0 := Store (trace s ++ [Call fn_handleToolCalls]) (messages s)).
  destruct (loop_returns u toolCalls [] s0) as [results [s' [Hrun [Hids _]]]].
  simpl in Hrun. exists results, s'.
  split; [exact Hrun|]. split; [|split; [exact Hids|split]].
  - rewrite <- (length_map toolCallId), Hids. apply length_map.
  - rewrite map_map. exact Hids.
  - intros pre c post ->.
    destruct (loop_returns u pre [] s0) as [rpre [s1 [Hpre _]]]. simpl in Hpre.
    exists rpre, s1.
    rewrite loop_app, Hpre, loop_cons in Hrun.
    destruct (loop_returns u post []
                (snd (dispatch (tc_name c) (arguments c) u s1)))
      as [rpost [s2 [Hpost _]]].
    simpl in Hpost. rewrite (loop_acc u post _ _ _ _ Hpost) in Hrun.
    injection Hrun as <- <-.
    exists rpost. split; [exact Hpre|]. split; [exact Hpost|].
    split; [now rewrite <- app_assoc|]. reflexivity.
Qed.

(** A call to a name that is not registered changes nothing for its
    siblings: with the call and without it, the other calls yield the
    same results and leave the same store. *)
Lemma unknown_call_between (u : User) (pre post : list tool_call)
    (c : tool_call) (s : store) :
  (forall x, tc_name c = VStr x -> ~ In x registered_names) ->
  exists rpre rpost s',
    handleToolCalls (pre ++ post) u s = (Ok (rpre ++ rpost), s')
    /\ length rpre = length pre
    /\ handleToolCalls (pre ++ c :: post) u s
       = (Ok (rpre ++ turn_result c (Ok (VObj
                [("error",
                  VStr ("Unknown tool call: " ++ to_js_string (tc_name c))%string)]))
                   :: rpost), s').
Proof.
  intros Hout. unfold Server.handleToolCalls, bind, log, modify.
  set (s0 := Store (trace s ++ [Call fn_handleToolCalls]) (messages s)).
  destruct (loop_returns u pre [] s0) as [rpre [s1 [Hpre [Hids _]]]].
  simpl in Hpre.
  destruct (loop_returns u post [] s1) as [rpost [s' [Hpost _]]]. simpl in Hpost.
  exists rpre, rpost, s'. split; [|split].
  - rewrite loop_app, Hpre. now apply loop_acc.
  - rewrite <- (length_map toolCallId), Hids. apply length_map.
  - rewrite loop_app, Hpre, loop_cons, (dispatch_unknown _ _ _ _ Hout).
    cbn [fst snd]. rewrite (loop_acc u post _ _ _ _ Hpost).
    now rewrite <- app_assoc.
Qed.


(** C10: a [delete_calendar_event] call whose [DELETE] request gets an
    answer yields [{success: true, message: 'Event deleted
    successfully'}] whatever the answer's status: [deleteEvent] drops the
    response, and the tool turn carries the success. *)
Theorem delete_reports_success_for_any_status (u : User) (tc : tool_call)
    (s : store) (resp : response) :
  tc_name tc = VStr "delete_calendar_event" ->
  nullish (arguments tc) = false ->
  env (trace s ++ [Call calendar_deleteEvent])
      (CalendarDeleteEvent (accessToken u) (prop_of (arguments tc) "event_id"))
  = Responded resp ->
  exists s',
    handleToolCall u tc s
    = (Ok {| toolCallId := id tc; tr_name := tc_name tc;
             result := deleted; error := VUndef |}, s')
    /\ calls calendar_deleteEvent (trace s')
       = calls calendar_deleteEvent (trace s) + 1
    /\ tool_turn {| toolCallId := id tc; tr_name := tc_name tc;
                    result := deleted; error := VUndef |}
       = {| msg_role := tool; content := VStr deleted_text;
            name := VUndef; tool_calls := VUndef; tool_call_id := id tc |}.
Proof.
  destruct tc as [i n a]. cbn [tc_name arguments id]. intros -> Hn Henv.
  rewrite handleToolCall_eq. cbn [tc_name arguments id].
  rewrite (dispatch_delete _ u s resp Hn Henv). cbn [fst snd turn_result].
  eexists. split; [reflexivity|]. split; [|reflexivity].
  cbn [trace]. rewrite calls_app. reflexivity.
Qed.


(** *** More on particular tools *)

(** X7: a [send_email] call whose [cc] is given but is not an array (a
    single address as a string, say) sends nothing: [sendEmail] is
    entered and throws on [cc.join] before any request, and the call's
    result carries the error. *)
Theorem send_email_with_malformed_cc_sends_nothing (args i : value)
    (u : User) (s : store) :
  nullish args = false ->
  truthy (prop_of args "cc") = true ->
  (forall l, prop_of args "cc" <> VArr l) ->
  exists m,
    handleToolCall u (ToolCall i (VStr "send_email") args) s
    = (Ok {| toolCallId := i; tr_name := VStr "send_email";
             result := VUndef; error := VStr m |},
       Store (trace s ++ [Call gmail_sendEmail]) (messages s)).
Proof.
  intros Hn Hcc Harr. rewrite handleToolCall_eq. cbn [tc_name arguments id].
  unfold Server.dispatch. cbn -[get_prop sendEmail]. unfold bind.
  rewrite !(EffFacts.get_prop_ok args _ _ Hn).
  unfold sendEmail, bind, log, modify, recipients_line.
  cbn [em_cc em_bcc em_to em_subject em_body trace messages]. rewrite Hcc.
  destruct (prop_of args "cc") as [| | | | |l|] eqn:E;
    try discriminate Hcc; try (eexists; reflexivity).
  exfalso. exact (Harr l eq_refl).
Qed.

Lemma starts_with_log {A} (e : event) (k : M store A) :
  keeps tool_event k -> starts_with e (log e ;;; k).
Proof.
  intros Hk s. unfold bind, log, modify.
  destruct (Hk (Store (trace s ++ [e]) (messages s))) as [_ [rest [Ht Hp]]].
  exists rest. cbn [trace] in Ht. rewrite Ht, <- app_assoc. now split.
Qed.

Lemma starts_with_then {A B} (e : event) (c : M store A) (k : A -> M store B) :
  starts_with e c -> (forall a, keeps tool_event (k a)) -> starts_with e (bind c k).
Proof.
  intros Hc Hk s. unfold bind. destruct (Hc s) as [rest [Ht Hp]].
  destruct (c s) as [[a|x] s1]; cbn [snd] in *; [|now exists rest].
  destruct (Hk a s1) as [_ [more [Ht' Hp']]].
  exists (rest ++ more). rewrite Ht', Ht, <- app_assoc. split; [reflexivity|].
  now rewrite forallb_app, Hp, Hp'.
Qed.

Lemma starts_with_after_read {A} (e : event) (v : value) (k : string)
    (c : value -> M store A) :
  nullish v = false ->
  starts_with e (c (prop_of v k)) ->
  starts_with e (bind (get_prop v k) c).
Proof.
  intros Hn Hc s. unfold bind. rewrite (EffFacts.get_prop_ok v k s Hn). apply Hc.
Qed.

Lemma mapM_as_attendee (l : list value) (s : store) :
  mapM as_attendee l s
  = (Ok (map (fun email => VObj [("email", email)]) l), s).
Proof.
  induction l as [|x l IH]; [reflexivity|].
  cbn [mapM map]. unfold bind. cbn [as_attendee ret]. now rewrite IH.
Qed.

(** X8: every name of the tool schema has its branch in the [switch]:
    for a registered name and arguments that are an object (whose
    [attendees], if any, is an array), the tool's first act is to enter
    one of the seven methods of the Google services. *)
Theorem every_registered_tool_reaches_a_service (n : string) (args : value)
    (u : User) :
  In n registered_names ->
  nullish args = false ->
  (nullish (prop_of args "attendees") = true
   \/ exists l, prop_of args "attendees" = VArr l) ->
  exists c,
    c <> fn_handleToolCalls
    /\ starts_with (Call c) (dispatch (VStr n) args u).
Proof.
  intros Hin Hn Hatt. vm_compute in Hin.
  repeat (destruct Hin as [<- | Hin]); [..|contradiction];
    unfold Server.dispatch; cbn [name_is String.eqb Ascii.eqb Bool.eqb].
  - exists gmail_getEmails. split; [discriminate|].
    repeat (apply starts_with_after_read; [exact Hn|]).
    apply starts_with_then; [|intros; apply keeps_email_details].
    unfold getEmails. apply starts_with_log. keeps_auto.
  - exists gmail_sendEmail. split; [discriminate|].
    repeat (apply starts_with_after_read; [exact Hn|]).
    unfold sendEmail. apply starts_with_log. unfold recipients_line. keeps_auto.
  - exists calendar_getEvents. split; [discriminate|].
    repeat (apply starts_with_after_read; [exact Hn|]).
    unfold getEvents. apply starts_with_log. keeps_auto.
  - exists calendar_createEvent. split; [discriminate|].
    repeat (apply starts_with_after_read; [exact Hn|]).
    intros s. unfold bind.
    destruct Hatt as [Hnull | [l Hl]].
    + rewrite Hnull. cbn [ret].
      apply (starts_with_log (Call calendar_createEvent)). keeps_auto.
    + rewrite Hl. cbn [nullish js_map]. unfold bind. rewrite mapM_as_attendee.
      cbn [ret].
      apply (starts_with_log (Call calendar_createEvent)). keeps_auto.
  - exists calendar_updateEvent. split; [discriminate|].
    repeat (apply starts_with_after_read; [exact Hn|]).
    intros s. unfold bind.
    destruct Hatt as [Hnull | [l Hl]].
    + assert (Hf : truthy (prop_of args "attendees") = false)
        by (destruct (prop_of args "attendees"); try discriminate; reflexivity).
      rewrite Hf. cbn [ret]. rewrite (EffFacts.get_prop_ok args _ _ Hn).
      apply (starts_with_log (Call calendar_updateEvent)). keeps_auto.
    + rewrite Hl. cbn [truthy js_map]. unfold bind. rewrite mapM_as_attendee.
      cbn [ret]. rewrite (EffFacts.get_prop_ok args _ _ Hn).
      apply (starts_with_log (Call calendar_updateEvent)). keeps_auto.
  - exists calendar_deleteEvent. split; [discriminate|].
    repeat (apply starts_with_after_read; [exact Hn|]).
    apply starts_with_then; [|intros; apply keeps_ret].
    unfold deleteEvent. apply starts_with_log. keeps_auto.
Qed.


End ToolLoop.


(** The calendar of [sample_world] answers 404 and the tool still
    reports a success. *)
Lemma delete_reports_success_for_any_status_witness :
  ok (response_of 404 None) = false
  /\ exists s',
       handleToolCall sample_world "" "" sample_user delete_call (Store [] [])
       = (Ok {| toolCallId := VStr "call_2";
                tr_name := VStr "delete_calendar_event";
                result := deleted; error := VUndef |}, s')
       /\ calls calendar_deleteEvent (trace s') = 1
       /\ tool_turn {| toolCallId := VStr "call_2";
                       tr_name := VStr "delete_calendar_event";
                       result := deleted; error := VUndef |}
          = {| msg_role := tool; content := VStr deleted_text;
               name := VUndef; tool_calls := VUndef;
               tool_call_id := VStr "call_2" |}.
Proof.
  split; [reflexivity|].
  apply (delete_reports_success_for_any_status sample_world "" ""
           sample_user delete_call (Store [] []) (response_of 404 None));
    reflexivity.
Defined.

(** C7, as the specification words it, on the server: a [send_email]
    call with none of [to], [subject] and [body] is not refused;
    [gmailService.sendEmail] is called once and the result is no
    error. *)
Lemma send_email_without_parameters_is_sent :
  exists r s',
    handleToolCall sample_world "" "" sample_user bare_send_call (Store [] [])
    = (Ok r, s')
    /\ error r = VUndef
    /\ calls gmail_sendEmail (trace s') = 1.
Proof. eexists. eexists. split; [reflexivity|]. split; reflexivity. Qed.


(** ** getChatResponse *)

Lemma no_events_eq (s s' : store) : extends (fun _ => false) s s' -> s' = s.
Proof.
  intros [Hm [new [Ht Hp]]]. destruct new as [|e new]; [|discriminate].
  rewrite app_nil_r in Ht. destruct s, s'; simpl in *. congruence.
Qed.

Lemma message_of_indep {S} (v : value) (s : S) :
  message_of v s = (fst (message_of v tt), s).
Proof.
  unfold message_of, bind. destruct (nullish v) eqn:Hv.
  - destruct v; try discriminate; reflexivity.
  - rewrite !(EffFacts.get_prop_ok v _ _ Hv).
    generalize (prop_of v "choices"). intros c.
    destruct c; try reflexivity; cbn [get_index0 ret];
      rewrite !EffFacts.opt_prop_ok; reflexivity.
Qed.

(** ** Cutting the log *)

Lemma slice_last_suffix {A} (n : nat) (l : list A) :
  firstn (length l - n) l ++ slice_last n l = l.
Proof. apply firstn_skipn. Qed.

Lemma slice_last_length {A} (n : nat) (l : list A) :
  length (slice_last n l) <= n.
Proof. unfold slice_last. rewrite length_skipn. lia. Qed.

Lemma slice_last_short {A} (n : nat) (l : list A) :
  length l <= n -> slice_last n l = l.
Proof.
  intros H. unfold slice_last. replace (length l - n) with 0 by lia. reflexivity.
Qed.

(** Going back stops on the first turn that is not a tool turn. *)
Lemma issuer_back_spec (before : list turn) :
  forall k j,
    issuer_back before k = Some j ->
    exists n, n < length before /\ j = k - n
              /\ forall m, m < n ->
                   exists x, nth_error before m = Some x /\ is_tool x = true.
Proof.
  induction before as [|x before IH]; intros k j H; [discriminate|].
  simpl in H. destruct (is_tool x) eqn:Hx.
  - destruct (IH _ _ H) as [n [Hn [Hj Hall]]].
    exists (S n). simpl. split; [lia|]. split; [lia|].
    intros [|m] Hm; [exists x; now split|]. apply Hall. lia.
  - destruct (bears_calls x); [|discriminate]. injection H as <-.
    exists 0. simpl. split; [lia|]. split; [lia|]. intros m Hm. lia.
Qed.

(** Between a tool turn and the turn that issued it there are only tool
    turns. *)
Lemma issuer_run (log : list turn) (i j : nat) :
  issuer log i = Some j ->
  j < i /\ forall idx, j < idx <= i ->
             exists x, nth_error log idx = Some x /\ is_tool x = true.
Proof.
  unfold issuer. destruct (nth_error log i) as [m|] eqn:Hi; [|discriminate].
  destruct (is_tool m) eqn:Hm; [|discriminate]. intros H.
  assert (Hlen : i < length log) by (apply nth_error_Some; congruence).
  destruct (issuer_back_spec _ _ _ H) as [n [Hn [Hj Hall]]].
  rewrite length_rev, length_firstn in Hn.
  assert (Hni : n < i) by lia.
  split; [lia|]. intros idx [Hlo Hhi].
  destruct (Nat.eq_dec idx i) as [-> | Hne]; [exists m; now split|].
  destruct (Hall (i - 1 - idx)) as [x [Hx Htool]]; [lia|].
  exists x. split; [|exact Htool].
  rewrite nth_error_rev, length_firstn in Hx.
  replace (Nat.min i (length log)) with i in Hx by lia.
  destruct (Nat.ltb_spec (i - 1 - idx) i); [|lia].
  rewrite nth_error_firstn in Hx.
  replace (i - S (i - 1 - idx)) with idx in Hx by lia.
  destruct (Nat.ltb_spec idx i); [exact Hx|lia].
Qed.

(** A cut that does not fall on a tool turn splits no tool turn from
    its issuer. *)
Lemma cut_outside_tool_run (n : nat) (log : list turn) (m : turn) :
  nth_error log (length log - n) = Some m ->
  is_tool m = false ->
  pairing_kept n log.
Proof.
  intros Hcut Hm i j Hi Hij.
  destruct (issuer_run log i j Hij) as [_ Hrun].
  destruct (Nat.le_gt_cases (length log - n) j) as [Hle|Hgt]; [exact Hle|].
  destruct (Hrun (length log - n)) as [x [Hx Htool]]; [lia|].
  rewrite Hcut in Hx. injection Hx as <-. congruence.
Qed.


(** ** formatMessages on any array *)

Lemma formatMessages_loop_acc (l : list turn) :
  forall acc lastRole,
    formatMessages_loop l acc lastRole = acc ++ formatMessages_loop l [] lastRole.
Proof.
  induction l as [|m l IH]; intros acc lastRole; cbn [formatMessages_loop].
  - now rewrite app_nil_r.
  - destruct (role_eqb (msg_role m) system); [apply IH|].
    destruct (role_eqb (msg_role m) tool
              && negb (match lastRole with
                       | Some r => role_eqb r assistant
                       | None => false
                       end)); [apply IH|].
    rewrite (IH (acc ++ [format_one m])), (IH ([] ++ [format_one m])).
    now rewrite <- app_assoc.
Qed.

Lemma has_role_format_one (m : turn) (s : string) :
  has_role (format_one m) s = (role_string (msg_role m) =? s)%string.
Proof. reflexivity. Qed.

Lemma well_ordered_loop (l : list turn) :
  forall lastRole,
    well_ordered (match lastRole with
                  | Some r => role_eqb r assistant
                  | None => false
                  end)
      (formatMessages_loop l [] lastRole) = true.
Proof.
  induction l as [|m l IH]; intros lastRole; cbn [formatMessages_loop];
    [reflexivity|].
  destruct (role_eqb (msg_role m) system) eqn:Hsys; [apply IH|].
  destruct (role_eqb (msg_role m) tool) eqn:Htool; cbn [andb].
  - destruct (match lastRole with Some r => role_eqb r assistant | None => false end)
      eqn:Hlast; cbn [negb].
    + rewrite formatMessages_loop_acc. cbn [app well_ordered].
      rewrite !has_role_format_one. specialize (IH (Some (msg_role m))).
      destruct (msg_role m); try discriminate. exact IH.
    + rewrite <- Hlast. apply IH.
  - rewrite formatMessages_loop_acc. cbn [app well_ordered].
    rewrite !has_role_format_one. specialize (IH (Some (msg_role m))).
    destruct (msg_role m); try discriminate; exact IH.
Qed.

(** X1: whatever array it is given, [formatMessages] yields a request
    without system turn in which every tool turn comes right after an
    assistant turn: the request never opens with a tool turn and never
    has two tool turns in a row. *)
Theorem formatMessages_well_ordered (msgs : list turn) :
  well_ordered false (formatMessages msgs) = true.
Proof. exact (well_ordered_loop msgs None). Qed.

Lemma dialogue_loop (l : list turn) :
  forall lastRole,
    filter (fun v => has_role v "user" || has_role v "assistant")
      (formatMessages_loop l [] lastRole)
    = map format_one (filter is_dialogue l).
Proof.
  induction l as [|m l IH]; intros lastRole; cbn [formatMessages_loop filter map];
    [reflexivity|].
  unfold is_dialogue at 1.
  destruct (role_eqb (msg_role m) system) eqn:Hsys.
  - rewrite IH. destruct (msg_role m); try discriminate. reflexivity.
  - destruct (role_eqb (msg_role m) tool) eqn:Htool; cbn [andb].
    + assert (Hskip : role_eqb (msg_role m) user || role_eqb (msg_role m) assistant
                      = false) by (destruct (msg_role m); try discriminate; reflexivity).
      rewrite Hskip.
      destruct (negb (match lastRole with
                      | Some r => role_eqb r assistant
                      | None => false
                      end)); [apply IH|].
      rewrite formatMessages_loop_acc. cbn [app filter].
      rewrite !has_role_format_one, IH.
      destruct (msg_role m); try discriminate. reflexivity.
    + rewrite formatMessages_loop_acc. cbn [app filter].
      rewrite !has_role_format_one, IH.
      destruct (msg_role m); try discriminate; reflexivity.
Qed.

(** X2: [formatMessages] never drops a user or an assistant turn: the
    user and assistant turns of the request are those of the array, each
    formatted, in the same order. *)
Theorem formatMessages_keeps_the_dialogue (msgs : list turn) :
  filter (fun v => has_role v "user" || has_role v "assistant")
    (formatMessages msgs)
  = map format_one (filter is_dialogue msgs).
Proof. exact (dialogue_loop msgs None). Qed.


(** ** What formatMessages forwards *)

(** Once an assistant turn is reached the loop goes on from
    [lastRole = 'assistant'], whatever came before. *)
Lemma loop_past_assistant (pre : list turn) (a : turn) (rest : list turn) :
  is_assistant a = true ->
  forall acc lastRole,
    formatMessages_loop (pre ++ a :: rest) acc lastRole
    = formatMessages_loop rest (formatMessages_loop (pre ++ [a]) acc lastRole)
        (Some assistant).
Proof.
  intros Ha. unfold is_assistant in Ha.
  assert (Hr : msg_role a = assistant) by (destruct (msg_role a); now try discriminate).
  induction pre as [|m pre IH]; intros acc lastRole.
  - cbn [app formatMessages_loop]. rewrite Hr. reflexivity.
  - cbn [app formatMessages_loop].
    destruct (role_eqb (msg_role m) system); [apply IH|].
    destruct (role_eqb (msg_role m) tool && _); apply IH.
Qed.

(** After a tool turn was forwarded [lastRole] is ['tool'], and the
    tool turns that follow are skipped. *)
Lemma loop_skips_later_tool_turns (ts : list turn) (acc : list value) :
  forallb is_tool ts = true ->
  formatMessages_loop ts acc (Some tool) = acc.
Proof.
  induction ts as [|m ts IH]; intros H; [reflexivity|].
  cbn [forallb] in H. apply andb_true_iff in H. destruct H as [Hm Hts].
  unfold is_tool in Hm. cbn [formatMessages_loop].
  assert (Hr : msg_role m = tool) by (destruct (msg_role m); now try discriminate).
  rewrite Hr. cbn. exact (IH Hts).
Qed.

(** Going back over tool turns from the last of them, the turn that
    bears the calls is found. *)
Lemma issuer_back_over_tools (ts : list turn) (a : turn) (before : list turn) :
  forallb is_tool ts = true ->
  bears_calls a = true ->
  forall k, length ts <= k ->
    issuer_back (ts ++ a :: before) k = Some (k - length ts).
Proof.
  intros Hts Ha. induction ts as [|m ts IH]; intros k Hk.
  - cbn [app issuer_back length]. rewrite Ha.
    assert (Hn : is_tool a = false).
    { unfold bears_calls, is_assistant in Ha. unfold is_tool.
      destruct (msg_role a); try reflexivity; discriminate Ha. }
    rewrite Hn. f_equal. lia.
  - cbn [forallb] in Hts. apply andb_true_iff in Hts. destruct Hts as [Hm Hts].
    cbn [app issuer_back length] in *. rewrite Hm.
    rewrite (IH Hts) by lia. f_equal. lia.
Qed.

Section Chat.

Variable env : list event -> request -> fetch_outcome.
Variable JSON_parse : string -> option value.
Variable MISTRAL_API_KEY : value.
Variables now_iso end_of_day_iso : string.

Local Abbreviation getChatResponse :=
  (Server.getChatResponse env JSON_parse MISTRAL_API_KEY).
Local Abbreviation handleToolCalls := (Server.handleToolCalls env now_iso end_of_day_iso).
Local Abbreviation chat_try :=
  (Server.chat_try env JSON_parse MISTRAL_API_KEY now_iso end_of_day_iso).
Local Abbreviation chat :=
  (Server.chat env JSON_parse MISTRAL_API_KEY now_iso end_of_day_iso).

(** [safeParseJson] never throws and touches nothing. *)
Lemma safeParseJson_eq (v : value) (s : store) :
  safeParseJson JSON_parse v s
  = (Ok (if truthy v
         then match JSON_parse (to_js_string v) with
              | Some x => x
              | None => VObj []
              end
         else VObj []), s).
Proof.
  unfold safeParseJson, try_catch.
  destruct (truthy v); [|reflexivity].
  destruct (JSON_parse (to_js_string v)); reflexivity.
Qed.

Lemma keeps_safeParseJson (P : event -> bool) (v : value) :
  keeps P (safeParseJson JSON_parse v).
Proof. intros s. rewrite safeParseJson_eq. apply extends_refl. Qed.

Lemma keeps_parse_calls (P : event -> bool) (m : value) :
  keeps P (parse_calls JSON_parse m).
Proof.
  unfold parse_calls.
  apply keeps_bind; [apply keeps_opt_prop | intros tcs].
  destruct tcs; try apply keeps_ret; try apply keeps_throw.
  apply keeps_bind; [|intros; apply keeps_ret].
  apply keeps_mapM. intros call. unfold parse_call.
  repeat first [ apply keeps_get_prop | apply keeps_opt_prop | apply keeps_ret
               | apply keeps_safeParseJson | apply keeps_bind; [|intros ?] ].
Qed.

Lemma keeps_message_of (P : event -> bool) (v : value) :
  keeps P (message_of v).
Proof. intros s. rewrite message_of_indep. apply extends_refl. Qed.

(** Reading the reply adds no event. *)
Lemma read_reply_store (r : response) (s : store) :
  snd (read_reply JSON_parse r s) = s.
Proof.
  apply no_events_eq. revert s. change (keeps (fun _ => false) (read_reply JSON_parse r)).
  unfold read_reply.
  repeat first [ apply keeps_throw_if | apply keeps_response_json
               | apply keeps_message_of | apply keeps_parse_calls
               | apply keeps_opt_prop | apply keeps_ret
               | apply keeps_bind; [|intros ?] ].
Qed.

(** A failed call makes [read_reply] throw, or yield the apology and no
    tool call. *)
Lemma read_reply_failed (r : response) (s : store) :
  llm_failed (Responded r) = true ->
  (exists e, read_reply JSON_parse r s = (Throw e, s))
  \/ read_reply JSON_parse r s
     = (Ok {| cr_content := VStr apology; toolCalls := None |}, s).
Proof.
  unfold llm_failed, read_reply, bind. intros H.
  destruct (ok r); simpl negb in *; cbn [throw_if ret throw orb] in *;
    [|left; eexists; reflexivity].
  unfold response_json. destruct (json r) as [v|]; [|left; eexists; reflexivity].
  cbn [ret]. rewrite message_of_indep. unfold no_message in H.
  destruct (fst (message_of v tt)) as [m|e]; [|left; eexists; reflexivity].
  right. unfold parse_calls, bind. cbn [ret].
  repeat (rewrite !EffFacts.opt_prop_ok, H; cbn [ret]). reflexivity.
Qed.

(** [getChatResponse] always returns; it sends at most one request and
    leaves [messages] alone; a failed call yields one of the two fixed
    replies, without tool calls. *)
Lemma getChatResponse_run (msgs : list turn) (tools : option (list value))
    (s : store) :
  exists r,
    getChatResponse msgs tools s
    = (Ok r, after_call env MISTRAL_API_KEY msgs tools s)
    /\ (truthy MISTRAL_API_KEY = false -> r = fallback)
    /\ (llm_failed (env (trace s) (chat_request msgs tools)) = true ->
        r = fallback
        \/ r = {| cr_content := VStr apology; toolCalls := None |}).
Proof.
  unfold Server.getChatResponse, after_call, try_catch, bind.
  destruct (truthy MISTRAL_API_KEY); cbn [negb throw_if ret throw].
  - unfold fetch.
    destruct (env (trace s) (chat_request msgs tools)) as [m|resp].
    + exists fallback. split; [reflexivity|]. split; [discriminate|]. now left.
    + set (s1 := Store _ _).
      pose proof (read_reply_store resp s1) as Hs.
      destruct (read_reply JSON_parse resp s1) as [[x|e] s2] eqn:R;
        simpl in Hs; subst s2.
      * exists x. split; [reflexivity|]. split; [discriminate|]. intros Hf.
        destruct (read_reply_failed resp s1 Hf) as [[e He]|Hok];
          rewrite R in *; [discriminate|]. injection Hok as ->. now right.
      * exists fallback. split; [reflexivity|]. split; [discriminate|]. now left.
  - exists fallback. split; [reflexivity|]. split; [reflexivity|]. now left.
Qed.

Lemma after_call_messages (msgs : list turn) (tools : option (list value))
    (s : store) :
  messages (after_call env MISTRAL_API_KEY msgs tools s) = messages s.
Proof. unfold after_call. now destruct (truthy MISTRAL_API_KEY). Qed.

Lemma push_all_eq (ms : list turn) (s : store) :
  push_all ms s = (Ok tt, Store (trace s) (messages s ++ ms)).
Proof.
  revert s. induction ms as [|m ms IH]; intros s; simpl.
  - unfold ret. rewrite app_nil_r. now destruct s.
  - unfold bind, push, modify. rewrite IH. simpl. now rewrite <- app_assoc.
Qed.

Lemma nth_error_last {A} (l : list A) (x : A) :
  nth_error (l ++ [x]) (length (l ++ [x]) - 1) = Some x.
Proof.
  rewrite length_app. simpl. replace (length l + 1 - 1) with (length l) by lia.
  rewrite nth_error_app2 by lia. now rewrite Nat.sub_diag.
Qed.

(** [handleToolCalls] returns one result per call, in order; what it
    adds to the trace is its own entry and then events of the tools. *)
Lemma handleToolCalls_run (tcs : list tool_call) (u : User) (s : store) :
  exists rs s',
    handleToolCalls tcs u s = (Ok rs, s')
    /\ map toolCallId rs = map id tcs
    /\ messages s' = messages s
    /\ exists new, trace s' = trace s ++ Call fn_handleToolCalls :: new
                   /\ forallb tool_event new = true.
Proof.
  unfold Server.handleToolCalls, bind, log, modify.
  destruct (loop_returns env now_iso end_of_day_iso u tcs []
              (Store (trace s ++ [Call fn_handleToolCalls]) (messages s)))
    as [rs [s' [Hrun [Hids [Hm [new [Ht Hp]]]]]]].
  exists rs, s'. simpl in *. rewrite Hrun. repeat split; try assumption.
  exists new. rewrite Ht, <- app_assoc. now split.
Qed.

(** The two ways an exchange goes, with every store on the way. *)
Lemma chat_try_run (u : User) (s : store) :
  exists first,
    getChatResponse (messages s) (tools_for u) s
    = (Ok first, after_call env MISTRAL_API_KEY (messages s) (tools_for u) s)
    /\ match toolCalls first with
       | Some (c :: cs) =>
           exists results s2 final,
             let with_calls := messages s ++ [calls_turn (cr_content first) (c :: cs)] in
             let history := with_calls ++ map tool_turn results in
             let full := history ++ [plain assistant (cr_content final)] in
             handleToolCalls (c :: cs) u
               (Store (trace (after_call env MISTRAL_API_KEY (messages s)
                                (tools_for u) s)) with_calls)
             = (Ok results, s2)
             /\ messages s2 = with_calls
             /\ getChatResponse history None (Store (trace s2) history)
                = (Ok final,
                   after_call env MISTRAL_API_KEY history None
                     (Store (trace s2) history))
             /\ chat_try u s
                = (Ok (slice_last 10 full, Some (plain assistant (cr_content final))),
                   Store (trace (after_call env MISTRAL_API_KEY history None
                                   (Store (trace s2) history)))
                         full)
       | _ =>
           let full := messages s ++ [plain assistant (cr_content first)] in
           chat_try u s
           = (Ok (slice_last 10 full, Some (plain assistant (cr_content first))),
              Store (trace (after_call env MISTRAL_API_KEY (messages s)
                              (tools_for u) s))
                    full)
       end.
Proof.
  destruct (getChatResponse_run (messages s) (tools_for u) s) as [first [H1 _]].
  exists first. split; [exact H1|].
  set (s1 := after_call env MISTRAL_API_KEY (messages s) (tools_for u) s) in *.
  assert (Hm1 : messages s1 = messages s) by apply after_call_messages.
  assert (Hplain :
    toolCalls first = None \/ toolCalls first = Some [] ->
    let full := messages s ++ [plain assistant (cr_content first)] in
    chat_try u s
    = (Ok (slice_last 10 full, Some (plain assistant (cr_content first))),
       Store (trace s1) full)).
  { intros Hno full. unfold Server.chat_try, bind, gets. rewrite H1.
    assert (Hbranch :
      match toolCalls first with
      | Some (_ :: _) => False
      | _ => True
      end) by (destruct Hno as [-> | ->]; exact I).
    destruct (toolCalls first) as [[|c cs]|]; try contradiction;
      unfold push, modify; cbn; rewrite Hm1; subst full;
      now rewrite nth_error_last. }
  destruct (toolCalls first) as [[|c cs]|] eqn:Htc;
    [apply Hplain; now right| |apply Hplain; now left].
  clear Hplain.
  set (with_calls := messages s ++ [calls_turn (cr_content first) (c :: cs)]).
  destruct (handleToolCalls_run (c :: cs) u (Store (trace s1) with_calls))
    as [results [s2 [Hrun [_ [Hm2 _]]]]].
  simpl in Hm2.
  set (history := with_calls ++ map tool_turn results).
  destruct (getChatResponse_run history None (Store (trace s2) history))
    as [final [H2 _]].
  exists results, s2, final. cbv zeta. fold with_calls. fold history.
  split; [exact Hrun|]. split; [exact Hm2|]. split; [exact H2|].
  unfold Server.chat_try, bind, gets. rewrite H1, Htc.
  unfold push at 1. unfold modify. cbn [fst snd]. rewrite Hm1. fold with_calls.
  rewrite Hrun. rewrite push_all_eq. rewrite Hm2. fold history.
  cbn [messages trace]. rewrite H2.
  unfold push, modify. rewrite after_call_messages. cbn [messages trace].
  now rewrite (nth_error_last _ _).
Qed.


(** ** The route *)

(** An exchange of a signed-in user ends with a reply, never with
    status 500; the session then holds the last ten turns of the log. *)
Lemma chat_run (session : Session) (message : value) (t : list event) (u : User) :
  session_user session = Some u ->
  let full := exchange_log env JSON_parse MISTRAL_API_KEY now_iso end_of_day_iso
                u session message t in
  exists last t',
    chat session message t
    = (Json200 (Some last),
       {| session_user := Some u;
          session_messages := Some (slice_last 10 full) |},
       t')
    /\ exists body, full = body ++ [last].
Proof.
  intros Hu full. unfold Server.chat. rewrite Hu.
  unfold exchange_log in full. unfold bind, push, modify in *.
  cbn [trace messages] in *.
  set (s := Store t (stored session ++ [plain user message])) in *.
  destruct (chat_try_run u s) as [first [_ Hrun]].
  destruct (toolCalls first) as [[|c cs]|].
  - cbv zeta in Hrun. subst full. rewrite Hrun. cbn [snd messages trace].
    eexists. eexists. split; [reflexivity|]. eexists. reflexivity.
  - destruct Hrun as [results [s2 [final Hrun]]]. cbv zeta in Hrun.
    destruct Hrun as [_ [_ [_ Hrun]]].
    subst full. rewrite Hrun. cbn [snd messages trace].
    eexists. eexists. split; [reflexivity|]. eexists. reflexivity.
  - cbv zeta in Hrun. subst full. rewrite Hrun. cbn [snd messages trace].
    eexists. eexists. split; [reflexivity|]. eexists. reflexivity.
Qed.


(** The exchange of a signed-in user, with its trace: either one call
    of the model and its reply, or a call, the tools, a second call on
    the history with the tool turns, and the second reply. *)
Lemma chat_shape (session : Session) (message : value) (t : list event) (u : User) :
  session_user session = Some u ->
  let h1 := stored session ++ [plain user message] in
  let s := Store t h1 in
  let s1 := after_call env MISTRAL_API_KEY h1 (tools_for u) s in
  exists first,
    getChatResponse h1 (tools_for u) s = (Ok first, s1)
    /\ match toolCalls first with
       | Some (c :: cs) =>
           exists results tool_events final,
             let history :=
               (h1 ++ [calls_turn (cr_content first) (c :: cs)])
               ++ map tool_turn results in
             let s2 := Store (trace s1 ++ Call fn_handleToolCalls :: tool_events)
                             history in
             let full := history ++ [plain assistant (cr_content final)] in
             forallb tool_event tool_events = true
             /\ map toolCallId results = map id (c :: cs)
             /\ getChatResponse history None s2
                = (Ok final, after_call env MISTRAL_API_KEY history None s2)
             /\ exchange_log env JSON_parse MISTRAL_API_KEY now_iso end_of_day_iso
                  u session message t = full
             /\ chat session message t
                = (Json200 (Some (plain assistant (cr_content final))),
                   {| session_user := Some u;
                      session_messages := Some (slice_last 10 full) |},
                   trace (after_call env MISTRAL_API_KEY history None s2))
       | _ =>
           let full := h1 ++ [plain assistant (cr_content first)] in
           exchange_log env JSON_parse MISTRAL_API_KEY now_iso end_of_day_iso
             u session message t = full
           /\ chat session message t
              = (Json200 (Some (plain assistant (cr_content first))),
                 {| session_user := Some u;
                    session_messages := Some (slice_last 10 full) |},
                 trace s1)
       end.
Proof.
  intros Hu h1 s s1. unfold Server.chat, exchange_log. rewrite Hu.
  unfold bind, push, modify. cbn [trace messages]. fold h1. fold s.
  destruct (chat_try_run u s) as [first [H1 Hrun]].
  exists first. split; [exact H1|].
  change (messages s) with h1 in Hrun. fold s1 in Hrun.
  destruct (toolCalls first) as [[|c cs]|].
  - cbv zeta in *. rewrite Hrun. now split.
  - destruct Hrun as [results [s2 [final Hrun]]]. cbv zeta in Hrun.
    destruct Hrun as [Htools [Hm2 [H2 Hrun]]].
    destruct (handleToolCalls_run (c :: cs) u
                (Store (trace s1) (h1 ++ [calls_turn (cr_content first) (c :: cs)])))
      as [rs [s2' [Hrun' [Hids [_ [new [Ht Hp]]]]]]].
    rewrite Htools in Hrun'. injection Hrun' as <- <-.
    cbn [trace] in Ht.
    exists results, new, final. cbv zeta. rewrite <- Ht.
    split; [exact Hp|]. split; [exact Hids|]. split; [exact H2|].
    rewrite Hrun. now split.
  - cbv zeta in *. rewrite Hrun. now split.
Qed.

Lemma mistral_requests_app (a b : list event) :
  mistral_requests (a ++ b) = mistral_requests a ++ mistral_requests b.
Proof.
  induction a as [|e a IH]; [reflexivity|].
  destruct e as [c|r o]; simpl; [exact IH|].
  destruct r; simpl; try exact IH. now rewrite IH.
Qed.

Lemma tool_events_quiet (l : list event) :
  forallb tool_event l = true ->
  mistral_requests l = [] /\ calls fn_handleToolCalls l = 0.
Proof.
  induction l as [|e l IH]; [now split|]. simpl. intros H.
  apply andb_true_iff in H. destruct H as [He Hl].
  destruct (IH Hl) as [IH1 IH2]. unfold tool_event in He.
  apply andb_true_iff in He. destruct He as [Hm Hc].
  unfold calls in *. simpl.
  destruct e as [c|r o].
  - simpl in Hc. destruct c; try discriminate; simpl; now split.
  - destruct r; try discriminate; simpl; now split.
Qed.


Lemma tool_calls_need_key (msgs : list turn) (tools : option (list value))
    (s s' : store) (r : chat_response) (c : tool_call) (cs : list tool_call) :
  getChatResponse msgs tools s = (Ok r, s') ->
  toolCalls r = Some (c :: cs) ->
  truthy MISTRAL_API_KEY = true.
Proof.
  intros Hrun Htc. destruct (getChatResponse_run msgs tools s) as [r' [E [Hkey _]]].
  rewrite Hrun in E. injection E as -> _.
  destruct (truthy MISTRAL_API_KEY); [reflexivity|].
  rewrite (Hkey eq_refl) in Htc. discriminate.
Qed.

Lemma map_const_length {A B C} (k : C) (l : list A) (l' : list B) :
  length l = length l' -> map (fun _ => k) l = map (fun _ => k) l'.
Proof.
  revert l'. induction l as [|x l IH]; intros [|y l'] H; try discriminate.
  - reflexivity.
  - simpl. f_equal. apply IH. now injection H.
Qed.

(** C1: for every list of tool calls handed to [handleToolCalls] there
    is exactly one result per call, in the order of the calls, each
    under the id of its call; a call whose tool throws contributes a
    result with the error's message and the calls after it still run.
    In an exchange whose first reply asks for tool calls, the log gets,
    after the assistant turn with the calls, one [tool] turn per call,
    in order, each with the [tool_call_id] of its call. *)
Theorem one_tool_turn_per_request :
  (forall u toolCalls s,
     exists results s',
       handleToolCalls toolCalls u s = (Ok results, s')
       /\ length results = length toolCalls
       /\ map toolCallId results = map id toolCalls
       /\ map tool_call_id (map tool_turn results) = map id toolCalls
       /\ forall pre c post, toolCalls = pre ++ c :: post ->
            exists rpre s1 rpost,
              handleToolCalls pre u s = (Ok rpre, s1)
              /\ Server.handleToolCalls_loop env now_iso end_of_day_iso u post []
                   (snd (dispatch env now_iso end_of_day_iso
                           (tc_name c) (arguments c) u s1))
                 = (Ok rpost, s')
              /\ results
                 = rpre ++ turn_result c
                             (fst (dispatch env now_iso end_of_day_iso
                                     (tc_name c) (arguments c) u s1))
                        :: rpost
              /\ forall e,
                   tool_turn (turn_result c (Throw e))
                   = {| msg_role := tool;
                        content := VStr (json_quote (exn_message e));
                        name := VUndef; tool_calls := VUndef;
                        tool_call_id := id c |})
  /\ (forall session message t u first c cs,
        session_user session = Some u ->
        fst (getChatResponse (stored session ++ [plain user message]) (tools_for u)
               (Store t (stored session ++ [plain user message])))
        = Ok first ->
        toolCalls first = Some (c :: cs) ->
        exists results answer,
          exchange_log env JSON_parse MISTRAL_API_KEY now_iso end_of_day_iso
            u session message t
          = ((stored session ++ [plain user message]
              ++ [calls_turn (cr_content first) (c :: cs)])
             ++ map tool_turn results)
            ++ [plain assistant answer]
          /\ map msg_role (map tool_turn results) = map (fun _ => tool) (c :: cs)
          /\ map tool_call_id (map tool_turn results) = map id (c :: cs)).
Proof.
  split; [exact (handleToolCalls_results env now_iso end_of_day_iso)|].
  intros session message t u first c cs Hu Hfirst Htc.
  destruct (chat_shape session message t u Hu) as [first' [H1 Hrun]].
  cbv zeta in H1, Hrun. rewrite H1 in Hfirst. cbn [fst] in Hfirst.
  injection Hfirst as ->. rewrite Htc in Hrun.
  destruct Hrun as [results [tool_events [final Hrun]]].
  cbv zeta in Hrun. destruct Hrun as [_ [Hids [_ [Hlog _]]]].
  exists results, (cr_content final). split; [|split].
  - rewrite Hlog. now rewrite <- (app_assoc (stored session)).
  - rewrite map_map. cbn [tool_turn msg_role].
    apply map_const_length.
    rewrite <- (length_map toolCallId results), Hids. apply length_map.
  - rewrite map_map. exact Hids.
Qed.


(** C3: when the first reply of an exchange asks for tool calls, the
    exchange makes exactly two requests to the model, the first with
    the schema the user is offered and the second, sent after the tool
    turns, with none; [handleToolCalls] is entered exactly once, and
    the turn that answers the user carries no tool call, whatever the
    second reply holds. *)
Theorem second_call_offers_no_tools (session : Session) (message : value)
    (t : list event) (u : User) (first : chat_response)
    (c : tool_call) (cs : list tool_call) :
  session_user session = Some u ->
  fst (getChatResponse (stored session ++ [plain user message]) (tools_for u)
         (Store t (stored session ++ [plain user message])))
  = Ok first ->
  toolCalls first = Some (c :: cs) ->
  exists answer session' o1 tool_events history o2,
    let new :=
      Fetch (chat_request (stored session ++ [plain user message]) (tools_for u)) o1
      :: Call fn_handleToolCalls
      :: tool_events ++ [Fetch (chat_request history None) o2] in
    chat session message t
    = (Json200 (Some (plain assistant answer)), session', t ++ new)
    /\ forallb tool_event tool_events = true
    /\ map snd (mistral_requests new) = [offered (tools_for u); None]
    /\ calls fn_handleToolCalls new = 1.
Proof.
  intros Hu Hfirst Htc.
  destruct (chat_shape session message t u Hu) as [first' [H1 Hrun]].
  cbv zeta in H1, Hrun. rewrite H1 in Hfirst. cbn [fst] in Hfirst.
  injection Hfirst as ->.
  pose proof (tool_calls_need_key _ _ _ _ _ _ _ H1 Htc) as Hkey.
  rewrite Htc in Hrun. destruct Hrun as [results [tool_events [final Hrun]]].
  cbv zeta in Hrun. destruct Hrun as [Hquiet [_ [_ [_ Hchat]]]].
  unfold after_call in Hchat. rewrite Hkey in Hchat. cbn [trace messages] in Hchat.
  destruct (tool_events_quiet _ Hquiet) as [Hnone Hzero].
  eexists. eexists. eexists. exists tool_events. eexists. eexists. cbv zeta.
  split; [|split; [exact Hquiet|split]].
  - rewrite Hchat. f_equal. rewrite <- !app_assoc. reflexivity.
  - cbn [mistral_requests chat_request map snd].
    rewrite mistral_requests_app, Hnone. reflexivity.
  - unfold calls in *. cbn [filter is_call callee_eqb chat_request length].
    rewrite filter_app, length_app, Hzero. reflexivity.
Qed.

(** C4: an exchange of a signed-in user always ends with a reply.  When
    the API key is missing, or when the last request to the model
    failed (the transport failed, the status was not a success, the
    body was not JSON or held no message), the reply is an assistant
    turn whose text is one of two fixed, non-empty sentences. *)
Theorem failed_llm_call_yields_fixed_apology (session : Session)
    (message : value) (t : list event) (u : User) :
  session_user session = Some u ->
  exists last session' new,
    chat session message t = (Json200 (Some last), session', t ++ new)
    /\ (truthy MISTRAL_API_KEY = false -> last = plain assistant (VStr sorry))
    /\ (forall before r o,
          new = before ++ [Fetch r o] -> llm_failed o = true ->
          last = plain assistant (VStr sorry)
          \/ last = plain assistant (VStr apology))
    /\ sorry <> ""%string /\ apology <> ""%string.
Proof.
  intros Hu.
  destruct (chat_shape session message t u Hu) as [first [H1 Hrun]].
  cbv zeta in H1, Hrun.
  set (h1 := stored session ++ [plain user message]) in *.
  destruct (getChatResponse_run h1 (tools_for u) (Store t h1))
    as [r [E [Hkey Hfail]]].
  rewrite H1 in E. injection E as <-. cbn [trace] in Hfail.
  assert (Hplain :
    chat session message t
    = (Json200 (Some (plain assistant (cr_content first))),
       {| session_user := Some u;
          session_messages :=
            Some (slice_last 10 (h1 ++ [plain assistant (cr_content first)])) |},
       trace (after_call env MISTRAL_API_KEY h1 (tools_for u) (Store t h1))) ->
    exists last session' new,
      chat session message t = (Json200 (Some last), session', t ++ new)
      /\ (truthy MISTRAL_API_KEY = false -> last = plain assistant (VStr sorry))
      /\ (forall before r o,
            new = before ++ [Fetch r o] -> llm_failed o = true ->
            last = plain assistant (VStr sorry)
            \/ last = plain assistant (VStr apology))
      /\ sorry <> ""%string /\ apology <> ""%string).
  { intros Hchat. unfold after_call in Hchat.
    destruct (truthy MISTRAL_API_KEY) eqn:K; cbn [trace] in Hchat.
    - eexists. eexists. eexists. split; [exact Hchat|].
      split; [discriminate|]. split; [|split; discriminate].
      intros before r o Hnew Hf.
      apply (app_inj_tail [] before) in Hnew. destruct Hnew as [_ Hnew].
      injection Hnew as _ <-.
      destruct (Hfail Hf) as [-> | ->]; [now left | now right].
    - exists (plain assistant (cr_content first)). eexists. exists [].
      rewrite app_nil_r. split; [exact Hchat|].
      split; [intros _; now rewrite (Hkey eq_refl)|].
      split; [|split; discriminate].
      intros before r o Hnew. now destruct before. }
  destruct (toolCalls first) as [[|c cs]|] eqn:Htc;
    [apply Hplain, Hrun| |apply Hplain, Hrun].
  clear Hplain.
  pose proof (tool_calls_need_key _ _ _ _ _ _ _ H1 Htc) as K.
  destruct Hrun as [results [tool_events [final Hrun]]].
  cbv zeta in Hrun. destruct Hrun as [_ [_ [H2 [_ Hchat]]]].
  set (history := (h1 ++ [calls_turn (cr_content first) (c :: cs)])
                  ++ map tool_turn results) in *.
  set (s2 := Store _ history) in *.
  destruct (getChatResponse_run history None s2) as [r2 [E2 [_ Hfail2]]].
  rewrite H2 in E2. injection E2 as <-.
  unfold after_call in Hchat at 1. rewrite K in Hchat. cbn [trace messages] in Hchat.
  set (o2 := env (trace s2) (chat_request history None)) in *.
  unfold s2, after_call in Hchat. rewrite K in Hchat. cbn [trace] in Hchat.
  rewrite <- !app_assoc in Hchat. cbn [app] in Hchat.
  eexists. eexists. eexists.
  split; [exact Hchat|].
  split; [rewrite K; discriminate|split; [|split; discriminate]].
  intros before r o Hnew Hf.
  rewrite !app_comm_cons in Hnew.
  apply app_inj_tail in Hnew. destruct Hnew as [_ Hnew].
  injection Hnew as _ <-.
  destruct (Hfail2 Hf) as [-> | ->]; [now left | now right].
Qed.




(** C2, amended: after every exchange of a signed-in user the session
    holds the last ten turns of the exchange's log, the whole log when
    it has at most ten.  The cut is by position: when the first turn
    kept is not a tool turn, every tool turn kept has the assistant
    turn that issued it kept as well. *)
Theorem truncation_keeps_the_last_ten (session : Session) (message : value)
    (t : list event) (u : User) :
  session_user session = Some u ->
  let full := exchange_log env JSON_parse MISTRAL_API_KEY now_iso end_of_day_iso
                u session message t in
  exists last t',
    chat session message t
    = (Json200 (Some last),
       {| session_user := Some u;
          session_messages := Some (slice_last 10 full) |},
       t')
    /\ length (slice_last 10 full) <= 10
    /\ firstn (length full - 10) full ++ slice_last 10 full = full
    /\ (length full <= 10 -> slice_last 10 full = full)
    /\ (forall m, hd_error (slice_last 10 full) = Some m ->
                  is_tool m = false ->
                  pairing_kept 10 full).
Proof.
  intros Hu full.
  destruct (chat_run session message t u Hu) as [last [t' [Hchat _]]].
  exists last, t'. split; [exact Hchat|].
  split; [apply slice_last_length|]. split; [apply slice_last_suffix|].
  split; [apply slice_last_short|].
  intros m Hhd Hm. unfold slice_last in Hhd. rewrite hd_error_skipn in Hhd.
  exact (cut_outside_tool_run 10 _ m Hhd Hm).
Qed.


(** ** More on the route and its parts *)

(** X3: [handleToolCalls] sends nothing to the model and does not
    touch [messages], whatever the tools do: the requests to the model
    recorded are the same before and after, and it is entered once. *)
Theorem handleToolCalls_leaves_the_model_alone (tcs : list tool_call)
    (u : User) (s : store) :
  messages (snd (handleToolCalls tcs u s)) = messages s
  /\ mistral_requests (trace (snd (handleToolCalls tcs u s)))
     = mistral_requests (trace s)
  /\ calls fn_handleToolCalls (trace (snd (handleToolCalls tcs u s)))
     = calls fn_handleToolCalls (trace s) + 1.
Proof.
  destruct (handleToolCalls_run tcs u s)
    as [rs [s' [Hrun [_ [Hm [new [Ht Hquiet]]]]]]].
  rewrite Hrun. cbn [snd]. destruct (tool_events_quiet _ Hquiet) as [Hnone Hzero].
  split; [exact Hm|]. rewrite Ht. split.
  - rewrite mistral_requests_app. cbn [mistral_requests].
    rewrite Hnone. apply app_nil_r.
  - rewrite calls_app. unfold calls in *. cbn [filter is_call callee_eqb length].
    rewrite Hzero. reflexivity.
Qed.

Lemma bind_inv {S A B} (c : M S A) (k : A -> M S B) (s s' : S) (b : B) :
  bind c k s = (Ok b, s') ->
  exists a s1, c s = (Ok a, s1) /\ k a s1 = (Ok b, s').
Proof.
  unfold bind. destruct (c s) as [[a|e] s1]; [|discriminate].
  intros H. now exists a, s1.
Qed.

Lemma js_or_truthy (v w : value) : truthy w = true -> truthy (js_or v w) = true.
Proof. unfold js_or. now destruct (truthy v) eqn:E. Qed.

Lemma read_reply_truthy (r : response) (s s' : store) (x : chat_response) :
  read_reply JSON_parse r s = (Ok x, s') -> truthy (cr_content x) = true.
Proof.
  unfold read_reply. intros H.
  repeat (apply bind_inv in H; destruct H as [? [? [_ H]]]).
  injection H as <- _. now apply js_or_truthy.
Qed.

Lemma getChatResponse_truthy (msgs : list turn) (tools : option (list value))
    (s s' : store) (r : chat_response) :
  getChatResponse msgs tools s = (Ok r, s') -> truthy (cr_content r) = true.
Proof.
  unfold Server.getChatResponse, try_catch, bind.
  destruct (truthy MISTRAL_API_KEY); cbn [negb throw_if ret throw].
  - unfold fetch. destruct (env (trace s) (chat_request msgs tools)) as [m|resp].
    + intros H. injection H as <- _. reflexivity.
    + destruct (read_reply JSON_parse resp _) as [[x|e] s2] eqn:R; intros H;
        injection H as <- _; [|reflexivity].
      exact (read_reply_truthy _ _ _ _ R).
  - intros H. injection H as <- _. reflexivity.
Qed.

(** What [read_reply] makes of a success whose body holds an
    assistant message with calls that can be read. *)
Lemma read_reply_eq (resp : response) (data m : value)
    (tcs : option (list tool_call)) (s : store) :
  ok resp = true ->
  json resp = Some data ->
  fst (message_of data tt) = Ok m ->
  fst (parse_calls JSON_parse m s) = Ok tcs ->
  read_reply JSON_parse resp s
  = (Ok {| cr_content := js_or (prop_of m "content") (VStr apology);
           toolCalls := tcs |}, s).
Proof.
  intros Hok Hj Hm Hp. unfold read_reply, bind at 1. rewrite Hok.
  cbn [negb throw_if ret]. unfold bind at 1. unfold response_json. rewrite Hj.
  cbn [ret]. unfold bind at 1. rewrite message_of_indep, Hm.
  assert (Hc : parse_calls JSON_parse m s = (Ok tcs, s)).
  { pose proof (no_events_eq _ _ (keeps_parse_calls (fun _ => false) m s)) as Hs.
    destruct (parse_calls JSON_parse m s) as [x s1]. cbn [fst snd] in *.
    now subst. }
  unfold bind. rewrite Hc, EffFacts.opt_prop_ok, Hc.
  destruct (nullish m) eqn:Hn; [|reflexivity].
  destruct m; try discriminate Hn; reflexivity.
Qed.

(** Where the content of a reply that was read comes from. *)
Lemma read_reply_content (resp : response) (s s' : store) (x : chat_response) :
  read_reply JSON_parse resp s = (Ok x, s') ->
  exists data m,
    json resp = Some data
    /\ fst (message_of data tt) = Ok m
    /\ cr_content x = js_or (prop_of m "content") (VStr apology).
Proof.
  unfold read_reply, bind at 1. destruct (ok resp); cbn [negb throw_if ret throw];
    [|discriminate].
  unfold bind at 1. unfold response_json.
  destruct (json resp) as [data|]; cbn [ret throw]; [|discriminate].
  unfold bind at 1. rewrite message_of_indep.
  destruct (fst (message_of data tt)) as [m|e] eqn:Hm; [|discriminate].
  intros H. exists data, m. split; [reflexivity|]. split; [exact Hm|].
  apply bind_inv in H. destruct H as [tcs0 [s1 [_ H]]].
  apply bind_inv in H. destruct H as [c [s2 [Hc H]]].
  apply bind_inv in H. destruct H as [tcs [s3 [_ H]]].
  injection H as <- _. cbn [cr_content].
  rewrite EffFacts.opt_prop_ok in Hc. injection Hc as <- _.
  destruct (nullish m) eqn:Hn; [|reflexivity].
  destruct m; try discriminate Hn; reflexivity.
Qed.

(** X4: [getChatResponse] never throws, leaves the message array as it
    was, and its content is never empty: it is the model's content when
    that is truthy, and one of the two fixed sentences otherwise.  When
    the key is set and the provider answers with a success whose first
    choice holds a message with readable calls, the reply is that
    message's content, or the apology when the content is falsy,
    together with the parsed calls. *)
Theorem getChatResponse_content_is_never_empty (msgs : list turn)
    (tools : option (list value)) (s : store) :
  exists r s',
    getChatResponse msgs tools s = (Ok r, s')
    /\ messages s' = messages s
    /\ truthy (cr_content r) = true
    /\ (cr_content r = VStr sorry
        \/ cr_content r = VStr apology
        \/ exists resp data m,
             env (trace s) (chat_request msgs tools) = Responded resp
             /\ json resp = Some data
             /\ fst (message_of data tt) = Ok m
             /\ cr_content r = prop_of m "content")
    /\ (forall resp data m tcs,
          truthy MISTRAL_API_KEY = true ->
          env (trace s) (chat_request msgs tools) = Responded resp ->
          ok resp = true ->
          json resp = Some data ->
          fst (message_of data tt) = Ok m ->
          fst (parse_calls JSON_parse m s') = Ok tcs ->
          r = {| cr_content := js_or (prop_of m "content") (VStr apology);
                 toolCalls := tcs |}).
Proof.
  destruct (getChatResponse_run msgs tools s) as [r [Hrun _]].
  exists r. eexists. split; [exact Hrun|]. split; [apply after_call_messages|].
  split; [exact (getChatResponse_truthy _ _ _ _ _ Hrun)|].
  revert Hrun. unfold Server.getChatResponse, after_call, try_catch, bind.
  destruct (truthy MISTRAL_API_KEY) eqn:K; cbn [negb throw_if ret throw].
  2:{ intros H. injection H as <-. split; [now left | discriminate]. }
  unfold fetch. destruct (env (trace s) (chat_request msgs tools)) as [m|resp] eqn:E.
  { intros H. injection H as <-. split; [now left | discriminate]. }
  destruct (read_reply JSON_parse resp _) as [[x|e] s2] eqn:R;
    intros H; injection H as <- Hs2.
  - split.
    + destruct (read_reply_content _ _ _ _ R) as [data [m [Hj [Hm Hc]]]].
      rewrite Hc. unfold js_or. destruct (truthy (prop_of m "content"));
        [|now right; left].
      right. right. exists resp, data, m. now repeat split.
    + intros resp' data m tcs _ Hresp Hok Hj Hm Hp. injection Hresp as <-.
      rewrite (read_reply_eq resp data m tcs _ Hok Hj Hm Hp) in R.
      now injection R as <-.
  - split; [now left|].
    intros resp' data m tcs _ Hresp Hok Hj Hm Hp. injection Hresp as <-.
    rewrite (read_reply_eq resp data m tcs _ Hok Hj Hm Hp) in R. discriminate R.
Qed.


(** X5: an exchange sends at most two requests to the model and enters
    [handleToolCalls] at most once; only the first request can carry
    the tool schema, and it carries it exactly when the user has an
    access token. *)
Theorem exchange_requests (session : Session) (message : value)
    (t : list event) (u : User) :
  session_user session = Some u ->
  let schema := if truthy (accessToken u) then Some getToolDefinitions else None in
  exists rep session' new,
    chat session message t = (rep, session', t ++ new)
    /\ (map snd (mistral_requests new) = []
        \/ map snd (mistral_requests new) = [schema]
        \/ map snd (mistral_requests new) = [schema; None])
    /\ calls fn_handleToolCalls new <= 1.
Proof.
  intros Hu schema.
  assert (Hschema : offered (tools_for u) = schema).
  { unfold schema, tools_for. now destruct (truthy (accessToken u)). }
  destruct (chat_shape session message t u Hu) as [first [H1 Hrun]].
  cbv zeta in H1, Hrun.
  set (h1 := stored session ++ [plain user message]) in *.
  destruct (toolCalls first) as [[|c cs]|] eqn:Htc.
  1, 3: destruct Hrun as [_ Hchat]; unfold after_call in Hchat;
    destruct (truthy MISTRAL_API_KEY); cbn [trace] in Hchat;
    [ eexists; eexists; eexists; split; [exact Hchat|];
      split; [right; left; cbn; now rewrite Hschema | cbn; lia]
    | eexists; eexists; exists []; rewrite app_nil_r; split; [exact Hchat|];
      split; [now left | cbn; lia] ].
  pose proof (tool_calls_need_key _ _ _ _ _ _ _ H1 Htc) as K.
  destruct Hrun as [results [tool_events [final Hrun]]].
  cbv zeta in Hrun. destruct Hrun as [Hquiet [_ [_ [_ Hchat]]]].
  unfold after_call in Hchat. rewrite K in Hchat. cbn [trace messages] in Hchat.
  rewrite <- !app_assoc in Hchat. cbn [app] in Hchat.
  destruct (tool_events_quiet _ Hquiet) as [Hnone Hzero].
  eexists. eexists. eexists. split; [exact Hchat|]. split.
  - right. right. cbn [mistral_requests chat_request map snd].
    rewrite mistral_requests_app, Hnone, Hschema. reflexivity.
  - unfold calls in *. cbn [filter is_call callee_eqb chat_request length].
    rewrite filter_app, length_app, Hzero. cbn. lia.
Qed.

Lemma slice_last_snoc {A} (n : nat) (l : list A) (x : A) :
  slice_last (S n) (l ++ [x]) = slice_last n l ++ [x].
Proof.
  unfold slice_last. rewrite length_app. cbn [length].
  replace (length l + 1 - S n) with (length l - n) by lia.
  rewrite skipn_app.
  replace (length l - n - length l) with 0 by lia. reflexivity.
Qed.

(** X6: every exchange of a signed-in user answers with an assistant
    turn whose content is never empty and that carries no tool call,
    and leaves a session that ends with this very turn, after at most
    nine earlier turns. *)
Theorem session_ends_with_the_reply (session : Session) (message : value)
    (t : list event) (u : User) :
  session_user session = Some u ->
  exists c kept t',
    chat session message t
    = (Json200 (Some (plain assistant c)),
       {| session_user := Some u;
          session_messages := Some (kept ++ [plain assistant c]) |},
       t')
    /\ truthy c = true
    /\ length kept <= 9.
Proof.
  intros Hu.
  destruct (chat_shape session message t u Hu) as [first [H1 Hrun]].
  cbv zeta in H1, Hrun.
  set (h1 := stored session ++ [plain user message]) in *.
  assert (Hfirst : truthy (cr_content first) = true)
    by exact (getChatResponse_truthy _ _ _ _ _ H1).
  destruct (toolCalls first) as [[|c cs]|] eqn:Htc.
  1, 3: destruct Hrun as [_ Hchat]; rewrite slice_last_snoc in Hchat;
    eexists; eexists; eexists; split; [exact Hchat|]; split; [exact Hfirst|];
    apply slice_last_length.
  destruct Hrun as [results [tool_events [final Hrun]]].
  cbv zeta in Hrun. destruct Hrun as [_ [_ [H2 [_ Hchat]]]].
  rewrite slice_last_snoc in Hchat.
  eexists. eexists. eexists. split; [exact Hchat|]. split; [|apply slice_last_length].
  exact (getChatResponse_truthy _ _ _ _ _ H2).
Qed.


End Chat.


(** ** What formatMessages skips *)

(** C5, where the code departs from it.  The second request of an
    exchange with three tool calls carries [sample_history]: the user
    turn, the assistant turn bearing the three calls and the three tool
    turns, each paired with that assistant turn, so that the claim
    forwards all five.  [formatMessages] forwards the first tool turn
    only, and that is what the route sends.  In general: when an
    assistant turn bearing tool calls is followed by several tool
    turns, each of them is paired with it, and [formatMessages] still
    forwards the first and skips the others, because [lastRole] is
    ['tool'] once a tool turn has been forwarded. *)
Theorem later_tool_turns_of_a_reply_are_dropped :
  map (issuer sample_history) [2; 3; 4] = [Some 1; Some 1; Some 1]
  /\ forwarded sample_history = sample_history
  /\ formatMessages sample_history = sent_history
  /\ formatMessages sample_history <> map format_one (forwarded sample_history)
  /\ nth_error
       (map fst
          (mistral_requests
             (snd (chat sample_world sample_parse (VStr "sk-sample") "" ""
                     (signed_in None) (VStr "Delete my 3pm and tell Bob") []))))
       1
     = Some (system_turn :: sent_history)
  /\ (forall (pre : list turn) (a t1 : turn) (ts : list turn),
        bears_calls a = true ->
        is_tool t1 = true ->
        forallb is_tool ts = true ->
        (forall k, k <= length ts ->
                   issuer (pre ++ a :: t1 :: ts) (length pre + 1 + k)
                   = Some (length pre))
        /\ formatMessages (pre ++ a :: t1 :: ts)
           = formatMessages (pre ++ [a]) ++ [format_one t1]).
Proof.
  split; [reflexivity|]. split; [reflexivity|]. split; [reflexivity|].
  split; [intros H; vm_compute in H; discriminate H|].
  split; [reflexivity|].
  intros pre a t1 ts Ha Ht1 Hts.
  assert (Hrun : forallb is_tool (t1 :: ts) = true)
    by (cbn [forallb]; now rewrite Ht1, Hts).
  split.
  - intros k Hk. unfold issuer.
    assert (Hnth : exists m, nth_error (pre ++ a :: t1 :: ts) (length pre + 1 + k)
                             = Some m /\ is_tool m = true).
    { rewrite nth_error_app2 by lia.
      replace (length pre + 1 + k - length pre) with (S k) by lia.
      cbn [nth_error].
      destruct (nth_error (t1 :: ts) k) as [m|] eqn:E.
      - exists m. split; [reflexivity|].
        rewrite forallb_forall in Hrun. apply Hrun.
        exact (nth_error_In _ _ E).
      - apply nth_error_None in E. cbn [length] in E. lia. }
    destruct Hnth as [m [-> Hm]]. rewrite Hm.
    rewrite firstn_app.
    replace (length pre + 1 + k - length pre) with (S k) by lia.
    rewrite firstn_all2 by lia. cbn [firstn].
    rewrite rev_app_distr. cbn [rev]. rewrite <- app_assoc. cbn [app].
    rewrite issuer_back_over_tools.
    + f_equal. rewrite length_rev, length_firstn. cbn [length] in *. lia.
    + rewrite forallb_forall. intros x Hx. apply In_rev in Hx.
      rewrite forallb_forall in Hrun. apply Hrun.
      rewrite <- (firstn_skipn k (t1 :: ts)). apply in_or_app. now left.
    + exact Ha.
    + rewrite length_rev, length_firstn. cbn [length] in *. lia.
  - assert (Has : is_assistant a = true)
      by (unfold bears_calls in Ha; now apply andb_true_iff in Ha).
    unfold formatMessages. rewrite (loop_past_assistant pre a _ Has).
    cbn [formatMessages_loop]. unfold is_tool in Ht1.
    assert (Hr : msg_role t1 = tool)
      by (destruct (msg_role t1); now try discriminate).
    rewrite Hr. cbn [role_eqb andb negb].
    apply loop_skips_later_tool_turns, Hts.
Qed.


(** ** Runs in the sample worlds *)

(** C2, as the specification words it, after three exchanges in
    [scripted_world]: the fourth exchange leaves a session that opens
    with tool turns and holds no assistant turn bearing tool calls; the
    cut has split the tool turns from the turn that issued them. *)
Lemma truncation_splits_tool_turns_from_their_issuer :
  ~ pairing_kept 10
      (exchange_log scripted_world sample_parse (VStr "sk-sample") "" ""
         sample_user (fst three_exchanges) (VStr "And tomorrow?")
         (snd three_exchanges)).
Proof.
  intros H. specialize (H 2 1). vm_compute in H.
  pose proof (H (le_n 2) eq_refl) as Hle. lia.
Qed.

Example fourth_exchange_stores_orphan_tool_turns :
  exists m rest,
    session_messages
      (fst (exchange_with scripted_world three_exchanges "And tomorrow?"))
    = Some (m :: rest)
    /\ is_tool m = true
    /\ forallb (fun x => negb (bears_calls x)) (m :: rest) = true.
Proof. eexists. eexists. split; [vm_compute; reflexivity|]. split; reflexivity. Qed.

(** The fourth exchange in [late_tools_world]: the log has twelve
    turns, the cut falls on the user turn of the second exchange, and
    the three tool turns of the third exchange are kept together with
    the assistant turn that issued them. *)
Lemma truncation_keeps_the_last_ten_witness :
  session_user (fst late_exchanges) = Some sample_user
  /\ length (exchange_log late_tools_world sample_parse (VStr "sk-sample") "" ""
               sample_user (fst late_exchanges) (VStr "And tomorrow?")
               (snd late_exchanges)) = 12
  /\ map (issuer (exchange_log late_tools_world sample_parse (VStr "sk-sample")
                    "" "" sample_user (fst late_exchanges)
                    (VStr "And tomorrow?") (snd late_exchanges)))
       [6; 7; 8]
     = [Some 5; Some 5; Some 5]
  /\ pairing_kept 10
       (exchange_log late_tools_world sample_parse (VStr "sk-sample") "" ""
          sample_user (fst late_exchanges) (VStr "And tomorrow?")
          (snd late_exchanges)).
Proof.
  split; [reflexivity|]. split; [reflexivity|]. split; [reflexivity|].
  destruct (truncation_keeps_the_last_ten late_tools_world sample_parse
              (VStr "sk-sample") "" "" (fst late_exchanges)
              (VStr "And tomorrow?") (snd late_exchanges)
              sample_user eq_refl)
    as [last [t' [_ [_ [_ [_ H]]]]]].
  apply (H (plain user (VStr "Thanks"))); reflexivity.
Defined.


(** In [sample_world] the first call fails, Gmail's list being down, and
    the second still runs. *)
Lemma one_tool_turn_per_request_witness :
  exists s',
    handleToolCalls sample_world "" "" [failing_call; delete_call] sample_user
      (Store [] [])
    = (Ok [ {| toolCallId := VStr "call_0"; tr_name := VStr "get_emails";
               result := VUndef; error := VStr "ECONNRESET" |};
            {| toolCallId := VStr "call_2";
               tr_name := VStr "delete_calendar_event";
               result := deleted; error := VUndef |} ], s').
Proof.
  destruct (proj1 (one_tool_turn_per_request sample_world sample_parse
                     (VStr "sk-sample") "" "")
              sample_user [failing_call; delete_call] (Store [] []))
    as [results [s' [Hrun _]]].
  exists s'. rewrite Hrun. cbn in Hrun. injection Hrun as <- _. reflexivity.
Defined.


(** The first exchange in [sample_world]: three tools, two requests to
    the model, the second without tools. *)
Lemma second_call_offers_no_tools_witness :
  exists answer session' o1 tool_events history o2,
    chat sample_world sample_parse (VStr "sk-sample") "" ""
      (signed_in None) (VStr "Delete my 3pm and tell Bob") []
    = (Json200 (Some (plain assistant answer)), session',
       [] ++ Fetch (chat_request
                      (stored (signed_in None)
                       ++ [plain user (VStr "Delete my 3pm and tell Bob")])
                      (tools_for sample_user)) o1
             :: Call fn_handleToolCalls
             :: tool_events ++ [Fetch (chat_request history None) o2])
    /\ forallb tool_event tool_events = true
    /\ map snd (mistral_requests
                  (Fetch (chat_request
                            (stored (signed_in None)
                             ++ [plain user (VStr "Delete my 3pm and tell Bob")])
                            (tools_for sample_user)) o1
                   :: Call fn_handleToolCalls
                   :: tool_events ++ [Fetch (chat_request history None) o2]))
       = [offered (tools_for sample_user); None]
    /\ calls fn_handleToolCalls
         (Fetch (chat_request
                   (stored (signed_in None)
                    ++ [plain user (VStr "Delete my 3pm and tell Bob")])
                   (tools_for sample_user)) o1
          :: Call fn_handleToolCalls
          :: tool_events ++ [Fetch (chat_request history None) o2])
       = 1.
Proof.
  exact (second_call_offers_no_tools sample_world sample_parse (VStr "sk-sample")
           "" "" (signed_in None) (VStr "Delete my 3pm and tell Bob") []
           sample_user sample_first unknown_call [delete_call; bare_send_call]
           eq_refl eq_refl eq_refl).
Defined.

(** In [down_world] the request to the model is rejected and the user
    is answered with a fixed sentence. *)
Lemma failed_llm_call_yields_fixed_apology_witness :
  llm_failed (down_world [] (chat_request [plain user (VStr "Hello")]
                               (tools_for sample_user))) = true
  /\ exists last,
       fst (fst (chat down_world sample_parse (VStr "sk-sample") "" ""
                   (signed_in None) (VStr "Hello") []))
       = Json200 (Some last)
       /\ (last = plain assistant (VStr sorry)
           \/ last = plain assistant (VStr apology)).
Proof.
  split; [reflexivity|].
  destruct (failed_llm_call_yields_fixed_apology down_world sample_parse
              (VStr "sk-sample") "" "" (signed_in None) (VStr "Hello") []
              sample_user eq_refl)
    as [last [session' [new [Hchat [_ [Hfail _]]]]]].
  exists last. split; [now rewrite Hchat|].
  cbn in Hchat. injection Hchat as _ _ Hnew.
  apply (Hfail [] _ _ (eq_sym Hnew)). reflexivity.
Defined.



(** ** More runs in the sample worlds *)

(** The first exchange in [sample_world]: two requests to the model,
    the first with the schema, and one entry into [handleToolCalls]. *)
Lemma exchange_requests_witness :
  session_user (signed_in None) = Some sample_user
  /\ exists rep session' new,
       chat sample_world sample_parse (VStr "sk-sample") "" ""
         (signed_in None) (VStr "Delete my 3pm and tell Bob") []
       = (rep, session', [] ++ new)
       /\ (map snd (mistral_requests new) = []
           \/ map snd (mistral_requests new) = [Some getToolDefinitions]
           \/ map snd (mistral_requests new) = [Some getToolDefinitions; None])
       /\ calls fn_handleToolCalls new <= 1.
Proof.
  split; [reflexivity|].
  exact (exchange_requests sample_world sample_parse (VStr "sk-sample") "" ""
           (signed_in None) (VStr "Delete my 3pm and tell Bob") []
           sample_user eq_refl).
Defined.

(** The same exchange ends with the model's second answer. *)
Lemma session_ends_with_the_reply_witness :
  session_user (signed_in None) = Some sample_user
  /\ exists c kept t',
       chat sample_world sample_parse (VStr "sk-sample") "" ""
         (signed_in None) (VStr "Delete my 3pm and tell Bob") []
       = (Json200 (Some (plain assistant c)),
          {| session_user := Some sample_user;
             session_messages := Some (kept ++ [plain assistant c]) |},
          t')
       /\ truthy c = true
       /\ length kept <= 9.
Proof.
  split; [reflexivity|].
  exact (session_ends_with_the_reply sample_world sample_parse (VStr "sk-sample")
           "" "" (signed_in None) (VStr "Delete my 3pm and tell Bob") []
           sample_user eq_refl).
Defined.

(** In [plain_world] the reply is the model's text. *)
Lemma getChatResponse_content_is_never_empty_witness :
  exists s',
    getChatResponse plain_world sample_parse (VStr "sk-sample")
      [plain user (VStr "Hello")] None (Store [] [])
    = (Ok {| cr_content := VStr "Hello!"; toolCalls := None |}, s').
Proof.
  destruct (getChatResponse_content_is_never_empty plain_world sample_parse
              (VStr "sk-sample") [plain user (VStr "Hello")] None (Store [] []))
    as [r [s' [Hrun [_ [_ [_ Hmodel]]]]]].
  exists s'. rewrite Hrun. f_equal. f_equal.
  exact (Hmodel _ _ (VObj [("content", VStr "Hello!")]) None
           eq_refl eq_refl eq_refl eq_refl eq_refl eq_refl).
Defined.

(** A copy recipient given as text: [sendEmail] is entered and nothing
    is sent. *)
Lemma send_email_with_malformed_cc_sends_nothing_witness :
  nullish cc_as_text = false
  /\ truthy (prop_of cc_as_text "cc") = true
  /\ (forall l, prop_of cc_as_text "cc" <> VArr l)
  /\ exists m,
       handleToolCall sample_world "" ""
         sample_user (ToolCall (VStr "call_4") (VStr "send_email") cc_as_text)
         (Store [] [])
       = (Ok {| toolCallId := VStr "call_4"; tr_name := VStr "send_email";
                result := VUndef; error := VStr m |},
          Store ([] ++ [Call gmail_sendEmail]) []).
Proof.
  assert (H : forall l, prop_of cc_as_text "cc" <> VArr l)
    by (intros l E; discriminate E).
  split; [reflexivity|]. split; [reflexivity|]. split; [exact H|].
  exact (send_email_with_malformed_cc_sends_nothing sample_world "" ""
           cc_as_text (VStr "call_4") sample_user (Store [] [])
           eq_refl eq_refl H).
Defined.

(** [delete_calendar_event] enters [calendarService.deleteEvent]. *)
Lemma every_registered_tool_reaches_a_service_witness :
  In "delete_calendar_event" registered_names
  /\ nullish (VObj [("event_id", VStr "evt123")]) = false
  /\ exists c,
       c <> fn_handleToolCalls
       /\ starts_with (Call c)
            (dispatch sample_world "" "" (VStr "delete_calendar_event")
               (VObj [("event_id", VStr "evt123")]) sample_user).
Proof.
  assert (Hin : In "delete_calendar_event" registered_names)
    by (vm_compute; tauto).
  split; [exact Hin|]. split; [reflexivity|].
  exact (every_registered_tool_reaches_a_service sample_world "" ""
           "delete_calendar_event" (VObj [("event_id", VStr "evt123")])
           sample_user Hin eq_refl (or_introl eq_refl)).
Defined.



End ServerFacts.


(* ================================================================== *)
(** * Facts about the tool service *)
(* ================================================================== *)

Module ToolsFacts.
Import Tools.

Lemma startsWith_spec (sub s : string) :
  startsWith s sub = true <-> exists after, s = sub ++ after.
Proof.
  revert s. induction sub as [|a sub IH]; intros s; simpl.
  - split; [intros _; now exists s | reflexivity].
  - destruct s as [|b s]; simpl.
    + split; [discriminate | intros [after H]; discriminate].
    + rewrite andb_true_iff, Ascii.eqb_eq, IH. split.
      * intros [-> [after ->]]. now exists after.
      * intros [after H]. injection H as -> ->. split; [reflexivity | now exists after].
Qed.

Lemma includes_spec (sub s : string) :
  includes s sub = true <-> occurs_in sub s.
Proof.
  unfold occurs_in. induction s as [|c s IH].
  - simpl. rewrite orb_false_r, startsWith_spec. split.
    + intros [after H]. now exists "", after.
    + intros [before [after H]]. destruct before; simpl in H.
      * now exists after.
      * discriminate.
  - cbn [includes]. rewrite orb_true_iff, startsWith_spec, IH. split.
    + intros [[after H] | [before [after H]]].
      * now exists "", after.
      * exists (String c before), after. simpl. now rewrite H.
    + intros [before [after H]]. destruct before as [|b before]; simpl in H.
      * left. now exists after.
      * right. injection H as _ H. now exists before, after.
Qed.

Lemma includes_empty (s : string) : includes s "" = true.
Proof. destruct s; reflexivity. Qed.

Lemma search_In (query : string) (fn : IntegrationFunction) :
  In fn (searchIntegrationFunction query) <-> In fn functions /\ matches query fn.
Proof.
  unfold searchIntegrationFunction, matches.
  rewrite filter_In, !orb_true_iff, !includes_spec. tauto.
Qed.

(** ** Dispatch *)

Section Dispatch.

Variable User : Type.
Variable world : list invocation -> User -> method -> list value -> res value.

Lemma any_missing_three (ps : value) (a b c : string) (t : list invocation) :
  nullish ps = false ->
  any_missing ps [a; b; c] t
  = (Ok (negb (truthy (prop_of ps a) && truthy (prop_of ps b)
               && truthy (prop_of ps c))), t).
Proof.
  intros H. cbn [any_missing]. unfold bind.
  rewrite (EffFacts.get_prop_ok ps a t H).
  destruct (truthy (prop_of ps a)); [|reflexivity]. cbn [negb andb].
  rewrite (EffFacts.get_prop_ok ps b t H).
  destruct (truthy (prop_of ps b)); [|reflexivity]. cbn [negb andb].
  rewrite (EffFacts.get_prop_ok ps c t H).
  destruct (truthy (prop_of ps c)); reflexivity.
Qed.

(** A [sendEmail] call with all three parameters reaches
    [gmailService.sendEmail] once, and nothing else. *)
Lemma sendEmail_complete (ps : value) (u : User) (t : list invocation) :
  nullish ps = false ->
  truthy (prop_of ps "to") && truthy (prop_of ps "subject")
    && truthy (prop_of ps "body") = true ->
  let args := [prop_of ps "to"; prop_of ps "subject"; prop_of ps "body"] in
  let o := world t u gmail_sendEmail args in
  callIntegrationFunction User world (VStr "sendEmail") ps u t
  = (o, (t ++ [Invocation gmail_sendEmail args o])%list).
Proof.
  intros Hn Hall. unfold callIntegrationFunction.
  cbn -[any_missing get_prop].
  unfold require_all, bind.
  rewrite (any_missing_three ps _ _ _ t Hn), Hall. cbn [negb throw_if ret].
  rewrite !EffFacts.get_prop_ok by assumption. reflexivity.
Qed.

(** A [sendEmail] call with a parameter missing or empty throws before
    any collaborator is called. *)
Lemma sendEmail_incomplete (ps : value) (u : User) (t : list invocation) :
  nullish ps = false ->
  truthy (prop_of ps "to") && truthy (prop_of ps "subject")
    && truthy (prop_of ps "body") = false ->
  callIntegrationFunction User world (VStr "sendEmail") ps u t
  = (Throw (Error "Missing required parameters: to, subject, body"), t).
Proof.
  intros Hn Hall. unfold callIntegrationFunction.
  cbn -[any_missing get_prop].
  unfold require_all, bind.
  rewrite (any_missing_three ps _ _ _ t Hn), Hall. reflexivity.
Qed.

(** A name outside the catalog throws before any collaborator is
    called. *)
Lemma unknown_function (nm ps : value) (u : User) (t : list invocation) :
  (forall n, nm = VStr n -> ~ In n (map name functions)) ->
  callIntegrationFunction User world nm ps u t
  = (Throw (Error ("Function " ++ to_js_string nm ++ " not found")), t).
Proof.
  intros Hout. unfold callIntegrationFunction.
  assert (Hfind : find_function nm = None).
  { unfold find_function.
    destruct (find (fun f => name_is nm (name f)) functions) as [f|] eqn:E;
      [|reflexivity].
    apply find_some in E. destruct E as [Hf Hname]. exfalso.
    destruct nm as [| | | |n| |]; try discriminate Hname. simpl in Hname.
    apply String.eqb_eq in Hname. subst n.
    apply (Hout (name f) eq_refl). now apply in_map. }
  now rewrite Hfind.
Qed.

End Dispatch.


(** ** More on dispatch *)

Section MoreDispatch.

Variable User : Type.
Variable world : list invocation -> User -> method -> list value -> res value.

Lemma any_missing_eq (ps : value) (keys : list string) (t : list invocation) :
  nullish ps = false ->
  any_missing ps keys t
  = (Ok (negb (forallb (fun k => truthy (prop_of ps k)) keys)), t).
Proof.
  intros Hn. induction keys as [|k keys IH]; [reflexivity|].
  cbn [any_missing forallb]. unfold bind.
  rewrite (EffFacts.get_prop_ok ps k t Hn).
  destruct (truthy (prop_of ps k)); [exact IH | reflexivity].
Qed.

Ltac enter_call :=
  unfold callIntegrationFunction; cbn -[any_missing get_prop];
  unfold require_all, bind.

Ltac read_all Hn :=
  repeat (cbn [negb throw_if ret throw];
          first [ rewrite (any_missing_eq _ _ _ Hn)
                | rewrite (EffFacts.get_prop_ok _ _ _ Hn) ]);
  cbn [negb throw_if ret throw].

Ltac checked_call Hn E :=
  enter_call; rewrite (any_missing_eq _ _ _ Hn); cbn [forallb];
  rewrite !andb_true_r, E; read_all Hn.

(** X9: the checks of [callIntegrationFunction] are those the catalog
    announces.  For every descriptor and every parameter object: when
    all the parameters the descriptor marks required are present and
    non-empty, exactly one method of a collaborator is invoked; when
    one is missing or empty, the call throws the missing-parameter
    error that lists them and no collaborator is invoked. *)
Theorem validation_follows_the_catalog (fn : IntegrationFunction) (ps : value)
    (u : User) (t : list invocation) :
  In fn functions ->
  nullish ps = false ->
  if forallb (fun k => truthy (prop_of ps k)) (required_of fn)
  then exists m args,
         snd (callIntegrationFunction User world (VStr (name fn)) ps u t)
         = (t ++ [Invocation m args (world t u m args)])%list
  else callIntegrationFunction User world (VStr (name fn)) ps u t
       = (Throw (Error (missing_message (required_of fn))), t).
Proof.
  intros Hin Hn. cbn in Hin.
  repeat (destruct Hin as [<- | Hin]); [..|contradiction];
    cbn [required_of parameters name map filter fst snd optional includes
         startsWith negb orb andb Ascii.eqb Bool.eqb forallb].
  - enter_call. read_all Hn. eexists. eexists. reflexivity.
  - rewrite !andb_true_r.
    destruct (truthy (prop_of ps "to") && (truthy (prop_of ps "subject")
              && truthy (prop_of ps "body"))) eqn:E;
      checked_call Hn E; [eexists; eexists; reflexivity | reflexivity].
  - rewrite !andb_true_r. destruct (truthy (prop_of ps "query")) eqn:E;
      checked_call Hn E; [eexists; eexists; reflexivity | reflexivity].
  - enter_call. read_all Hn. eexists. eexists. reflexivity.
  - enter_call. eexists. eexists. reflexivity.
  - rewrite !andb_true_r.
    destruct (truthy (prop_of ps "summary") && (truthy (prop_of ps "start")
              && truthy (prop_of ps "end"))) eqn:E;
      checked_call Hn E; [eexists; eexists; reflexivity | reflexivity].
  - rewrite !andb_true_r.
    destruct (truthy (prop_of ps "eventId") && truthy (prop_of ps "updates")) eqn:E;
      checked_call Hn E; [eexists; eexists; reflexivity | reflexivity].
  - rewrite !andb_true_r. destruct (truthy (prop_of ps "eventId")) eqn:E;
      checked_call Hn E; [|reflexivity].
    exists calendar_deleteEvent, [prop_of ps "eventId"]. unfold invoke.
    destruct (world t u calendar_deleteEvent [prop_of ps "eventId"]); reflexivity.
Qed.

Lemma quiet_ret {A} (a : A) : quiet (ret a).
Proof. intros t. reflexivity. Qed.

Lemma quiet_throw {A} (e : exn) : quiet (@throw (list invocation) A e).
Proof. intros t. reflexivity. Qed.

Lemma quiet_bind {A B} (c : M (list invocation) A) (k : A -> M (list invocation) B) :
  quiet c -> (forall a, quiet (k a)) -> quiet (bind c k).
Proof.
  intros Hc Hk t. unfold bind. specialize (Hc t).
  destruct (c t) as [[a|e] t1]; cbn [snd] in *; subst t1; [apply Hk | reflexivity].
Qed.

Lemma quiet_get_prop (v : value) (k : string) : quiet (get_prop v k).
Proof. intros t. apply EffFacts.get_prop_store. Qed.

Lemma quiet_any_missing (ps : value) (keys : list string) :
  quiet (any_missing ps keys).
Proof.
  induction keys as [|k keys IH]; [apply quiet_ret|]. cbn [any_missing].
  apply quiet_bind; [apply quiet_get_prop|]. intros v.
  destruct (negb (truthy v)); [apply quiet_ret | exact IH].
Qed.

Lemma quiet_require_all (ps : value) (keys : list string) (msg : string) :
  quiet (require_all ps keys msg).
Proof.
  unfold require_all. apply quiet_bind; [apply quiet_any_missing|].
  intros b. destruct b; [apply quiet_throw | apply quiet_ret].
Qed.

Lemma once_quiet {A} (c : M (list invocation) A) : quiet c -> at_most_once c.
Proof.
  intros Hc t. exists []. rewrite Hc, app_nil_r. split; [reflexivity | cbn; lia].
Qed.

Lemma once_invoke (m : method) (u : User) (args : list value) :
  at_most_once (invoke User world m u args).
Proof. intros t. eexists. split; [reflexivity | cbn; lia]. Qed.

Lemma once_after {A B} (c : M (list invocation) A) (k : A -> M (list invocation) B) :
  quiet c -> (forall a, at_most_once (k a)) -> at_most_once (bind c k).
Proof.
  intros Hc Hk t. unfold bind. specialize (Hc t).
  destruct (c t) as [[a|e] t1]; cbn [snd] in *; subst t1; [apply Hk|].
  exists []. rewrite app_nil_r. split; [reflexivity | cbn; lia].
Qed.

Lemma once_before {A B} (c : M (list invocation) A) (k : A -> M (list invocation) B) :
  at_most_once c -> (forall a, quiet (k a)) -> at_most_once (bind c k).
Proof.
  intros Hc Hk t. unfold bind. destruct (Hc t) as [new [Ht Hlen]].
  destruct (c t) as [[a|e] t1]; cbn [snd] in *; subst t1.
  - exists new. now rewrite Hk.
  - now exists new.
Qed.

(** X10: whatever the name and the parameters, one call of
    [callIntegrationFunction] invokes at most one method of a
    collaborator, and only adds to the record of invocations. *)
Theorem one_call_one_invocation_at_most (nm ps : value) (u : User) :
  at_most_once (callIntegrationFunction User world nm ps u).
Proof.
  unfold callIntegrationFunction.
  destruct (find_function nm); [|apply once_quiet, quiet_throw].
  repeat match goal with
         | |- at_most_once (if name_is ?a ?b then _ else _) =>
             destruct (name_is a b)
         end;
    try (apply once_quiet, quiet_throw);
    repeat first [ apply once_invoke
                 | apply once_after;
                   [first [apply quiet_get_prop | apply quiet_require_all]
                   | intros ?] ].
  apply once_before; [apply once_invoke | intros; apply quiet_ret].
Qed.

(** X11: [deleteCalendarEvent] with an event id reports [{success:
    true}] whenever the collaborator returns, discarding what it
    returned, and passes on the error when it throws. *)
Theorem delete_reports_what_the_collaborator_did (ps : value) (u : User)
    (t : list invocation) :
  nullish ps = false ->
  truthy (prop_of ps "eventId") = true ->
  callIntegrationFunction User world (VStr "deleteCalendarEvent") ps u t
  = (match world t u calendar_deleteEvent [prop_of ps "eventId"] with
     | Ok _ => Ok (VObj [("success", VBool true)])
     | Throw e => Throw e
     end,
     (t ++ [Invocation calendar_deleteEvent [prop_of ps "eventId"]
              (world t u calendar_deleteEvent [prop_of ps "eventId"])])%list).
Proof.
  intros Hn E. enter_call. rewrite (any_missing_eq _ _ _ Hn). cbn [forallb].
  rewrite !andb_true_r, E. read_all Hn. unfold invoke.
  destruct (world t u calendar_deleteEvent [prop_of ps "eventId"]); reflexivity.
Qed.


End MoreDispatch.


(** ** The registry search *)

(** C6, as the specification words it, at the empty query: the search
    does not come back empty. *)
Lemma search_empty_query_not_empty : searchIntegrationFunction "" <> [].
Proof. vm_compute. discriminate. Qed.

(** C6, amended: [searchIntegrationFunction] returns exactly the
    descriptors of the catalog whose name, description or category
    contains the query, letter case apart; a query that matches no
    descriptor gives the empty list; the empty query, which every text
    contains, gives the whole catalog.  The function is total: there is
    no error case. *)
Theorem search_returns_the_matching_descriptors (query : string) :
  (forall fn, In fn (searchIntegrationFunction query)
              <-> In fn functions /\ matches query fn)
  /\ ((forall fn, In fn functions -> ~ matches query fn)
      -> searchIntegrationFunction query = [])
  /\ searchIntegrationFunction "" = functions.
Proof.
  split; [apply search_In | split].
  - intros Hnone.
    destruct (searchIntegrationFunction query) as [|fn l] eqn:E; [reflexivity|].
    exfalso. assert (Hin : In fn (searchIntegrationFunction query))
      by (rewrite E; now left).
    apply search_In in Hin. destruct Hin as [Hin Hm]. exact (Hnone fn Hin Hm).
  - reflexivity.
Qed.

(** No descriptor of the catalog matches [zzz]. *)
Lemma no_match_zzz : forall fn, In fn functions -> ~ matches "zzz" fn.
Proof.
  intros fn Hin Hm.
  assert (Hs : In fn (searchIntegrationFunction "zzz")) by (apply search_In; auto).
  vm_compute in Hs. exact Hs.
Defined.

(** A query that occurs nowhere in the catalog. *)
Lemma search_returns_the_matching_descriptors_witness :
  (forall fn, In fn functions -> ~ matches "zzz" fn)
  /\ searchIntegrationFunction "zzz" = [].
Proof.
  split; [exact no_match_zzz|].
  exact (proj1 (proj2 (search_returns_the_matching_descriptors "zzz")) no_match_zzz).
Defined.

Lemma toLowerCase_app (a b : string) :
  toLowerCase (a ++ b) = toLowerCase a ++ toLowerCase b.
Proof. induction a as [|c a IH]; [reflexivity|]. simpl. now rewrite IH. Qed.

Lemma append_assoc (a b c : string) : (a ++ b) ++ c = a ++ b ++ c.
Proof. induction a as [|x a IH]; [reflexivity|]. simpl. now rewrite IH. Qed.

Lemma occurs_in_trans (a b c : string) :
  occurs_in a b -> occurs_in b c -> occurs_in a c.
Proof.
  intros [p1 [s1 ->]] [p2 [s2 ->]]. exists (p2 ++ p1), (s1 ++ s2).
  now rewrite !append_assoc.
Qed.

(** X12: a longer query finds no more: when [q1] occurs in [q2], every
    descriptor found for [q2] is found for [q1]. *)
Theorem longer_query_finds_no_more (q1 q2 : string) (fn : IntegrationFunction) :
  occurs_in q1 q2 ->
  In fn (searchIntegrationFunction q2) ->
  In fn (searchIntegrationFunction q1).
Proof.
  intros [p [s ->]] Hin. apply search_In in Hin. apply search_In.
  destruct Hin as [Hfn Hm]. split; [exact Hfn|].
  assert (Hocc : occurs_in (toLowerCase q1) (toLowerCase (p ++ q1 ++ s))).
  { exists (toLowerCase p), (toLowerCase s). now rewrite !toLowerCase_app. }
  unfold matches in *.
  destruct Hm as [H | [H | H]]; [left | right; left | right; right];
    exact (occurs_in_trans _ _ _ Hocc H).
Qed.


(** ** Runs in the sample world *)

(** A complete [sendEmail] call invokes one method. *)
Lemma validation_follows_the_catalog_witness :
  In sendEmail_descriptor functions
  /\ nullish mail_parameters = false
  /\ exists m args,
       snd (callIntegrationFunction unit accepting_world (VStr "sendEmail")
              mail_parameters tt [])
       = ([] ++ [Invocation m args (accepting_world [] tt m args)])%list.
Proof.
  assert (Hin : In sendEmail_descriptor functions) by (right; left; reflexivity).
  split; [exact Hin|]. split; [reflexivity|].
  exact (validation_follows_the_catalog unit accepting_world sendEmail_descriptor
           mail_parameters tt [] Hin eq_refl).
Defined.

(** A deletion the collaborator accepts. *)
Lemma delete_reports_what_the_collaborator_did_witness :
  nullish delete_parameters = false
  /\ truthy (prop_of delete_parameters "eventId") = true
  /\ fst (callIntegrationFunction unit accepting_world
            (VStr "deleteCalendarEvent") delete_parameters tt [])
     = Ok (VObj [("success", VBool true)]).
Proof.
  split; [reflexivity|]. split; [reflexivity|].
  rewrite (delete_reports_what_the_collaborator_did unit accepting_world
             delete_parameters tt [] eq_refl eq_refl).
  reflexivity.
Defined.

(** What [email] finds, [mail] finds. *)
Lemma longer_query_finds_no_more_witness :
  occurs_in "mail" "email"
  /\ In sendEmail_descriptor (searchIntegrationFunction "email")
  /\ In sendEmail_descriptor (searchIntegrationFunction "mail").
Proof.
  assert (Hocc : occurs_in "mail" "email") by (exists "e", ""; reflexivity).
  assert (Hin : In sendEmail_descriptor (searchIntegrationFunction "email"))
    by (vm_compute; tauto).
  split; [exact Hocc|]. split; [exact Hin|].
  exact (longer_query_finds_no_more "mail" "email" sendEmail_descriptor Hocc Hin).
Defined.



End ToolsFacts.

(* ================================================================== *)
(** * The two dispatchers side by side *)
(* ================================================================== *)

Module DispatchFacts.
Local Open Scope list_scope.

(** C7, amended.  In the tool service, a [sendEmail] call on a
    parameter object reaches [gmailService.sendEmail] exactly once, with
    [to], [subject] and [body], when the three are present and
    non-empty, and otherwise throws the missing-parameters error before
    any collaborator is called.  The server's [handleToolCalls] does not
    validate: a [send_email] call whose arguments are an object calls
    [gmailService.sendEmail] exactly once, whatever they hold. *)
Theorem send_email_validation (ps : value) :
  nullish ps = false ->
  (forall User world (u : User) t,
     let args := [prop_of ps "to"; prop_of ps "subject"; prop_of ps "body"] in
     if truthy (prop_of ps "to") && truthy (prop_of ps "subject")
        && truthy (prop_of ps "body")
     then Tools.callIntegrationFunction User world (VStr "sendEmail") ps u t
          = (world t u Tools.gmail_sendEmail args,
             t ++ [Tools.Invocation Tools.gmail_sendEmail args
                     (world t u Tools.gmail_sendEmail args)])
     else Tools.callIntegrationFunction User world (VStr "sendEmail") ps u t
          = (Throw (Error "Missing required parameters: to, subject, body"), t))
  /\ (forall env now_iso end_of_day_iso u i s,
        exists r s',
          Server.handleToolCall env now_iso end_of_day_iso u
            (Server.ToolCall i (VStr "send_email") ps) s
          = (Ok r, s')
          /\ Server.calls Server.gmail_sendEmail (Server.trace s')
             = Server.calls Server.gmail_sendEmail (Server.trace s) + 1).
Proof.
  intros Hn. split.
  - intros User world u t args.
    destruct (truthy (prop_of ps "to") && truthy (prop_of ps "subject")
              && truthy (prop_of ps "body")) eqn:Hall.
    + exact (ToolsFacts.sendEmail_complete User world ps u t Hn Hall).
    + exact (ToolsFacts.sendEmail_incomplete User world ps u t Hn Hall).
  - intros env now_iso end_of_day_iso u i s.
    rewrite ServerFacts.handleToolCall_eq. eexists. eexists.
    split; [reflexivity|].
    exact (ServerFacts.dispatch_send_email env now_iso end_of_day_iso ps u s Hn).
Qed.

(** A complete [sendEmail] call reaches the collaborator once. *)
Lemma send_email_validation_witness :
  nullish Tools.mail_parameters = false
  /\ Tools.invoked Tools.gmail_sendEmail
       (snd (Tools.callIntegrationFunction unit Tools.accepting_world
               (VStr "sendEmail") Tools.mail_parameters tt []))
     = 1.
Proof.
  split; [reflexivity|].
  rewrite (proj1 (send_email_validation Tools.mail_parameters eq_refl)
             unit Tools.accepting_world tt []).
  reflexivity.
Defined.

(** C8: a tool call under a name that is not registered is answered
    with an error text, not with an exception.  On the server the
    result is [{error: "Unknown tool call: <name>"}], its JSON text is
    the content of the call's tool turn, and the sibling calls yield the
    same results and leave the same store as without the unknown call.
    In the tool service the call throws [Function <name> not found]
    before any collaborator is called. *)
Theorem unknown_tool_is_reported (c : Server.tool_call) :
  (forall x, Server.tc_name c = VStr x -> ~ In x Server.registered_names) ->
  let text := ("Unknown tool call: " ++ to_js_string (Server.tc_name c))%string in
  let report := Server.turn_result c (Ok (VObj [("error", VStr text)])) in
  (forall env now_iso end_of_day_iso u pre post s,
     exists rpre rpost s',
       Server.handleToolCalls env now_iso end_of_day_iso (pre ++ post) u s
       = (Ok (rpre ++ rpost), s')
       /\ length rpre = length pre
       /\ Server.handleToolCalls env now_iso end_of_day_iso (pre ++ c :: post) u s
          = (Ok (rpre ++ report :: rpost), s'))
  /\ Server.tool_turn report
     = {| Server.msg_role := Server.tool;
          Server.content := JSON_stringify (VObj [("error", VStr text)]);
          Server.name := VUndef;
          Server.tool_calls := VUndef;
          Server.tool_call_id := Server.id c |}
  /\ (forall User world (u : User) ps t,
        (forall n, Server.tc_name c = VStr n -> ~ In n (map Tools.name Tools.functions)) ->
        Tools.callIntegrationFunction User world (Server.tc_name c) ps u t
        = (Throw (Error ("Function " ++ to_js_string (Server.tc_name c)
                         ++ " not found")%string), t)).
Proof.
  intros Hout text report. split; [|split].
  - intros env now_iso end_of_day_iso u pre post s.
    exact (ServerFacts.unknown_call_between env now_iso end_of_day_iso u pre post c s Hout).
  - reflexivity.
  - intros User world u ps t Hcat.
    exact (ToolsFacts.unknown_function User world (Server.tc_name c) ps u t Hcat).
Qed.

(** [foo_bar] is none of the six registered names. *)
Lemma foo_bar_not_registered :
  forall x, Server.tc_name Server.unknown_call = VStr x ->
            ~ In x Server.registered_names.
Proof.
  intros x Hx Hin. injection Hx as <-. vm_compute in Hin.
  repeat (destruct Hin as [Hin|Hin]; [discriminate Hin|]). exact Hin.
Defined.

(** [foo_bar] before a [delete_calendar_event] call in [sample_world]:
    the unknown call is reported and the other call yields what it
    yields alone. *)
Lemma unknown_tool_is_reported_witness :
  exists rest s',
    Server.handleToolCalls Server.sample_world "" ""
      [Server.unknown_call; Server.delete_call] Server.sample_user
      (Server.Store [] [])
    = (Ok (Server.turn_result Server.unknown_call
             (Ok (VObj [("error", VStr "Unknown tool call: foo_bar")]))
           :: rest), s')
    /\ Server.handleToolCalls Server.sample_world "" ""
         [Server.delete_call] Server.sample_user (Server.Store [] [])
       = (Ok rest, s')
    /\ Server.content
         (Server.tool_turn
            (Server.turn_result Server.unknown_call
               (Ok (VObj [("error", VStr "Unknown tool call: foo_bar")]))))
       = VStr ("{" ++ dquote ++ "error" ++ dquote ++ ":"
                   ++ dquote ++ "Unknown tool call: foo_bar" ++ dquote ++ "}")%string.
Proof.
  destruct (proj1 (unknown_tool_is_reported Server.unknown_call foo_bar_not_registered)
              Server.sample_world "" "" Server.sample_user [] [Server.delete_call]
              (Server.Store [] []))
    as [rpre [rpost [s' [Hwithout [Hlen Hwith]]]]].
  destruct rpre; [|discriminate Hlen].
  exists rpost, s'. split; [exact Hwith|]. split; [exact Hwithout | reflexivity].
Defined.

End DispatchFacts.

(* ================================================================== *)
(** * Facts about the assistant *)
(* ================================================================== *)

Module AssistantFacts.
Import Tools Assistant.
Local Open Scope list_scope.

(** ** getFallbackResponse *)

Lemma fallback_calendar (m : string) :
  mentions "calendar" m \/ mentions "event" m ->
  getFallbackResponse m = {| cr_content := VStr calendar_help; cr_toolCalls := None |}.
Proof.
  unfold mentions. rewrite <- !ToolsFacts.includes_spec, <- orb_true_iff.
  intros H. unfold getFallbackResponse. cbv zeta. now rewrite H.
Qed.

Lemma fallback_email (m : string) :
  ~ mentions "calendar" m -> ~ mentions "event" m ->
  mentions "email" m \/ mentions "gmail" m ->
  getFallbackResponse m = {| cr_content := VStr email_help; cr_toolCalls := None |}.
Proof.
  unfold mentions. rewrite <- !ToolsFacts.includes_spec, <- orb_true_iff.
  intros H1 H2 H. unfold getFallbackResponse. cbv zeta.
  apply not_true_is_false in H1, H2. now rewrite H1, H2, H.
Qed.

Lemma fallback_hello (m : string) :
  ~ mentions "calendar" m -> ~ mentions "event" m ->
  ~ mentions "email" m -> ~ mentions "gmail" m ->
  getFallbackResponse m = {| cr_content := VStr hello; cr_toolCalls := None |}.
Proof.
  unfold mentions. rewrite <- !ToolsFacts.includes_spec.
  intros H1 H2 H3 H4. unfold getFallbackResponse. cbv zeta.
  apply not_true_is_false in H1, H2, H3, H4. now rewrite H1, H2, H3, H4.
Qed.

Lemma fallback_truthy (m : string) :
  truthy (cr_content (getFallbackResponse m)) = true
  /\ cr_toolCalls (getFallbackResponse m) = None.
Proof.
  unfold getFallbackResponse. cbv zeta.
  destruct (_ || _); [now split|]. destruct (_ || _); now split.
Qed.

(** ** Computations that leave the store alone *)

Lemma inert_ret {St A} (a : A) : inert (@ret St A a).
Proof. intros s. reflexivity. Qed.

Lemma inert_throw {St A} (e : exn) : inert (@throw St A e).
Proof. intros s. reflexivity. Qed.

Lemma inert_bind {St A B} (c : M St A) (k : A -> M St B) :
  inert c -> (forall a, inert (k a)) -> inert (bind c k).
Proof.
  intros Hc Hk s. unfold bind. specialize (Hc s).
  destruct (c s) as [[a|e] s1]; cbn [snd] in *; subst; [apply Hk | reflexivity].
Qed.

Lemma inert_get_prop {St} (v : value) (k : string) : inert (@get_prop St v k).
Proof. intros s. now destruct v. Qed.

Lemma inert_opt_prop {St} (v : value) (k : string) : inert (@opt_prop St v k).
Proof. intros s. now destruct v. Qed.

Lemma inert_js_includes {St} (v : value) (w : string) :
  inert (@js_includes St v w).
Proof. intros s. now destruct v. Qed.

Lemma inert_each_from {St} (f : nat -> value -> M St string) (l : list value) :
  (forall i x, inert (f i x)) -> forall i, inert (each_from f i l).
Proof.
  intros Hf. induction l as [|x l IH]; intros i; cbn [each_from].
  - apply inert_ret.
  - apply inert_bind; [apply Hf | intros a].
    apply inert_bind; [apply IH | intros b; apply inert_ret].
Qed.

Ltac inert_auto :=
  repeat first
    [ apply inert_ret | apply inert_throw | apply inert_get_prop
    | apply inert_opt_prop | apply inert_js_includes
    | apply inert_bind; [|intros ?] ].

Lemma inert_formatToolResult {St} (f : value -> string) (n r : value) :
  inert (formatToolResult St f n r).
Proof.
  unfold formatToolResult.
  destruct (name_is n "searchIntegrationFunction").
  - destruct (_ || _); apply inert_ret.
  - apply inert_bind; [apply inert_js_includes | intros c].
    destruct c.
    + destruct r; try apply inert_ret. unfold formatCalendarEvents.
      destruct elems; [apply inert_ret|].
      apply inert_bind; [|intros; apply inert_ret].
      apply inert_each_from. intros i x. unfold event_lines. inert_auto.
    + apply inert_bind; [apply inert_js_includes | intros e].
      apply inert_bind; [destruct e; inert_auto | intros m].
      destruct m; [|apply inert_ret].
      destruct r; try apply inert_ret. unfold formatEmails.
      destruct elems; [apply inert_ret|].
      apply inert_bind; [|intros; apply inert_ret].
      apply inert_each_from. intros i x. unfold email_lines. inert_auto.
Qed.


(** ** The tool loop *)

Lemma for_each_app {St A} (f : A -> M St unit) (a b : list A) (s : St) :
  for_each f (a ++ b) s = (for_each f a ;;; for_each f b) s.
Proof.
  revert s. induction a as [|x a IH]; intros s; cbn [app for_each].
  - reflexivity.
  - unfold bind in *. destruct (f x s) as [[[]|e] s1]; [apply IH | reflexivity].
Qed.

Section Service.

Variable apiKey : string.
Variable JSON_parse : string -> option value.
Variable toLocaleString : value -> string.
Variable User : Type.
Variable world : list invocation -> User -> method -> list value -> res value.
Variable llm : list Message -> Server.fetch_outcome.

Local Abbreviation attempt := (Assistant.attempt toLocaleString User world).
Local Abbreviation run_tool_call :=
  (Assistant.run_tool_call JSON_parse toLocaleString User world).
Local Abbreviation read_reply :=
  (Assistant.read_reply JSON_parse toLocaleString User world).
Local Abbreviation getChatResponse :=
  (Assistant.getChatResponse apiKey JSON_parse toLocaleString User world llm).

Lemma run_tool_call_asks (user : User) (c n ps : value) (s : store) :
  asks_for JSON_parse c n ps -> run_tool_call user c s = attempt user n ps s.
Proof.
  intros [Hf [Hn Hp]]. subst n. unfold Assistant.run_tool_call, bind.
  assert (Hc : nullish c = false) by (destruct c; try reflexivity; discriminate Hf).
  rewrite (EffFacts.get_prop_ok c _ _ Hc).
  destruct (prop_of c "function") eqn:E; try discriminate Hf;
    cbn [name_and_arguments ret fst snd]; unfold parse; rewrite Hp; reflexivity.
Qed.

(** What [run_tool_call] does before the [try] changes nothing. *)
Lemma run_tool_call_cases (user : User) (c : value) (s : store) :
  (exists e, run_tool_call user c s = (Throw e, s))
  \/ (exists n ps, asks_for JSON_parse c n ps).
Proof.
  unfold Assistant.run_tool_call, bind, asks_for.
  destruct c; try (left; eexists; reflexivity);
    cbn [get_prop ret];
    (destruct (prop_of _ "function") eqn:E;
     try (left; eexists; reflexivity); cbn [name_and_arguments ret snd fst];
     unfold parse;
     match goal with
     | |- context [JSON_parse ?x] =>
         destruct (JSON_parse x) as [ps|] eqn:P;
         [ right; eexists; exists ps; try rewrite E;
           split; [reflexivity|]; split; [reflexivity|];
           first [exact P | reflexivity]
         | left; eexists; reflexivity ]
     end).
Qed.

(** The outcome of the statements of the [try] before the [push]:
    only the record of invocations can have changed. *)
Lemma result_frame (user : User) (n ps : value) (s : store) :
  exists r t,
    (if name_is n "searchIntegrationFunction" then
       query <- get_prop ps "query" ;;
       toolService_search query
     else if name_is n "callIntegrationFunction" then
       nm <- get_prop ps "name" ;;
       p <- get_prop ps "parameters" ;;
       on_tools (callIntegrationFunction User world nm p user)
     else ret VUndef) s
    = (r, Store (asked s) t (toolCalls s) (finalResponse s)).
Proof.
  destruct s as [a i c f]. cbn [asked toolCalls finalResponse].
  destruct (name_is n "searchIntegrationFunction").
  - unfold bind. destruct ps; cbn [get_prop ret throw];
      try (eexists; eexists; reflexivity);
      destruct (prop_of _ "query"); eexists; eexists; reflexivity.
  - destruct (name_is n "callIntegrationFunction");
      [|eexists; eexists; reflexivity].
    unfold bind. destruct ps; cbn [get_prop ret throw];
      try (eexists; eexists; reflexivity);
      unfold on_tools; cbn [invoked asked toolCalls finalResponse];
      match goal with
      | |- context [callIntegrationFunction ?U ?w ?x ?y ?u ?t] =>
          destruct (callIntegrationFunction U w x y u t) as [r t']
      end; eexists; eexists; reflexivity.
Qed.

(** From the [push] on: the call is recorded, and a sentence is added
    whether [formatToolResult] returns or throws. *)
Lemma finish_shape (n ps r : value) (s : store) :
  exists text,
    try_catch
      (push_call {| tc_name := n; tc_parameters := ps |} ;;;
       text <- formatToolResult store toLocaleString n r ;;
       add_text text)
      (fun error => add_text (error_text n error)) s
    = (Ok tt, Store (asked s) (invoked s)
                (toolCalls s ++ [ {| tc_name := n; tc_parameters := ps |} ])
                (finalResponse s ++ text)).
Proof.
  unfold try_catch, bind, push_call, add_text, modify.
  match goal with
  | |- context [formatToolResult ?St ?f ?a ?b ?s1] =>
      pose proof (inert_formatToolResult f a b s1) as Hi;
      destruct (formatToolResult St f a b s1) as [[text|e] s2]
  end; cbn [snd] in Hi; subst s2; eexists; reflexivity.
Qed.

Lemma attempt_shape (user : User) (n ps : value) (s : store) :
  exists t calls text,
    attempt user n ps s
    = (Ok tt, Store (asked s) t calls (finalResponse s ++ text))
    /\ (calls = toolCalls s
        \/ calls = toolCalls s ++ [ {| tc_name := n; tc_parameters := ps |} ]).
Proof.
  destruct (result_frame user n ps s) as [r [t HR]].
  unfold Assistant.attempt, try_catch, bind in *. rewrite HR.
  destruct r as [r|e].
  - destruct (finish_shape n ps r (Store (asked s) t (toolCalls s) (finalResponse s)))
      as [text Hf].
    unfold try_catch, bind in Hf. cbn [asked invoked toolCalls finalResponse] in Hf.
    exists t. eexists. exists text. split; [exact Hf | now right].
  - exists t, (toolCalls s). eexists. split; [reflexivity | now left].
Qed.

Lemma loop_shape (user : User) (items : list value) :
  Forall (fun c => exists n ps, asks_for JSON_parse c n ps) items ->
  forall s,
  exists t calls text,
    for_each (run_tool_call user) items s
    = (Ok tt, Store (asked s) t (toolCalls s ++ calls) (finalResponse s ++ text))
    /\ length calls <= length items.
Proof.
  induction 1 as [|c items [n [ps Hc]] _ IH]; intros s.
  - exists (invoked s), [], ""%string. rewrite app_nil_r.
    assert (E : (finalResponse s ++ "")%string = finalResponse s).
    { induction (finalResponse s) as [|x f IHf]; [reflexivity|].
      cbn. now rewrite IHf. }
    rewrite E. destruct s. split; [reflexivity | cbn; lia].
  - cbn [for_each]. unfold bind. rewrite (run_tool_call_asks user c n ps s Hc).
    destruct (attempt_shape user n ps s) as [t [calls [text [Ha Hcalls]]]].
    rewrite Ha.
    destruct (IH (Store (asked s) t calls (finalResponse s ++ text)))
      as [t' [calls' [text' [Hl Hlen]]]].
    rewrite Hl. cbn [asked toolCalls finalResponse].
    rewrite ToolsFacts.append_assoc.
    destruct Hcalls as [-> | ->].
    + exists t', calls', (text ++ text')%string. split; [reflexivity|].
      cbn [length]. lia.
    + exists t', ({| tc_name := n; tc_parameters := ps |} :: calls'),
        (text ++ text')%string.
      rewrite <- app_assoc. split; [reflexivity | cbn [length]; lia].
Qed.

Lemma run_tool_call_asked (user : User) (c : value) :
  keeps_asked (run_tool_call user c).
Proof.
  intros s. destruct (run_tool_call_cases user c s) as [[e H] | [n [ps H]]].
  - now rewrite H.
  - rewrite (run_tool_call_asks user c n ps s H).
    destruct (attempt_shape user n ps s) as [t [calls [text [Ha _]]]].
    now rewrite Ha.
Qed.

Lemma keeps_asked_inert {A} (c : M store A) : inert c -> keeps_asked c.
Proof. intros H s. now rewrite H. Qed.

Lemma keeps_asked_bind {A B} (c : M store A) (k : A -> M store B) :
  keeps_asked c -> (forall a, keeps_asked (k a)) -> keeps_asked (bind c k).
Proof.
  intros Hc Hk s. unfold bind. specialize (Hc s).
  destruct (c s) as [[a|e] s1]; cbn [snd] in *; [|exact Hc].
  now rewrite Hk.
Qed.

Lemma for_each_asked (user : User) (items : list value) :
  keeps_asked (for_each (run_tool_call user) items).
Proof.
  induction items as [|c items IH]; cbn [for_each].
  - intros s. reflexivity.
  - apply keeps_asked_bind; [apply run_tool_call_asked | intros _; exact IH].
Qed.

Lemma read_reply_asked (user : User) (r : Server.response) :
  keeps_asked (read_reply user r).
Proof.
  unfold Assistant.read_reply.
  apply keeps_asked_bind;
    [apply keeps_asked_inert; intros s; unfold throw_if;
     now destruct (negb (Server.ok r)) | intros _].
  apply keeps_asked_bind;
    [apply keeps_asked_inert; intros s; unfold response_json;
     now destruct (Server.json r) | intros data].
  apply keeps_asked_bind;
    [apply keeps_asked_inert, inert_get_prop | intros choices].
  apply keeps_asked_bind;
    [apply keeps_asked_inert; intros s; destruct choices; reflexivity
    | intros choice].
  apply keeps_asked_bind;
    [apply keeps_asked_inert, inert_get_prop | intros message].
  apply keeps_asked_bind;
    [apply keeps_asked_inert, inert_get_prop | intros tool_calls].
  destruct (truthy tool_calls).
  - apply keeps_asked_bind; [intros s; reflexivity | intros _].
    apply keeps_asked_bind;
      [apply keeps_asked_inert; intros s; destruct tool_calls; reflexivity
      | intros items].
    apply keeps_asked_bind; [apply for_each_asked | intros _].
    intros s. reflexivity.
  - apply keeps_asked_bind;
      [apply keeps_asked_inert, inert_get_prop | intros c].
    intros s. reflexivity.
Qed.

Lemma assistant_reply_truthy (user : User) (r : Server.response)
    (s s' : store) (x : ChatResponse) :
  read_reply user r s = (Ok x, s') -> truthy (cr_content x) = true.
Proof.
  unfold Assistant.read_reply. intros H.
  repeat (apply ServerFacts.bind_inv in H; destruct H as [? [? [_ H]]]).
  match type of H with
  | context [truthy ?v] => destruct (truthy v)
  end;
    repeat (apply ServerFacts.bind_inv in H; destruct H as [? [? [_ H]]]);
    injection H as <- _; apply ServerFacts.js_or_truthy; reflexivity.
Qed.

(** What [read_reply] comes to on a success that carries tool calls:
    the two locals are reset and the loop runs. *)
Lemma read_reply_offers (user : User) (r : Server.response)
    (items : list value) (s : store) :
  offers r items ->
  read_reply user r s
  = (for_each (run_tool_call user) items ;;;
     calls <- gets toolCalls ;;
     text <- gets finalResponse ;;
     ret {| cr_content :=
              js_or (VStr text) (VStr "I've executed the requested operations.");
            cr_toolCalls := Some calls |})
      (Store (asked s) (invoked s) [] "").
Proof.
  intros [Hok [data [choice [rest [Hj [Hc Ht]]]]]].
  unfold Assistant.read_reply, bind at 1. rewrite Hok. cbn [negb throw_if ret].
  unfold bind at 1. unfold response_json. rewrite Hj. cbn [ret].
  assert (Hd : nullish data = false) by (destruct data; try reflexivity; discriminate Hc).
  unfold bind at 1. rewrite (EffFacts.get_prop_ok data _ _ Hd), Hc.
  unfold bind at 1. cbn [get_index0 ret].
  assert (Hm : nullish (prop_of choice "message") = false)
    by (destruct (prop_of choice "message"); try reflexivity; discriminate Ht).
  assert (Hch : nullish choice = false)
    by (destruct choice; try reflexivity; discriminate Hm).
  unfold bind at 1. rewrite (EffFacts.get_prop_ok choice _ _ Hch).
  unfold bind at 1. rewrite (EffFacts.get_prop_ok _ _ _ Hm), Ht.
  cbn [truthy]. unfold bind at 1. cbn [modify]. unfold modify.
  unfold bind at 1. cbn [iterate ret]. reflexivity.
Qed.


(** ** What a caller of getChatResponse can rely on *)

(** X13: without an API key [getChatResponse] asks nobody and calls no
    tool: it answers with one of three fixed texts and no tool calls,
    chosen by the last message of the history, letter case apart: the
    calendar text when it mentions [calendar] or [event], else the mail
    text when it mentions [email] or [gmail], else the greeting. *)
Theorem without_a_key_the_answer_is_canned (messages : list Message)
    (user : User) (s : store) :
  apiKey = ""%string ->
  exists text,
    getChatResponse messages user s
    = (Ok {| cr_content := VStr text; cr_toolCalls := None |}, s)
    /\ (mentions "calendar" (last_content messages)
        \/ mentions "event" (last_content messages) -> text = calendar_help)
    /\ (~ mentions "calendar" (last_content messages) ->
        ~ mentions "event" (last_content messages) ->
        mentions "email" (last_content messages)
        \/ mentions "gmail" (last_content messages) -> text = email_help)
    /\ (~ mentions "calendar" (last_content messages) ->
        ~ mentions "event" (last_content messages) ->
        ~ mentions "email" (last_content messages) ->
        ~ mentions "gmail" (last_content messages) -> text = hello).
Proof.
  intros ->. unfold Assistant.getChatResponse. cbn [String.eqb ret].
  destruct (getFallbackResponse (last_content messages)) as [c tc] eqn:E.
  pose proof (fallback_truthy (last_content messages)) as [_ Hn].
  rewrite E in Hn. cbn [cr_toolCalls] in Hn. subst tc.
  assert (Hc : exists text, c = VStr text).
  { revert E. unfold getFallbackResponse. cbv zeta.
    destruct (_ || _); [intros E; injection E as <-; eauto|].
    destruct (_ || _); intros E; injection E as <-; eauto. }
  destruct Hc as [text ->]. exists text. split; [reflexivity|].
  repeat split.
  - intros H. rewrite (fallback_calendar _ H) in E. now injection E.
  - intros H1 H2 H. rewrite (fallback_email _ H1 H2 H) in E. now injection E.
  - intros H1 H2 H3 H4. rewrite (fallback_hello _ H1 H2 H3 H4) in E.
    now injection E.
Qed.

(** X14: [getChatResponse] never throws and never answers with empty
    content, whatever the provider and the tools do, and it sends at
    most one request to the provider: the history it was given. *)
Theorem assistant_always_answers (messages : list Message) (user : User)
    (s : store) :
  exists r s',
    getChatResponse messages user s = (Ok r, s')
    /\ truthy (cr_content r) = true
    /\ (asked s' = asked s \/ asked s' = asked s ++ [messages]).
Proof.
  unfold Assistant.getChatResponse.
  destruct (apiKey =? "")%string.
  - eexists. eexists. split; [reflexivity|].
    split; [apply fallback_truthy | now left].
  - unfold try_catch, bind, fetch_chat.
    destruct (llm messages) as [m|r].
    + eexists. eexists. split; [reflexivity|].
      split; [apply fallback_truthy | now right].
    + match goal with
      | |- context [read_reply user r ?s1] =>
          pose proof (read_reply_asked user r s1) as Ha;
          destruct (read_reply user r s1) as [[x|e] s2] eqn:R
      end; cbn [snd asked] in Ha.
      * exists x, s2. split; [reflexivity|].
        split; [exact (assistant_reply_truthy _ _ _ _ _ R) | now right].
      * eexists. exists s2. split; [reflexivity|].
        split; [apply fallback_truthy | now right].
Qed.

(** X15: one tool call whose arguments are not JSON abandons the whole
    reply: [getChatResponse] answers with the fallback text, the calls
    before it have run and stay run, the calls after it never run. *)
Theorem unparsable_arguments_abandon_the_reply (messages : list Message)
    (user : User) (s : store) (r : Server.response) (pre post : list value)
    (bad : value) :
  (apiKey =? "")%string = false ->
  llm messages = Server.Responded r ->
  offers r (pre ++ bad :: post) ->
  JSON_parse (to_js_string (prop_of (prop_of bad "function") "arguments")) = None ->
  getChatResponse messages user s
  = (Ok (getFallbackResponse (last_content messages)),
     snd (for_each (run_tool_call user) pre
            (Store (asked s ++ [messages]) (invoked s) [] ""))).
Proof.
  intros Hkey Hllm Hoff Hbad. unfold Assistant.getChatResponse. rewrite Hkey.
  unfold try_catch, bind at 1. unfold fetch_chat. rewrite Hllm.
  rewrite (read_reply_offers user r _ _ Hoff). cbn [asked invoked].
  unfold bind at 1. rewrite for_each_app. unfold bind at 1.
  destruct (for_each (run_tool_call user) pre _) as [[[]|e] s1]; [|reflexivity].
  cbn [for_each snd]. unfold bind at 1.
  destruct (run_tool_call_cases user bad s1) as [[e H] | [n [ps [_ [_ H]]]]].
  - now rewrite H.
  - rewrite Hbad in H. discriminate H.
Qed.

(** X16: a [callIntegrationFunction] tool call never stops the loop,
    and its sentence tells nothing of what the function returned: when
    the tool service returns, whatever it returns, the call is recorded
    and the sentence is that the operation completed; when it throws,
    the call is not recorded and the sentence carries the error. *)
Theorem integration_call_outcome (user : User) (c ps : value) (s : store) :
  asks_for JSON_parse c (VStr "callIntegrationFunction") ps ->
  nullish ps = false ->
  run_tool_call user c s
  = (Ok tt,
     match callIntegrationFunction User world (prop_of ps "name")
             (prop_of ps "parameters") user (invoked s) with
     | (Ok _, t) =>
         Store (asked s) t
           (toolCalls s ++ [ {| tc_name := VStr "callIntegrationFunction";
                                tc_parameters := ps |} ])
           (finalResponse s ++ "Operation completed successfully.")
     | (Throw e, t) =>
         Store (asked s) t (toolCalls s)
           (finalResponse s ++ "Error executing callIntegrationFunction: "
            ++ exn_message e)
     end).
Proof.
  intros Hc Hn. rewrite (run_tool_call_asks user c _ ps s Hc).
  unfold Assistant.attempt, try_catch, bind.
  cbn [name_is String.eqb Ascii.eqb Bool.eqb].
  rewrite !(EffFacts.get_prop_ok ps _ _ Hn). unfold on_tools.
  destruct (callIntegrationFunction User world _ _ user (invoked s))
    as [[v|e] t]; reflexivity.
Qed.

(** X17: a tool call under a name that is neither of the two tools runs
    nothing, and is still recorded among the tool calls and reported as
    completed successfully. *)
Theorem unknown_tool_is_reported_as_done (user : User) (c ps : value)
    (n : string) (s : store) :
  asks_for JSON_parse c (VStr n) ps ->
  n <> "searchIntegrationFunction"%string ->
  n <> "callIntegrationFunction"%string ->
  run_tool_call user c s
  = (Ok tt,
     Store (asked s) (invoked s)
       (toolCalls s ++ [ {| tc_name := VStr n; tc_parameters := ps |} ])
       (finalResponse s ++ completed n)).
Proof.
  intros Hc H1 H2. rewrite (run_tool_call_asks user c _ ps s Hc).
  apply String.eqb_neq in H1, H2.
  unfold Assistant.attempt, try_catch, bind, formatToolResult, completed.
  cbn [name_is]. rewrite H1, H2.
  cbn [ret push_call modify js_includes]. unfold bind.
  cbn [ret asked invoked toolCalls finalResponse].
  destruct (includes n "calendar"); [reflexivity|].
  cbn [ret]. destruct (includes n "email"); [reflexivity|].
  cbn [js_includes ret orb]. destruct (includes n "gmail"); reflexivity.
Qed.

(** X18: a [searchIntegrationFunction] tool call with a text query
    calls no collaborator, is recorded, and reports only how many
    descriptors the catalog search found, or that it found none. *)
Theorem search_call_reports_a_count (user : User) (c ps : value)
    (q : string) (s : store) :
  asks_for JSON_parse c (VStr "searchIntegrationFunction") ps ->
  prop_of ps "query" = VStr q ->
  run_tool_call user c s
  = (Ok tt,
     Store (asked s) (invoked s)
       (toolCalls s ++ [ {| tc_name := VStr "searchIntegrationFunction";
                            tc_parameters := ps |} ])
       (finalResponse s ++ found (searchIntegrationFunction q))).
Proof.
  intros Hc Hq. rewrite (run_tool_call_asks user c _ ps s Hc).
  assert (Hn : nullish ps = false) by (destruct ps; try reflexivity; discriminate Hq).
  unfold Assistant.attempt, try_catch, bind.
  cbn [name_is String.eqb Ascii.eqb Bool.eqb].
  rewrite (EffFacts.get_prop_ok ps _ _ Hn), Hq.
  cbn [toolService_search ret push_call modify].
  unfold formatToolResult. cbn [name_is String.eqb Ascii.eqb Bool.eqb].
  cbn [truthy negb orb length_of]. rewrite length_map.
  destruct (searchIntegrationFunction q) as [|fn l]; [reflexivity|].
  unfold is_zero.
  replace (Z.of_nat (length (fn :: l)) =? 0)%Z with false
    by (symmetry; apply Z.eqb_neq; cbn [length]; lia).
  reflexivity.
Qed.

(** X19: when every tool call of the reply names a function and carries
    arguments that parse, the answer comes from the tool loop whatever
    the tools do: its content is the loop's text, never empty, and its
    tool calls are at most as many as the reply's; one request went
    to the provider. *)
Theorem failing_tools_do_not_bring_the_fallback (messages : list Message)
    (user : User) (s : store) (r : Server.response) (items : list value) :
  (apiKey =? "")%string = false ->
  llm messages = Server.Responded r ->
  offers r items ->
  Forall (fun c => exists n ps, asks_for JSON_parse c n ps) items ->
  exists text calls s',
    getChatResponse messages user s
    = (Ok {| cr_content := VStr text; cr_toolCalls := Some calls |}, s')
    /\ text <> ""%string
    /\ length calls <= length items
    /\ asked s' = asked s ++ [messages].
Proof.
  intros Hkey Hllm Hoff Hwf. unfold Assistant.getChatResponse. rewrite Hkey.
  unfold try_catch, bind at 1. unfold fetch_chat. rewrite Hllm.
  rewrite (read_reply_offers user r _ _ Hoff). cbn [asked invoked].
  unfold bind at 1.
  destruct (loop_shape user items Hwf
              (Store (asked s ++ [messages]) (invoked s) [] ""))
    as [t [calls [text [Hl Hlen]]]].
  rewrite Hl. cbn [asked toolCalls finalResponse app].
  unfold bind, gets. cbn [ret toolCalls finalResponse asked].
  unfold js_or. cbn [truthy].
  destruct (String.eqb_spec ("" ++ text) "") as [E|E]; cbn [negb].
  - eexists. exists calls. eexists. split; [reflexivity|].
    split; [discriminate|]. now split.
  - exists (("" ++ text)%string), calls. eexists. split; [reflexivity|].
    split; [exact E|]. now split.
Qed.


End Service.


(** ** Runs in the sample world *)

(** A question about nothing in particular, without a key. *)
Lemma without_a_key_the_answer_is_canned_witness :
  exists text,
    getChatResponse "" sample_parse no_date unit accepting_world sample_llm
      question tt fresh
    = (Ok {| cr_content := VStr text; cr_toolCalls := None |}, fresh).
Proof.
  destruct (without_a_key_the_answer_is_canned "" sample_parse no_date unit
              accepting_world sample_llm question tt fresh eq_refl)
    as [text [H _]].
  exists text. exact H.
Defined.

Lemma sample_offers (calls : list value) : offers (reply_with calls) calls.
Proof.
  split; [reflexivity|]. eexists. eexists. eexists.
  split; [reflexivity|]. split; reflexivity.
Defined.

(** The message is sent, then the second call's arguments do not parse:
    the user is greeted as if nothing had happened. *)
Lemma unparsable_arguments_abandon_the_reply_witness :
  sample_parse (to_js_string (prop_of (prop_of bad_call "function") "arguments"))
  = None
  /\ exists s',
       getChatResponse "sk-sample" sample_parse no_date unit accepting_world
         sample_llm question tt fresh
       = (Ok {| cr_content := VStr hello; cr_toolCalls := None |}, s')
       /\ map inv_method (invoked s') = [gmail_sendEmail].
Proof.
  split; [reflexivity|].
  rewrite (unparsable_arguments_abandon_the_reply "sk-sample" sample_parse
             no_date unit accepting_world sample_llm question tt fresh
             (reply_with [good_call; bad_call]) [good_call] [] bad_call
             eq_refl eq_refl (sample_offers _) eq_refl).
  eexists. split; [reflexivity|]. reflexivity.
Defined.

Lemma good_call_asks :
  asks_for sample_parse good_call (VStr "callIntegrationFunction") send_request.
Proof. split; [reflexivity|]. split; reflexivity. Defined.

Lemma search_call_asks :
  asks_for sample_parse search_call (VStr "searchIntegrationFunction")
    search_request.
Proof. split; [reflexivity|]. split; reflexivity. Defined.

Lemma stray_call_asks :
  asks_for sample_parse stray_call (VStr "get_calendar_events") (VObj []).
Proof. split; [reflexivity|]. split; reflexivity. Defined.

(** Gmail accepts the message and its answer is not shown. *)
Lemma integration_call_outcome_witness :
  asks_for sample_parse good_call (VStr "callIntegrationFunction") send_request
  /\ nullish send_request = false
  /\ exists s',
       run_tool_call sample_parse no_date unit accepting_world tt good_call fresh
       = (Ok tt, s')
       /\ finalResponse s' = "Operation completed successfully."%string
       /\ map inv_method (invoked s') = [gmail_sendEmail].
Proof.
  split; [exact good_call_asks|]. split; [reflexivity|].
  rewrite (integration_call_outcome sample_parse no_date unit accepting_world
             tt good_call send_request fresh good_call_asks eq_refl).
  eexists. split; [reflexivity|]. split; reflexivity.
Defined.

(** A name of the other dispatcher: nothing runs and the calendar
    operation is said to have completed. *)
Lemma unknown_tool_is_reported_as_done_witness :
  asks_for sample_parse stray_call (VStr "get_calendar_events") (VObj [])
  /\ run_tool_call sample_parse no_date unit accepting_world tt stray_call fresh
     = (Ok tt,
        Store [] []
          [ {| tc_name := VStr "get_calendar_events"; tc_parameters := VObj [] |} ]
          "Calendar operation completed successfully.").
Proof.
  split; [exact stray_call_asks|].
  rewrite (unknown_tool_is_reported_as_done sample_parse no_date unit
             accepting_world tt stray_call (VObj []) "get_calendar_events" fresh
             stray_call_asks);
    [reflexivity | discriminate | discriminate].
Defined.

(** Nothing in the catalog matches [zzz]. *)
Lemma search_call_reports_a_count_witness :
  asks_for sample_parse search_call (VStr "searchIntegrationFunction")
    search_request
  /\ prop_of search_request "query" = VStr "zzz"
  /\ exists s',
       run_tool_call sample_parse no_date unit accepting_world tt search_call fresh
       = (Ok tt, s')
       /\ finalResponse s'
          = "I found no relevant functions for your request."%string.
Proof.
  split; [exact search_call_asks|]. split; [reflexivity|].
  rewrite (search_call_reports_a_count sample_parse no_date unit accepting_world
             tt search_call search_request "zzz" fresh search_call_asks eq_refl).
  eexists. split; reflexivity.
Defined.

(** Three well-formed calls, the last under an unknown name. *)
Lemma failing_tools_do_not_bring_the_fallback_witness :
  Forall (fun c => exists n ps, asks_for sample_parse c n ps)
    [good_call; search_call; stray_call]
  /\ exists text calls s',
       getChatResponse "sk-sample" sample_parse no_date unit accepting_world
         obliging_llm question tt fresh
       = (Ok {| cr_content := VStr text; cr_toolCalls := Some calls |}, s')
       /\ text <> ""%string
       /\ length calls <= 3
       /\ asked s' = [] ++ [question].
Proof.
  assert (Hwf : Forall (fun c => exists n ps, asks_for sample_parse c n ps)
                  [good_call; search_call; stray_call]).
  { repeat constructor.
    - eexists. eexists. exact good_call_asks.
    - eexists. eexists. exact search_call_asks.
    - eexists. eexists. exact stray_call_asks. }
  split; [exact Hwf|].
  exact (failing_tools_do_not_bring_the_fallback "sk-sample" sample_parse
           no_date unit accepting_world obliging_llm question tt fresh
           (reply_with [good_call; search_call; stray_call])
           [good_call; search_call; stray_call]
           eq_refl eq_refl (sample_offers _) Hwf).
Defined.


End AssistantFacts.

(* ================================================================== *)
(** * Facts about the calendar service *)
(* ================================================================== *)

Module CalendarFacts.
Import Calendar.
Local Open Scope list_scope.

Section World.

Variable env : store -> request -> Server.fetch_outcome.
Variable now : Z.
Variable midnight_iso : string.
Variable next_midnight_iso : string.

Local Abbreviation getValidAccessToken := (Calendar.getValidAccessToken env now).
Local Abbreviation perform :=
  (Calendar.perform env now midnight_iso next_midnight_iso).

Lemma inert_throw_if (b : bool) (e : exn) : Assistant.inert (@throw_if store b e).
Proof. intros s. now destruct b. Qed.

Lemma inert_response_json (r : Server.response) :
  Assistant.inert (response_json r).
Proof. intros s. unfold response_json. now destruct (Server.json r). Qed.

Lemma after_fetch {A} (r : request) (k : Server.response -> M store A) (t : store) :
  (forall resp, Assistant.inert (k resp)) ->
  snd (bind (fetch env r) k t) = t ++ [(r, env t r)].
Proof.
  intros Hk. unfold bind, fetch. destruct (env t r) as [m|resp]; [reflexivity|].
  apply Hk.
Qed.

Ltac after_reads :=
  repeat first
    [ apply AssistantFacts.inert_ret | apply AssistantFacts.inert_throw
    | apply AssistantFacts.inert_get_prop | apply inert_throw_if
    | apply inert_response_json
    | apply AssistantFacts.inert_bind; [|intros ?] ].

(** Every method begins with [getValidAccessToken] and stops when it
    throws. *)
Lemma perform_without_token (op : operation) (u : User) (t t1 : store) (e : exn) :
  getValidAccessToken u t = (Throw e, t1) -> perform op u t = (Throw e, t1).
Proof.
  intros H.
  destruct op; cbn [Calendar.perform];
    unfold getTodayEvents, getEvents, createEvent, updateEvent, deleteEvent;
    unfold bind at 1; now rewrite H.
Qed.

(** With a token in hand every method sends one request, which bears
    it. *)
Lemma perform_with_token (op : operation) (u : User) (t t1 : store) (tok : value) :
  getValidAccessToken u t = (Ok tok, t1) ->
  exists r,
    snd (perform op u t) = t1 ++ [(r, env t1 r)]
    /\ bearer_of r = Some (to_js_string tok).
Proof.
  intros H.
  destruct op; cbn [Calendar.perform];
    unfold getTodayEvents, getEvents, createEvent, updateEvent, deleteEvent;
    unfold bind at 1; rewrite H; cbv zeta;
    (eexists; split;
     [ apply after_fetch; intros resp; after_reads | reflexivity ]).
Qed.

(** X20: a user without an access token, or with an expired one and no
    refresh token, gets an error from each of the five methods, and no
    request is sent. *)
Theorem no_usable_token_no_request (op : operation) (u : User) (t : store) :
  truthy (accessToken u) = false
  \/ (expired now u = true /\ truthy (refreshToken u) = false) ->
  perform op u t
  = (Throw (Error (if truthy (accessToken u)
                   then "Access token expired and no refresh token available"
                   else "No access token available")), t).
Proof.
  intros H. apply perform_without_token. unfold Calendar.getValidAccessToken.
  destruct (truthy (accessToken u)) eqn:A; [|reflexivity].
  destruct H as [H | [He Hr]]; [discriminate H|].
  cbn [negb]. now rewrite He, Hr.
Qed.

(** X21: with an access token that has no expiry or has not expired,
    each of the five methods sends exactly one request, which bears the
    user's token; nothing is refreshed. *)
Theorem fresh_token_one_request (op : operation) (u : User) (t : store) :
  truthy (accessToken u) = true ->
  expired now u = false ->
  exists r,
    snd (perform op u t) = t ++ [(r, env t r)]
    /\ bearer_of r = Some (to_js_string (accessToken u)).
Proof.
  intros A E. apply perform_with_token. unfold Calendar.getValidAccessToken.
  now rewrite A, E.
Qed.

(** X22: an expired token is refreshed before the operation and the
    user's own token is not used: the refresh request goes first, and
    when the answer is a success with an object for body, the request
    to the calendar bears whatever [access_token] that object holds,
    the text [undefined] when it holds none. *)
Theorem expired_token_is_refreshed_first (op : operation) (u : User) (t : store)
    (resp : Server.response) (tokens : value) :
  truthy (accessToken u) = true ->
  expired now u = true ->
  truthy (refreshToken u) = true ->
  env t (TokenRefresh (to_js_string (refreshToken u))) = Server.Responded resp ->
  Server.ok resp = true ->
  Server.json resp = Some tokens ->
  nullish tokens = false ->
  exists r,
    snd (perform op u t)
    = t ++ [(TokenRefresh (to_js_string (refreshToken u)), Server.Responded resp);
            (r, env (t ++ [(TokenRefresh (to_js_string (refreshToken u)),
                            Server.Responded resp)]) r)]
    /\ bearer_of r = Some (to_js_string (prop_of tokens "access_token")).
Proof.
  intros A E R Henv Hok Hj Hn.
  destruct (perform_with_token op u t
              (t ++ [(TokenRefresh (to_js_string (refreshToken u)),
                      Server.Responded resp)])
              (prop_of tokens "access_token")) as [r [Hr Hb]].
  - unfold Calendar.getValidAccessToken. rewrite A, E, R. cbn [negb].
    unfold googleAuth_refreshToken, bind, fetch. rewrite Henv, Hok.
    cbn [negb throw_if ret]. unfold response_json. rewrite Hj. cbn [ret].
    apply EffFacts.get_prop_ok, Hn.
  - exists r. rewrite Hr, <- app_assoc. now split.
Qed.

(** X23: when the token endpoint refuses the refresh, each of the five
    methods throws the refresh error and the calendar is not asked. *)
Theorem refused_refresh_stops_the_operation (op : operation) (u : User)
    (t : store) (resp : Server.response) :
  truthy (accessToken u) = true ->
  expired now u = true ->
  truthy (refreshToken u) = true ->
  env t (TokenRefresh (to_js_string (refreshToken u))) = Server.Responded resp ->
  Server.ok resp = false ->
  perform op u t
  = (Throw (Error "Failed to refresh token"),
     t ++ [(TokenRefresh (to_js_string (refreshToken u)), Server.Responded resp)]).
Proof.
  intros A E R Henv Hok. apply perform_without_token.
  unfold Calendar.getValidAccessToken. rewrite A, E, R. cbn [negb].
  unfold googleAuth_refreshToken, bind, fetch. now rewrite Henv, Hok.
Qed.

End World.

(** ** Runs in the sample world *)

Lemma no_usable_token_no_request_witness :
  truthy (accessToken signed_out) = false
  /\ perform sample_env 2000 "" "" (DeleteCalendarEvent (VStr "evt123"))
       signed_out []
     = (Throw (Error "No access token available"), []).
Proof.
  split; [reflexivity|].
  exact (no_usable_token_no_request sample_env 2000 "" ""
           (DeleteCalendarEvent (VStr "evt123")) signed_out []
           (or_introl eq_refl)).
Defined.

Lemma fresh_token_one_request_witness :
  truthy (accessToken fresh_user) = true
  /\ expired 2000 fresh_user = false
  /\ exists r,
       snd (perform sample_env 2000 "" "" GetTodayEvents fresh_user [])
       = [] ++ [(r, sample_env [] r)]
       /\ bearer_of r = Some "ya29.new"%string.
Proof.
  split; [reflexivity|]. split; [reflexivity|].
  exact (fresh_token_one_request sample_env 2000 "" "" GetTodayEvents
           fresh_user [] eq_refl eq_refl).
Defined.

(** The token endpoint answers without an access token: the deletion
    is sent bearing [undefined]. *)
Lemma expired_token_is_refreshed_first_witness :
  expired 2000 stale_user = true
  /\ exists r,
       snd (perform sample_env 2000 "" "" (DeleteCalendarEvent (VStr "evt123"))
              stale_user [])
       = [] ++ [(TokenRefresh "1//refresh",
                 Server.Responded
                   (Server.response_of 200 (Some (VObj [("expires_in", VNum 3599)]))));
                (r, sample_env
                      ([] ++ [(TokenRefresh "1//refresh",
                               Server.Responded
                                 (Server.response_of 200
                                    (Some (VObj [("expires_in", VNum 3599)]))))]) r)]
       /\ bearer_of r = Some "undefined"%string.
Proof.
  split; [reflexivity|].
  exact (expired_token_is_refreshed_first sample_env 2000 "" ""
           (DeleteCalendarEvent (VStr "evt123")) stale_user []
           (Server.response_of 200 (Some (VObj [("expires_in", VNum 3599)])))
           (VObj [("expires_in", VNum 3599)])
           eq_refl eq_refl eq_refl eq_refl eq_refl eq_refl eq_refl).
Defined.

Lemma refused_refresh_stops_the_operation_witness :
  Server.ok refused = false
  /\ perform refusing_env 2000 "" "" (DeleteCalendarEvent (VStr "evt123"))
       stale_user []
     = (Throw (Error "Failed to refresh token"),
        [] ++ [(TokenRefresh "1//refresh", Server.Responded refused)]).
Proof.
  split; [reflexivity|].
  exact (refused_refresh_stops_the_operation refusing_env 2000 "" ""
           (DeleteCalendarEvent (VStr "evt123")) stale_user [] refused
           eq_refl eq_refl eq_refl eq_refl eq_refl).
Defined.

End CalendarFacts.

(* ================================================================== *)
(** * Facts about the token middleware and the OAuth callback *)
(* ================================================================== *)

Module AuthFacts.
Import Auth.
Local Open Scope list_scope.

Section World.

Variable env : store -> request -> Server.fetch_outcome.

Local Abbreviation middleware := (Auth.middleware env).
Local Abbreviation callback := (Auth.callback env).

Lemma both_tokens_user (session : Server.Session) :
  has_both_tokens session = true ->
  exists user,
    Server.session_user session = Some user
    /\ truthy (Server.refreshToken user) && truthy (Server.accessToken user) = true.
Proof.
  unfold has_both_tokens. destruct (Server.session_user session) as [user|];
    [|discriminate]. intros H. now exists user.
Qed.

(** X24: the middleware refreshes nothing when the token check is
    answered, whatever the status of the answer, a 401 included: the
    request goes on with the session as it was, after this one
    request. *)
Theorem answered_check_passes_unchanged (session : Server.Session)
    (user : Server.User) (t : store) (resp : Server.response) :
  Server.session_user session = Some user ->
  has_both_tokens session = true ->
  env t (TokenInfo (to_js_string (Server.accessToken user)))
  = Server.Responded resp ->
  middleware session t
  = (Ok (Next session),
     t ++ [(TokenInfo (to_js_string (Server.accessToken user)),
            Server.Responded resp)]).
Proof.
  intros Hu Hb Henv. unfold has_both_tokens in Hb. rewrite Hu in Hb.
  unfold Auth.middleware. rewrite Hu, Hb.
  unfold try_catch, bind, fetch. now rewrite Henv.
Qed.

(** X25: when the token check cannot be made, the answer to the
    refresh is adopted unchecked: whatever its status, if its body is
    an object the request goes on and the session's access token
    becomes the object's [access_token], [undefined] when it has none,
    in which case the chat route offers the model no tools; the
    refresh token changes only when the object brings a new one. *)
Theorem refresh_is_adopted_unchecked (session : Server.Session)
    (user : Server.User) (t : store) (m : string) (resp : Server.response)
    (tokens : value) :
  Server.session_user session = Some user ->
  has_both_tokens session = true ->
  env t (TokenInfo (to_js_string (Server.accessToken user)))
  = Server.Rejected m ->
  env (t ++ [(TokenInfo (to_js_string (Server.accessToken user)),
              Server.Rejected m)])
    (RefreshToken (to_js_string (Server.refreshToken user)))
  = Server.Responded resp ->
  Server.json resp = Some tokens ->
  nullish tokens = false ->
  exists user' t',
    middleware session t
    = (Ok (Next {| Server.session_user := Some user';
                   Server.session_messages := Server.session_messages session |}),
       t')
    /\ length t' = length t + 2
    /\ Server.accessToken user' = prop_of tokens "access_token"
    /\ Server.refreshToken user'
       = (if truthy (prop_of tokens "refresh_token")
          then prop_of tokens "refresh_token"
          else Server.refreshToken user)
    /\ (truthy (prop_of tokens "access_token") = false ->
        Server.tools_for user' = None).
Proof.
  intros Hu Hb H1 H2 Hj Hn. unfold has_both_tokens in Hb. rewrite Hu in Hb.
  unfold Auth.middleware. rewrite Hu, Hb.
  unfold try_catch, bind at 1. unfold fetch at 1. rewrite H1. cbv zeta.
  unfold refreshAccessToken, bind, fetch. rewrite H2. cbv zeta.
  unfold response_json. rewrite Hj. cbn [ret].
  rewrite !(EffFacts.get_prop_ok tokens _ _ Hn).
  eexists. eexists. split; [reflexivity|].
  split; [rewrite !length_app; cbn [length]; lia|].
  split; [reflexivity|]. split; [reflexivity|].
  intros Hf. unfold Server.tools_for. cbn [Server.accessToken]. now rewrite Hf.
Qed.

Ltac verdict_done :=
  split; [reflexivity|]; split; [cbn; lia|];
  split; intros Hx; first [discriminate Hx | now split | reflexivity].

(** X26: the middleware never throws and sends at most two requests; a
    session without a user, or whose user lacks one of the two tokens,
    goes on untouched with no request at all, and the 401 comes only
    after two requests, the check and the refresh. *)
Theorem middleware_verdicts (session : Server.Session) (t : store) :
  exists v new,
    middleware session t = (Ok v, t ++ new)
    /\ length new <= 2
    /\ (has_both_tokens session = false -> v = Next session /\ new = [])
    /\ (v = AuthenticationRequired -> length new = 2).
Proof.
  unfold Auth.middleware, has_both_tokens.
  destruct (Server.session_user session) as [user|].
  2:{ exists (Next session), []. rewrite app_nil_r. verdict_done. }
  destruct (truthy (Server.refreshToken user) && truthy (Server.accessToken user)).
  2:{ exists (Next session), []. rewrite app_nil_r. verdict_done. }
  unfold try_catch, bind at 1. unfold fetch at 1. cbv zeta.
  destruct (env t (TokenInfo _)) as [m|resp] eqn:E1.
  2:{ eexists. eexists. verdict_done. }
  unfold refreshAccessToken, bind at 1. unfold bind at 1. unfold fetch. cbv zeta.
  match goal with
  | |- context [env ?t1 (RefreshToken ?x)] =>
      destruct (env t1 (RefreshToken x)) as [m2|resp2] eqn:E2
  end.
  { eexists. eexists. rewrite <- app_assoc. verdict_done. }
  unfold response_json. destruct (Server.json resp2) as [tokens|].
  2:{ eexists. eexists. rewrite <- app_assoc. verdict_done. }
  cbn [ret]. unfold bind.
  destruct tokens; cbn [get_prop ret throw];
    (eexists; eexists; rewrite <- app_assoc; verdict_done).
Qed.

(** X27: a code that Google refuses still signs the user in.  The
    callback looks at no status: when the answers to the exchange and
    to the user-info request have objects for bodies, it redirects to
    the chat and stores a user whose tokens are the [access_token] and
    [refresh_token] of the first object, [undefined] when it has
    none. *)
Theorem refused_code_still_signs_in (code : string) (session : Server.Session)
    (t : store) (r1 r2 : Server.response) (tokens info : value) :
  env t (ExchangeCode code) = Server.Responded r1 ->
  Server.json r1 = Some tokens ->
  nullish tokens = false ->
  env (t ++ [(ExchangeCode code, Server.Responded r1)])
    (UserInfo (to_js_string (prop_of tokens "access_token")))
  = Server.Responded r2 ->
  Server.json r2 = Some info ->
  nullish info = false ->
  callback (VStr code) session t
  = (Ok (to_chat,
         {| Server.session_user :=
              Some {| Server.accessToken := prop_of tokens "access_token";
                      Server.refreshToken := prop_of tokens "refresh_token" |};
            Server.session_messages := Server.session_messages session |}),
     t ++ [(ExchangeCode code, Server.Responded r1);
           (UserInfo (to_js_string (prop_of tokens "access_token")),
            Server.Responded r2)]).
Proof.
  intros H1 J1 N1 H2 J2 N2. unfold Auth.callback, try_catch.
  unfold bind at 1. cbn [ret].
  unfold exchangeCodeForTokens, bind at 1. unfold bind at 1. unfold fetch at 1.
  rewrite H1. cbv zeta. unfold response_json at 1. rewrite J1. cbn [ret].
  unfold bind at 1. rewrite (EffFacts.get_prop_ok tokens _ _ N1).
  unfold getUserInfo, bind at 1. unfold bind at 1. unfold fetch.
  rewrite H2. cbv zeta. unfold response_json. rewrite J2. cbn [ret].
  unfold bind. rewrite !(EffFacts.get_prop_ok info _ _ N2).
  rewrite (EffFacts.get_prop_ok tokens _ _ N1). cbn [ret].
  now rewrite <- app_assoc.
Qed.

End World.

(** ** Runs in the sample worlds *)

(** Google answers the token check with a 401 and nothing is
    refreshed. *)
Lemma answered_check_passes_unchanged_witness :
  has_both_tokens both_tokens = true
  /\ exists o,
       middleware expired_env both_tokens []
       = (Ok (Next both_tokens), [] ++ [(TokenInfo "ya29.old", o)]).
Proof.
  split; [reflexivity|]. eexists.
  exact (answered_check_passes_unchanged expired_env both_tokens _ [] _
           eq_refl eq_refl eq_refl).
Defined.

(** The refresh is refused with [invalid_grant]: the session loses its
    access token and goes on. *)
Lemma refresh_is_adopted_unchecked_witness :
  has_both_tokens both_tokens = true
  /\ Server.ok invalid_grant = false
  /\ exists user' t',
       middleware refusing_env both_tokens []
       = (Ok (Next {| Server.session_user := Some user';
                      Server.session_messages := None |}), t')
       /\ Server.accessToken user' = VUndef
       /\ Server.tools_for user' = None.
Proof.
  split; [reflexivity|]. split; [reflexivity|].
  destruct (refresh_is_adopted_unchecked refusing_env both_tokens _ [] _
              invalid_grant _ eq_refl eq_refl eq_refl eq_refl eq_refl eq_refl)
    as [user' [t' [H [_ [Ha [_ Ht]]]]]].
  exists user', t'. split; [exact H|]. split; [exact Ha|].
  apply Ht. reflexivity.
Defined.

(** A code Google refuses with [invalid_grant]. *)
Lemma refused_code_still_signs_in_witness :
  Server.ok invalid_grant = false
  /\ exists t',
       callback refusing_env (VStr "4/stale") nobody []
       = (Ok (to_chat,
              {| Server.session_user :=
                   Some {| Server.accessToken := VUndef;
                           Server.refreshToken := VUndef |};
                 Server.session_messages := None |}), t').
Proof.
  split; [reflexivity|]. eexists.
  exact (refused_code_still_signs_in refusing_env "4/stale" nobody []
           invalid_grant invalid_grant _ _
           eq_refl eq_refl eq_refl eq_refl eq_refl eq_refl).
Defined.

End AuthFacts.
